(** * CodeMorph: a shallow embedding of the migration core

    The development follows the TypeScript sources:
    - [types]                 the shared interfaces (ColumnDefinition, ...),
    - [DatabaseAdapter]       the storage adapters, over an in-memory backend,
    - [DataMigrator]          batch and incremental row transfer,
    - [SchemaEvolution]       the column diff,
    - [ZeroDowntimeManager]   shadow tables and cutover,
    - [MigrationEngine]       the job state machine.

    Definitions come first, the theorems about them follow. *)

From Stdlib Require Import ZArith QArith Qround Ascii.
From stdpp Require Import base option list sorting gmap strings pretty.

Local Open Scope Z_scope.

(** ** JavaScript values *)

Module JS.

(** Numbers.  A double is either NaN, an infinity or a finite value; finite
    values are kept as rationals (every finite double is one). *)
Inductive Num : Type :=
| NaN
| Infinity (negative : bool)
| Fin (q : Q).

(** The values a row cell or a thrown exception can hold.  Dates carry their
    time value in milliseconds ([None] is an invalid date); other objects are
    opaque; a function is one of the methods every object inherits from
    [Object.prototype], known by its name. *)
Inductive Value : Type :=
| VUndefined
| VNull
| VBool (b : bool)
| VNum (n : Num)
| VStr (s : string)
| VDate (t : option Z)
| VObj (ref : nat)
| VFun (name : string).

(** [Object.prototype] as a value, which is what [row.__proto__] reads. *)
Definition Object_prototype : Value := VObj 1.

Definition isNaN (n : Num) : bool :=
  match n with NaN => true | _ => false end.

Definition Math_floor (n : Num) : Num :=
  match n with
  | Fin q => Fin (inject_Z (Qfloor q))
  | other => other
  end.

Definition num_of_Z (z : Z) : Num := Fin (inject_Z z).

(** [x === y] on numbers: NaN equals nothing, finite values compare by value. *)
Definition num_eqb (x y : Num) : bool :=
  match x, y with
  | Fin p, Fin q => Qeq_bool p q
  | Infinity a, Infinity b => Bool.eqb a b
  | _, _ => false
  end.

(** The values of a property compared with [===] and never looked into (a
    column's default): a primitive, or an object, a [Date] included, of which
    only the identity counts. *)
Inductive Any : Type :=
| AUndefined
| ANull
| ABool (b : bool)
| ANum (n : Num)
| AStr (s : string)
| AObject (identity : nat).

(** [x === y]: primitives by value, with NaN equal to nothing; an object is
    equal to itself only. *)
Definition strict_equal (x y : Any) : bool :=
  match x, y with
  | AUndefined, AUndefined => true
  | ANull, ANull => true
  | ABool a, ABool b => Bool.eqb a b
  | ANum a, ANum b => num_eqb a b
  | AStr a, AStr b => bool_decide (a = b)
  | AObject a, AObject b => bool_decide (a = b)
  | _, _ => false
  end.

(** [value === null || value === undefined]. *)
Definition nullish (v : Value) : bool :=
  match v with VUndefined | VNull => true | _ => false end.

(** Truthiness, as tested by [if (v)], [a && b] and [a || b]. *)
Definition truthy (v : Value) : bool :=
  match v with
  | VUndefined | VNull => false
  | VBool b => b
  | VNum NaN => false
  | VNum (Infinity _) => true
  | VNum (Fin q) => negb (Qeq_bool q 0)
  | VStr s => negb (bool_decide (s = ""))
  | VDate _ => true
  | VObj _ => true
  | VFun _ => true
  end.

(** ASCII case mapping, the part of [toLowerCase] that can produce the
    ASCII literals the code compares with. *)
Definition lower_ascii (c : ascii) : ascii :=
  let n := N_of_ascii c in
  if ((65 <=? n) && (n <=? 90))%N then ascii_of_N (n + 32) else c.

Fixpoint toLowerCase (s : string) : string :=
  match s with
  | EmptyString => EmptyString
  | String c r => String (lower_ascii c) (toLowerCase r)
  end.

(** The parts of the runtime the embedding does not compute: number and date
    formatting and parsing, JSON parsing and the string form of objects and
    functions. *)
Record Builtins : Type := {
  Number_toString : Num -> string;
  Date_toString : option Z -> string;
  Object_toString : nat -> string;
  Function_toString : string -> string;
  String_toNumber : string -> Num;
  Date_parse : string -> option Z;
  JSON_parse : string -> option Value;
}.

Section Conversions.
Context (rt : Builtins).

(** [String(value)]. *)
Definition String_ (v : Value) : string :=
  match v with
  | VUndefined => "undefined"
  | VNull => "null"
  | VBool true => "true"
  | VBool false => "false"
  | VNum n => Number_toString rt n
  | VStr s => s
  | VDate t => Date_toString rt t
  | VObj r => Object_toString rt r
  | VFun f => Function_toString rt f
  end.

(** [Number(value)]. *)
Definition Number_ (v : Value) : Num :=
  match v with
  | VUndefined => NaN
  | VNull => num_of_Z 0
  | VBool true => num_of_Z 1
  | VBool false => num_of_Z 0
  | VNum n => n
  | VStr s => String_toNumber rt s
  | VDate (Some t) => num_of_Z t
  | VDate None => NaN
  | VObj r => String_toNumber rt (Object_toString rt r)
  | VFun f => String_toNumber rt (Function_toString rt f)
  end.

(** The time value of [new Date(n)] for a number: truncated towards zero and
    clipped to the range of valid dates. *)
Definition time_clip (n : Num) : option Z :=
  match n with
  | Fin q =>
      let t := Z.quot (Qnum q) (Z.pos (Qden q)) in
      if Z.abs t <=? 8640000000000000 then Some t else None
  | _ => None
  end.

(** The time value of [new Date(value)] for a value that is not a date. *)
Definition Date_of (v : Value) : option Z :=
  match v with
  | VStr s => Date_parse rt s
  | VObj r => Date_parse rt (Object_toString rt r)
  | VFun f => Date_parse rt (Function_toString rt f)
  | VDate t => t
  | other => time_clip (Number_ other)
  end.

End Conversions.

(** What the code throws and catches. *)
Inductive Thrown : Type :=
| Error (message : string)
| Other (v : Value).

(** [String(error)] as used in template literals. *)
Definition Thrown_toString (rt : Builtins) (e : Thrown) : string :=
  match e with
  | Error m => "Error: " +:+ m
  | Other v => String_ rt v
  end.

(** The outcome of a call: a value or a thrown exception. *)
Inductive Outcome (A : Type) : Type :=
| Return (a : A)
| Throw (e : Thrown).
Arguments Return {A} a.
Arguments Throw {A} e.

End JS.
Export JS.

(** ** types: the shared interfaces *)

Module types.

Record ColumnDefinition : Type := {
  col_name : string;
  col_type : string;
  nullable : bool;
  (** [defaultValue?: any]; an absent property reads as [undefined]. *)
  defaultValue : Any;
}.

Record TableDefinition : Type := {
  tbl_name : string;
  columns : list ColumnDefinition;
  primaryKey : option string;
}.

Record IndexDefinition : Type := {
  idx_name : string;
  idx_table : string;
  idx_columns : list string;
  idx_unique : bool;
}.

Record SchemaDefinition : Type := {
  version : string;
  tables : list TableDefinition;
  indexes : option (list IndexDefinition);
}.

Inductive DatabaseType : Type := postgresql | mysql | mongodb.

Record DatabaseConfig : Type := {
  db_type : DatabaseType;
  host : string;
  port : Z;
  database : string;
  username : string;
  password : string;
}.

Inductive RiskLevel : Type := low | medium | high.

Record MigrationStrategy : Type := {
  strategy_id : string;
  strategy_name : string;
  description : string;
  estimatedDuration : Z;
  riskLevel : RiskLevel;
  downtime : bool;
  rollbackSupported : bool;
}.

Inductive LogLevel : Type := info | warn | error | debug.

Record MigrationLog : Type := {
  timestamp : Z;
  level : LogLevel;
  message : string;
}.

Inductive JobStatus : Type := pending | running | completed | failed | paused.

Record MigrationJob : Type := {
  id : string;
  status : JobStatus;
  sourceDatabase : DatabaseConfig;
  targetDatabase : DatabaseConfig;
  strategy : MigrationStrategy;
  schema : SchemaDefinition;
  progress : Q;
  startTime : option Z;
  endTime : option Z;
  job_error : option string;
  logs : list MigrationLog;
}.

End types.
Export types.

(** ** Rows *)

(** A row is a plain object keyed by column name, given by its own
    properties; its prototype is [Object.prototype]. *)
Abbreviation Row := (gmap string Value).

(** The methods of [Object.prototype]. *)
Definition Object_prototype_methods : list string :=
  ["constructor"; "__defineGetter__"; "__defineSetter__"; "hasOwnProperty";
   "__lookupGetter__"; "__lookupSetter__"; "isPrototypeOf";
   "propertyIsEnumerable"; "toString"; "valueOf"; "toLocaleString"].

(** What a plain object yields for a key it does not own: the accessor
    [__proto__] gives the prototype, the name of a method of
    [Object.prototype] gives that method, any other key [undefined]. *)
Definition inherited (key : string) : Value :=
  if String.eqb key "__proto__" then Object_prototype
  else if existsb (String.eqb key) Object_prototype_methods then VFun key
  else VUndefined.

(** [row[key]]: the own property, else the inherited one. *)
Definition get (row : Row) (key : string) : Value :=
  match row !! key with
  | Some v => v
  | None => inherited key
  end.

(** The own properties after [row[key] = value].  On an object that does not
    own [__proto__] the assignment runs the setter inherited from
    [Object.prototype], which adds no property (it replaces the prototype
    when [value] is an object or null; nothing reads through the prototype of
    such a row afterwards, the adapters insert own properties).  Every other
    key becomes, or stays, an own property. *)
Definition set_property (key : string) (value : Value) (row : Row) : Row :=
  if String.eqb key "__proto__" && negb (bool_decide (is_Some (row !! key)))
  then row
  else <[key := value]> row.

(** [Date.now()] and [new Date()] read the clock; a clock tells the reading
    of each call, the calls being numbered in program order. *)
Abbreviation Clock := (nat -> Z).

(** ** Calls that may throw and change a state *)

Module Eff.

(** A computation over a state [S]: it returns or throws, and leaves a state
    behind in both cases (an exception does not undo earlier effects). *)
Definition M (S A : Type) : Type := S -> Outcome A * S.

Definition ret {S A} (a : A) : M S A := fun s => (Return a, s).

Definition throw {S A} (e : Thrown) : M S A := fun s => (Throw e, s).

Definition bind {S A B} (m : M S A) (k : A -> M S B) : M S B :=
  fun s =>
    match m s with
    | (Return a, s') => k a s'
    | (Throw e, s') => (Throw e, s')
    end.

(** [try { m } catch (e) { handler e }]. *)
Definition try_catch {S A} (m : M S A) (handler : Thrown -> M S A) : M S A :=
  fun s =>
    match m s with
    | (Return a, s') => (Return a, s')
    | (Throw e, s') => handler e s'
    end.

Definition gets {S A} (f : S -> A) : M S A := fun s => (Return (f s), s).

Definition modify {S} (f : S -> S) : M S unit := fun s => (Return tt, f s).

(** Run a computation on a component of the state. *)
Definition zoom {S T A} (proj : S -> T) (inj : T -> S -> S) (m : M T A) : M S A :=
  fun s => let '(r, t) := m (proj s) in (r, inj t s).

(** [for (const x of xs) { body x }]. *)
Fixpoint for_of {S A} (xs : list A) (body : A -> M S unit) : M S unit :=
  match xs with
  | [] => ret tt
  | x :: rest => bind (body x) (fun _ => for_of rest body)
  end.

End Eff.

Notation "'let*' x := m 'in' k" := (Eff.bind m (fun x => k))
  (at level 10, x pattern, m at level 100, k at level 200, only parsing).

(** ** Map objects *)

Module Map.

(** A [Map] with string keys: its entries in insertion order, each key once. *)
Definition t (V : Type) : Type := list (string * V).

(** [map.set(key, value)]: a known key keeps its place and takes the value. *)
Fixpoint set {V} (key : string) (value : V) (m : t V) : t V :=
  match m with
  | [] => [(key, value)]
  | (k, v) :: rest =>
      if decide (k = key) then (key, value) :: rest
      else (k, v) :: set key value rest
  end.

(** [map.get(key)]. *)
Fixpoint get {V} (key : string) (m : t V) : option V :=
  match m with
  | [] => None
  | (k, v) :: rest => if decide (k = key) then Some v else get key rest
  end.

(** [map.has(key)]. *)
Definition has {V} (key : string) (m : t V) : bool :=
  match get key m with Some _ => true | None => false end.

(** [new Map(entries)]. *)
Definition of_entries {V} (entries : list (string * V)) : t V :=
  fold_left (fun m e => set (fst e) (snd e) m) entries [].

Definition keys {V} (m : t V) : list string := fst <$> m.

End Map.

(** ** DatabaseAdapter: the three adapters over an in-memory backend *)

Module DatabaseAdapter.

(** The parameter markers a statement is written with: [?] or [$1]. *)
Inductive Placeholder : Type := Question | Dollar.

(** The statements the core sends through [executeQuery]. *)
Inductive Sql : Type :=
(** SELECT MAX(updated_at) as max_updated, MAX(created_at) as max_created
    FROM t *)
| SelectMaxTimestamps (table : string)
(** SELECT * FROM t WHERE updated_at > p OR created_at > p
    ORDER BY updated_at, created_at [LIMIT n], with the date bound to p *)
| SelectSince (table : string) (style : Placeholder) (since : option Z)
    (limit : option nat)
(** SELECT * FROM t LIMIT n *)
| SelectLimit (table : string) (limit : nat)
(** ALTER TABLE t RENAME TO u *)
| AlterTableRename (table newName : string)
(** CREATE TABLE IF NOT EXISTS maintenance_mode (...);
    INSERT INTO maintenance_mode (enabled, message) VALUES (true, ...) *)
| EnableMaintenance
(** UPDATE maintenance_mode SET enabled = false WHERE enabled = true *)
| DisableMaintenance.

(** The interface methods, as recorded in a backend's journal. *)
Inductive Call : Type :=
| executeQuery_ (q : Sql)
| getCount_ (table : string)
| selectData_ (table : string) (limit offset : nat)
| insertData_ (table : string) (rows : nat)
| beginTransaction_
| commit_
| rollback_.

(** A backend: which adapter class serves it, its tables (or collections),
    the tables as they were when the open transaction began, and the calls
    received so far, oldest first.  Tables hold rows and no declared
    columns: a cell that is missing or not a valid date reads as NULL in the
    timestamp statements. *)
Record Backend : Type := {
  kind : DatabaseType;
  store : gmap string (list Row);
  undo : option (gmap string (list Row));
  journal : list Call;
}.

Definition record (c : Call) (b : Backend) : Backend :=
  {| kind := kind b; store := store b; undo := undo b;
     journal := journal b ++ [c] |}.

Definition with_store (st : gmap string (list Row)) (b : Backend) : Backend :=
  {| kind := kind b; store := st; undo := undo b; journal := journal b |}.

(** The error an adapter's [executeQuery] throws for a driver failure. *)
Definition query_failed (k : DatabaseType) (cause : string) : Thrown :=
  match k with
  | postgresql => Error ("PostgreSQL query failed: " +:+ cause)
  | mysql => Error ("MySQL query failed: " +:+ cause)
  | mongodb => Error "MongoDB does not support SQL queries"
  end.

(** [$n] is PostgreSQL's marker, [?] is MySQL's (as in each adapter's own
    [selectData]). *)
Definition accepts (k : DatabaseType) (p : Placeholder) : bool :=
  match k, p with
  | postgresql, Dollar => true
  | mysql, Question => true
  | _, _ => false
  end.

(** A cell as a timestamp column holds it. *)
Definition sql_time (v : Value) : option Z :=
  match v with VDate (Some t) => Some t | _ => None end.

Definition updated_at (r : Row) : option Z := sql_time (get r "updated_at").
Definition created_at (r : Row) : option Z := sql_time (get r "created_at").

(** [col > since]; NULL compares as unknown. *)
Definition later_than (since : Z) (t : option Z) : bool :=
  match t with Some x => since <? x | None => false end.

Definition changed_since (since : Z) (r : Row) : bool :=
  later_than since (updated_at r) || later_than since (created_at r).

(** ORDER BY updated_at, created_at: ascending; NULLs come last on PostgreSQL
    and first on MySQL. *)
Definition time_lt (nulls_first : bool) (a b : option Z) : bool :=
  match a, b with
  | Some x, Some y => x <? y
  | None, Some _ => nulls_first
  | Some _, None => negb nulls_first
  | None, None => false
  end.

Definition row_le (nulls_first : bool) (r1 r2 : Row) : bool :=
  if time_lt nulls_first (updated_at r1) (updated_at r2) then true
  else if time_lt nulls_first (updated_at r2) (updated_at r1) then false
  else negb (time_lt nulls_first (created_at r2) (created_at r1)).

Definition nulls_first (k : DatabaseType) : bool :=
  match k with mysql => true | _ => false end.

Definition order_by_times (k : DatabaseType) (rows : list Row) : list Row :=
  merge_sort (fun r1 r2 => Is_true (row_le (nulls_first k) r1 r2)) rows.

Definition limit_rows (limit : option nat) (rows : list Row) : list Row :=
  match limit with Some n => take n rows | None => rows end.

(** MAX over a timestamp column; NULL when no row has a value. *)
Definition max_time (col : Row -> option Z) (rows : list Row) : option Z :=
  foldr (fun r acc =>
           match col r, acc with
           | Some t, Some m => Some (Z.max t m)
           | Some t, None => Some t
           | None, _ => acc
           end) None rows.

Definition time_value (t : option Z) : Value :=
  match t with Some x => VDate (Some x) | None => VNull end.

Definition maintenance_row : Row :=
  {[ "enabled" := VBool true; "message" := VStr "Migration in progress" ]}.

Definition leave_maintenance (r : Row) : Row :=
  match get r "enabled" with
  | VBool true => <["enabled" := VBool false]> r
  | _ => r
  end.

(** What a SQL backend does with a statement: the rows it returns and the
    tables afterwards, or the cause of the failure. *)
Definition run_sql (k : DatabaseType) (q : Sql) (st : gmap string (list Row))
  : string + (list Row * gmap string (list Row)) :=
  match q with
  | SelectMaxTimestamps t =>
      match st !! t with
      | Some rows =>
          inr ([ {[ "max_updated" := time_value (max_time updated_at rows);
                    "max_created" := time_value (max_time created_at rows) ]} ],
               st)
      | None => inl "relation does not exist"
      end
  | SelectSince t style since limit =>
      if negb (accepts k style) then inl "syntax error" else
      match st !! t, since with
      | Some rows, Some w =>
          inr (limit_rows limit
                 (order_by_times k (filter (fun r => Is_true (changed_since w r)) rows)),
               st)
      | Some _, None => inl "invalid input for a timestamp"
      | None, _ => inl "relation does not exist"
      end
  | SelectLimit t n =>
      match st !! t with
      | Some rows => inr (take n rows, st)
      | None => inl "relation does not exist"
      end
  | AlterTableRename t u =>
      match st !! t, st !! u with
      | Some rows, None => inr ([], <[u := rows]> (delete t st))
      | Some _, Some _ => inl "relation already exists"
      | None, _ => inl "relation does not exist"
      end
  | EnableMaintenance =>
      inr ([], <["maintenance_mode" :=
                 default [] (st !! "maintenance_mode") ++ [maintenance_row]]> st)
  | DisableMaintenance =>
      match st !! "maintenance_mode" with
      | Some rows => inr ([], <["maintenance_mode" := leave_maintenance <$> rows]> st)
      | None => inl "relation does not exist"
      end
  end.

(** [executeQuery]: the SQL adapters pass the statement to the driver and
    wrap its failure; the MongoDB adapter always throws. *)
Definition executeQuery (q : Sql) : Eff.M Backend (list Row) :=
  fun b0 =>
    let b := record (executeQuery_ q) b0 in
    match kind b with
    | mongodb => (Throw (query_failed mongodb ""), b)
    | k =>
        match run_sql k q (store b) with
        | inr (rows, st) => (Return rows, with_store st b)
        | inl cause => (Throw (query_failed k cause), b)
        end
    end.

(** [getCount]: SELECT COUNT( * ) on the SQL adapters, [countDocuments] on
    MongoDB (an absent collection counts zero documents). *)
Definition getCount (table : string) : Eff.M Backend nat :=
  fun b0 =>
    let b := record (getCount_ table) b0 in
    match kind b, store b !! table with
    | mongodb, rows => (Return (length (default [] rows)), b)
    | _, Some rows => (Return (length rows), b)
    | k, None => (Throw (query_failed k "relation does not exist"), b)
    end.

(** [selectData]: LIMIT/OFFSET on the SQL adapters, [find().limit().skip()]
    on MongoDB (where a limit of zero means no limit). *)
Definition selectData (table : string) (limit offset : nat)
  : Eff.M Backend (list Row) :=
  fun b0 =>
    let b := record (selectData_ table limit offset) b0 in
    match kind b, store b !! table with
    | mongodb, rows =>
        let rest := drop offset (default [] rows) in
        (Return (if decide (limit = 0%nat) then rest else take limit rest), b)
    | _, Some rows => (Return (take limit (drop offset rows)), b)
    | k, None => (Throw (query_failed k "relation does not exist"), b)
    end.

(** The row an INSERT over the columns of [first] stores for [row]. *)
Definition project (first row : Row) : Row :=
  map_imap (fun col _ => Some (get row col)) first.

(** [insertData]: on the SQL adapters nothing for an empty batch, else one
    INSERT per row over the keys of the first row; [insertMany] on MongoDB. *)
Definition insertData (table : string) (data : list Row) : Eff.M Backend unit :=
  fun b0 =>
    let b := record (insertData_ table (length data)) b0 in
    match kind b with
    | mongodb =>
        (Return tt,
         with_store (<[table := default [] (store b !! table) ++ data]> (store b)) b)
    | k =>
        match data with
        | [] => (Return tt, b)
        | first :: _ =>
            match store b !! table with
            | Some rows =>
                (Return tt,
                 with_store (<[table := rows ++ (project first <$> data)]> (store b)) b)
            | None => (Throw (query_failed k "relation does not exist"), b)
            end
        end
    end.

(** [beginTransaction], [commit], [rollback]: BEGIN, COMMIT and ROLLBACK on
    the SQL adapters, where a rollback brings back the tables as they were at
    BEGIN; on MongoDB the three change nothing. *)
Definition beginTransaction : Eff.M Backend unit :=
  fun b0 =>
    let b := record beginTransaction_ b0 in
    match kind b with
    | mongodb => (Return tt, b)
    | _ => (Return tt,
            {| kind := kind b; store := store b;
               undo := Some (default (store b) (undo b)); journal := journal b |})
    end.

Definition commit : Eff.M Backend unit :=
  fun b0 =>
    let b := record commit_ b0 in
    match kind b with
    | mongodb => (Return tt, b)
    | _ => (Return tt,
            {| kind := kind b; store := store b; undo := None;
               journal := journal b |})
    end.

Definition rollback : Eff.M Backend unit :=
  fun b0 =>
    let b := record rollback_ b0 in
    match kind b with
    | mongodb => (Return tt, b)
    | _ => (Return tt,
            {| kind := kind b; store := default (store b) (undo b); undo := None;
               journal := journal b |})
    end.

End DatabaseAdapter.
Export DatabaseAdapter.

(** The two backends a migration runs between, the number of clock readings
    taken so far, and the values handed to a progress callback so far. *)
Record World : Type := {
  source : Backend;
  target : Backend;
  ticks : nat;
  reported : list Q;
}.

Definition on_source {A} (m : Eff.M Backend A) : Eff.M World A :=
  Eff.zoom source
    (fun b w => {| source := b; target := target w; ticks := ticks w;
                   reported := reported w |}) m.

Definition on_target {A} (m : Eff.M Backend A) : Eff.M World A :=
  Eff.zoom target
    (fun b w => {| source := source w; target := b; ticks := ticks w;
                   reported := reported w |}) m.

Definition with_ticks (n : nat) (w : World) : World :=
  {| source := source w; target := target w; ticks := n;
     reported := reported w |}.

(** [Date.now()] / [new Date().getTime()]. *)
Definition Date_now (clock : Clock) : Eff.M World Z :=
  fun w => (Return (clock (ticks w)), with_ticks (S (ticks w)) w).

(** A call of the progress callback. *)
Definition report (p : Q) : Eff.M World unit :=
  Eff.modify (fun w => {| source := source w; target := target w;
                          ticks := ticks w; reported := reported w ++ [p] |}).

(** ** DataMigrator *)

Module DataMigrator.

Record DataMigrator : Type := {
  batchSize : nat;
  maxConcurrency : nat;
}.

Definition new : DataMigrator := {| batchSize := 1000; maxConcurrency := 5 |}.

Definition setBatchSize (size : Z) (this : DataMigrator) : DataMigrator :=
  {| batchSize := Z.to_nat (Z.max 1 (Z.min size 10000));
     maxConcurrency := maxConcurrency this |}.

Definition setMaxConcurrency (concurrency : Z) (this : DataMigrator) : DataMigrator :=
  {| batchSize := batchSize this;
     maxConcurrency := Z.to_nat (Z.max 1 (Z.min concurrency 20)) |}.

(** *** The UUID pattern
    /^[0-9a-f]{8}-[0-9a-f]{4}-[1-5][0-9a-f]{3}-[89ab][0-9a-f]{3}-[0-9a-f]{12}$/i *)

Definition in_range (lo hi : N) (c : ascii) : bool :=
  let n := N_of_ascii c in ((lo <=? n) && (n <=? hi))%N.

(** [0-9a-f], ignoring case. *)
Definition hex (c : ascii) : bool :=
  in_range 48 57 c || in_range 97 102 c || in_range 65 70 c.

(** [-] *)
Definition dash (c : ascii) : bool := in_range 45 45 c.

(** [1-5] *)
Definition version_digit (c : ascii) : bool := in_range 49 53 c.

(** [89ab], ignoring case. *)
Definition variant_digit (c : ascii) : bool :=
  in_range 56 57 c || in_range 97 98 c || in_range 65 66 c.

Definition uuidRegex : list (ascii -> bool) :=
  replicate 8 hex ++ [dash] ++ replicate 4 hex ++ [dash] ++
  [version_digit] ++ replicate 3 hex ++ [dash] ++
  [variant_digit] ++ replicate 3 hex ++ [dash] ++ replicate 12 hex.

(** [regex.test(s)] for an anchored sequence of character classes. *)
Fixpoint test (regex : list (ascii -> bool)) (s : string) : bool :=
  match regex, s with
  | [], EmptyString => true
  | class :: rest, String c r => class c && test rest r
  | _, _ => false
  end.

Definition one_of (s : string) (cases : list string) : bool :=
  existsb (String.eqb s) cases.

Section WithRuntime.
Context (rt : Builtins) (clock : Clock).

(** [transformValue(value, targetType, column)]; the second component counts
    the clock readings ([new Date()]) taken. *)
Definition transformValue (value : Value) (targetType : string) (n : nat)
  : Value * nat :=
  if nullish value then (value, n) else
  let t := toLowerCase targetType in
  if one_of t ["string"; "varchar"; "text"] then
    (VStr (String_ rt value), n)
  else if one_of t ["integer"; "int"; "bigint"] then
    let num := Number_ rt value in
    (VNum (if isNaN num then num_of_Z 0 else Math_floor num), n)
  else if one_of t ["decimal"; "float"; "double"] then
    let dec := Number_ rt value in
    (VNum (if isNaN dec then num_of_Z 0 else dec), n)
  else if one_of t ["boolean"; "bool"] then
    (match value with
     | VBool b => VBool b
     | VStr s => VBool (String.eqb (toLowerCase s) "true" || String.eqb s "1")
     | VNum x => VBool (negb (num_eqb x (num_of_Z 0)))
     | other => VBool (truthy other)
     end, n)
  else if one_of t ["date"; "datetime"; "timestamp"] then
    match value with
    | VDate d => (VDate d, n)
    | other =>
        match Date_of rt other with
        | Some ms => (VDate (Some ms), n)
        | None => (VDate (Some (clock n)), S n)
        end
    end
  else if one_of t ["json"; "jsonb"] then
    (match value with
     | VDate _ | VObj _ => value
     | other =>
         (* a function is not of type 'object' *)
         match JSON_parse rt (String_ rt other) with
         | Some parsed => parsed
         | None => VObj 0
         end
     end, n)
  else if one_of t ["uuid"] then
    let strValue := String_ rt value in
    (if test uuidRegex strValue then VStr strValue else VNull, n)
  else (value, n).

(** The body of the [data.map] callback: one row, column by column. *)
Fixpoint transformColumns (cols : list ColumnDefinition) (row transformedRow : Row)
  (n : nat) : Row * nat :=
  match cols with
  | [] => (transformedRow, n)
  | column :: rest =>
      let value := get row (col_name column) in
      let '(value', n') :=
        if negb (nullish value)
        then transformValue value (col_type column) n
        else (value, n) in
      transformColumns rest row (set_property (col_name column) value' transformedRow) n'
  end.

Definition transformRow (table : TableDefinition) (row : Row) (n : nat) : Row * nat :=
  transformColumns (columns table) row ∅ n.

Fixpoint transformRows (table : TableDefinition) (data : list Row) (n : nat)
  : list Row * nat :=
  match data with
  | [] => ([], n)
  | row :: rest =>
      let '(r, n1) := transformRow table row n in
      let '(rs, n2) := transformRows table rest n1 in
      (r :: rs, n2)
  end.

(** [transformData(data, table)]. *)
Definition transformData (data : list Row) (table : TableDefinition)
  : Eff.M World (list Row) :=
  fun w =>
    let '(out, n) := transformRows table data (ticks w) in
    (Return out, with_ticks n w).

(** The [while (hasMoreData)] loop of [migrateTableData]; [None] when the
    iterations allowed by [fuel] did not reach the end of the loop, else the
    final [totalMigrated]. *)
Fixpoint migrateLoop (this : DataMigrator) (table : TableDefinition)
  (fuel offset totalMigrated : nat) : Eff.M World (option nat) :=
  match fuel with
  | O => Eff.ret None
  | S fuel' =>
      let* data := on_source (selectData (tbl_name table) (batchSize this) offset) in
      if decide (length data = 0%nat) then Eff.ret (Some totalMigrated) else
      let* transformedData := transformData data table in
      let* _ := on_target (insertData (tbl_name table) transformedData) in
      let totalMigrated := (totalMigrated + length data)%nat in
      let offset := (offset + batchSize this)%nat in
      if decide (length data < batchSize this)%nat
      then Eff.ret (Some totalMigrated)
      else migrateLoop this table fuel' offset totalMigrated
  end.

Definition migrateTableData (this : DataMigrator) (fuel : nat)
  (table : TableDefinition) : Eff.M World (option nat) :=
  migrateLoop this table fuel 0 0.

(** [(completedTables / totalTables) * 100]. *)
Definition percent (completedTables totalTables : nat) : Q :=
  (inject_Z (Z.of_nat completedTables) / inject_Z (Z.of_nat totalTables)) * 100.

(** The [for] loop of [migrateData]; [false] when a table ran out of fuel. *)
Fixpoint migrateTables (this : DataMigrator) (fuel : nat)
  (todo : list TableDefinition) (totalTables completedTables : nat)
  (progressCallback : bool) : Eff.M World bool :=
  match todo with
  | [] => Eff.ret true
  | table :: rest =>
      let* r := migrateTableData this fuel table in
      match r with
      | None => Eff.ret false
      | Some _ =>
          let completedTables := S completedTables in
          let* _ := (if progressCallback
                     then report (percent completedTables totalTables)
                     else Eff.ret tt) in
          migrateTables this fuel rest totalTables completedTables progressCallback
      end
  end.

(** [migrateData(sourceAdapter, targetAdapter, schema, progressCallback?)]. *)
Definition migrateData (this : DataMigrator) (fuel : nat)
  (schema : SchemaDefinition) (progressCallback : bool) : Eff.M World bool :=
  migrateTables this fuel (tables schema) (length (tables schema)) 0 progressCallback.

(** [Math.max] on two time values; NaN if either is. *)
Definition Math_max (a b : option Z) : option Z :=
  match a, b with
  | Some x, Some y => Some (Z.max x y)
  | _, _ => None
  end.

(** [getWatermark(adapter, tableName)], on the target. *)
Definition getWatermark (tableName : string) : Eff.M World (option Z) :=
  Eff.try_catch
    (let* result := on_target (executeQuery (SelectMaxTimestamps tableName)) in
     let maxUpdated := from_option (fun r => get r "max_updated") VUndefined (head result) in
     let maxCreated := from_option (fun r => get r "max_created") VUndefined (head result) in
     if truthy maxUpdated && truthy maxCreated then
       Eff.ret (Math_max (Date_of rt maxUpdated) (Date_of rt maxCreated))
     else if truthy maxUpdated then Eff.ret (Date_of rt maxUpdated)
     else if truthy maxCreated then Eff.ret (Date_of rt maxCreated)
     else Eff.ret (Some 0))
    (fun _ => Eff.ret (Some 0)).

(** [getDataSinceWatermark(adapter, tableName, watermark)], on the source. *)
Definition getDataSinceWatermark (this : DataMigrator) (tableName : string)
  (watermark : option Z) : Eff.M World (list Row) :=
  Eff.try_catch
    (on_source (executeQuery
       (SelectSince tableName Question watermark (Some (batchSize this)))))
    (fun _ =>
       Eff.try_catch
         (on_source (executeQuery (SelectLimit tableName (batchSize this))))
         (fun _ => Eff.ret [])).

(** [migrateTableDataIncremental]; returns the number of rows it inserted. *)
Definition migrateTableDataIncremental (this : DataMigrator)
  (table : TableDefinition) : Eff.M World nat :=
  let* watermark := getWatermark (tbl_name table) in
  let* newData := getDataSinceWatermark this (tbl_name table) watermark in
  if decide (0 < length newData)%nat then
    let* transformedData := transformData newData table in
    let* _ := on_target (insertData (tbl_name table) transformedData) in
    Eff.ret (length newData)
  else Eff.ret 0%nat.

Fixpoint migrateTablesIncremental (this : DataMigrator)
  (todo : list TableDefinition) (totalTables completedTables : nat)
  (progressCallback : bool) : Eff.M World unit :=
  match todo with
  | [] => Eff.ret tt
  | table :: rest =>
      let* _ := migrateTableDataIncremental this table in
      let completedTables := S completedTables in
      let* _ := (if progressCallback
                 then report (percent completedTables totalTables)
                 else Eff.ret tt) in
      migrateTablesIncremental this rest totalTables completedTables progressCallback
  end.

(** [migrateDataIncremental]. *)
Definition migrateDataIncremental (this : DataMigrator)
  (schema : SchemaDefinition) (progressCallback : bool) : Eff.M World unit :=
  migrateTablesIncremental this (tables schema) (length (tables schema)) 0
    progressCallback.

End WithRuntime.

Record Mismatch : Type := {
  mm_table : string;
  sourceCount : nat;
  targetCount : nat;
}.

Record IntegrityReport : Type := {
  isValid : bool;
  mismatches : list Mismatch;
}.

(** The [for] loop of [validateDataIntegrity], with the list built so far. *)
Fixpoint collectMismatches (todo : list TableDefinition) (acc : list Mismatch)
  : Eff.M World (list Mismatch) :=
  match todo with
  | [] => Eff.ret acc
  | table :: rest =>
      let* sourceCount := on_source (getCount (tbl_name table)) in
      let* targetCount := on_target (getCount (tbl_name table)) in
      if decide (sourceCount ≠ targetCount)
      then collectMismatches rest
             (acc ++ [ {| mm_table := tbl_name table; sourceCount := sourceCount;
                          targetCount := targetCount |} ])
      else collectMismatches rest acc
  end.

(** [validateDataIntegrity(sourceAdapter, targetAdapter, schema)]. *)
Definition validateDataIntegrity (schema : SchemaDefinition)
  : Eff.M World IntegrityReport :=
  let* mismatches := collectMismatches (tables schema) [] in
  Eff.ret {| isValid := bool_decide (length mismatches = 0%nat);
             mismatches := mismatches |}.

End DataMigrator.

(** ** SchemaEvolution *)

Module SchemaEvolution.

(** [columnsDiffer(current, target)]. *)
Definition columnsDiffer (current target : ColumnDefinition) : bool :=
  negb (String.eqb (col_type current) (col_type target))
  || negb (Bool.eqb (nullable current) (nullable target))
  || negb (strict_equal (defaultValue current) (defaultValue target)).

Record TableChanges : Type := {
  addColumns : list ColumnDefinition;
  modifyColumns : list ColumnDefinition;
  dropColumns : list ColumnDefinition;
}.

Definition columnMap (table : TableDefinition) : Map.t ColumnDefinition :=
  Map.of_entries ((fun col => (col_name col, col)) <$> columns table).

(** The first loop of [calculateTableChanges], over the target's columns. *)
Fixpoint scanTarget (currentColumns : Map.t ColumnDefinition)
  (todo : list (string * ColumnDefinition))
  (addColumns modifyColumns : list ColumnDefinition)
  : list ColumnDefinition * list ColumnDefinition :=
  match todo with
  | [] => (addColumns, modifyColumns)
  | (name, targetCol) :: rest =>
      match Map.get name currentColumns with
      | None => scanTarget currentColumns rest (addColumns ++ [targetCol]) modifyColumns
      | Some currentCol =>
          if columnsDiffer currentCol targetCol
          then scanTarget currentColumns rest addColumns (modifyColumns ++ [targetCol])
          else scanTarget currentColumns rest addColumns modifyColumns
      end
  end.

(** The second loop, over the current columns. *)
Fixpoint scanCurrent (targetColumns : Map.t ColumnDefinition)
  (todo : list (string * ColumnDefinition)) (dropColumns : list ColumnDefinition)
  : list ColumnDefinition :=
  match todo with
  | [] => dropColumns
  | (name, currentCol) :: rest =>
      if Map.has name targetColumns
      then scanCurrent targetColumns rest dropColumns
      else scanCurrent targetColumns rest (dropColumns ++ [currentCol])
  end.

(** [calculateTableChanges(current, target)]. *)
Definition calculateTableChanges (current target : TableDefinition) : TableChanges :=
  let currentColumns := columnMap current in
  let targetColumns := columnMap target in
  let '(addColumns, modifyColumns) := scanTarget currentColumns targetColumns [] [] in
  {| addColumns := addColumns;
     modifyColumns := modifyColumns;
     dropColumns := scanCurrent targetColumns currentColumns [] |}.

(** What the statements of [addColumns], [modifyColumns] and [dropColumns] do
    to the columns of the table they alter. *)

(** ALTER TABLE t ADD COLUMN c ... *)
Definition alter_add (cols : list ColumnDefinition) (c : ColumnDefinition)
  : list ColumnDefinition := cols ++ [c].

(** ALTER COLUMN c TYPE ..., then SET NOT NULL unless [c] is nullable, then
    SET DEFAULT unless [c] has no default. *)
Definition alter_modify (cols : list ColumnDefinition) (c : ColumnDefinition)
  : list ColumnDefinition :=
  (fun old =>
     if String.eqb (col_name old) (col_name c) then
       {| col_name := col_name old;
          col_type := col_type c;
          nullable := if nullable c then nullable old else false;
          defaultValue :=
            if strict_equal (defaultValue c) AUndefined
            then defaultValue old else defaultValue c |}
     else old) <$> cols.

(** ALTER TABLE t DROP COLUMN c *)
Definition alter_drop (cols : list ColumnDefinition) (c : ColumnDefinition)
  : list ColumnDefinition :=
  filter (fun old => col_name old ≠ col_name c) cols.

(** The order of [evolveExistingTable]: adds, then modifies, then drops. *)
Definition applyChanges (cols : list ColumnDefinition) (changes : TableChanges)
  : list ColumnDefinition :=
  let cols := fold_left alter_add (addColumns changes) cols in
  let cols := fold_left alter_modify (modifyColumns changes) cols in
  fold_left alter_drop (dropColumns changes) cols.

Definition names (cols : list ColumnDefinition) : list string := col_name <$> cols.

End SchemaEvolution.

(** ** ZeroDowntimeManager: the cutover protocol *)

Module ZeroDowntimeManager.

Record ReplicationStream : Type := {
  sourceTable : string;
  shadowTable : string;
  lastSyncTime : Z;
  isActive : bool;
}.

(** An [emit] call: the event and the error passed with it, if any. *)
Record Emitted : Type := {
  event : string;
  payload : option Thrown;
}.

(** The manager: its two registries, the events it has emitted, and for each
    event the exception a registered listener throws, if one does. *)
Record ZeroDowntimeManager : Type := {
  shadowTables : Map.t string;
  replicationStreams : Map.t ReplicationStream;
  emitted : list Emitted;
  listeners : string -> option Thrown;
}.

(** The manager together with the backends it works on. *)
Record State : Type := {
  this : ZeroDowntimeManager;
  world : World;
}.

Definition in_world {A} (m : Eff.M World A) : Eff.M State A :=
  Eff.zoom world (fun w s => {| this := this s; world := w |}) m.

Definition with_this (f : ZeroDowntimeManager -> ZeroDowntimeManager) : Eff.M State unit :=
  Eff.modify (fun s => {| this := f (this s); world := world s |}).

(** [this.emit(event, payload)]: the listeners run at once, and what one of
    them throws comes out of [emit]. *)
Definition emit (name : string) (error : option Thrown) : Eff.M State unit :=
  let* _ := with_this (fun z =>
              {| shadowTables := shadowTables z;
                 replicationStreams := replicationStreams z;
                 emitted := emitted z ++ [ {| event := name; payload := error |} ];
                 listeners := listeners z |}) in
  let* thrown := Eff.gets (fun s => listeners (this s) name) in
  match thrown with
  | Some e => Eff.throw e
  | None => Eff.ret tt
  end.

Definition validation_failed (sourceTable : string) (sourceCount shadowCount : nat)
  : Thrown :=
  Error ("Data validation failed for " +:+ sourceTable +:+ ": source=" +:+
         pretty sourceCount +:+ ", shadow=" +:+ pretty shadowCount).

(** [validateShadowData(sourceAdapter, targetAdapter)]. *)
Definition validateShadowData : Eff.M State unit :=
  let* entries := Eff.gets (fun s => shadowTables (this s)) in
  Eff.for_of entries (fun entry =>
    let '(sourceTable, shadowTable) := entry in
    let* sourceCount := in_world (on_source (getCount sourceTable)) in
    let* shadowCount := in_world (on_target (getCount shadowTable)) in
    if decide (sourceCount ≠ shadowCount)
    then Eff.throw (validation_failed sourceTable sourceCount shadowCount)
    else Eff.ret tt).

(** [enableMaintenanceMode(adapter)], on the source; a failure is only logged. *)
Definition enableMaintenanceMode : Eff.M State unit :=
  Eff.try_catch
    (let* _ := in_world (on_source (executeQuery EnableMaintenance)) in Eff.ret tt)
    (fun _ => Eff.ret tt).

(** [disableMaintenanceMode(adapter)], on the source; a failure is only logged. *)
Definition disableMaintenanceMode : Eff.M State unit :=
  Eff.try_catch
    (let* _ := in_world (on_source (executeQuery DisableMaintenance)) in Eff.ret tt)
    (fun _ => Eff.ret tt).

(** [getChangesSince(adapter, tableName, since)], on the source. *)
Definition getChangesSince (tableName : string) (since : Z) : Eff.M State (list Row) :=
  Eff.try_catch
    (in_world (on_source (executeQuery (SelectSince tableName Dollar (Some since) None))))
    (fun _ => in_world (on_source (executeQuery (SelectLimit tableName 1000)))).

Definition deactivate (stream : ReplicationStream) : ReplicationStream :=
  {| sourceTable := sourceTable stream; shadowTable := shadowTable stream;
     lastSyncTime := lastSyncTime stream; isActive := false |}.

(** [finalSync(sourceAdapter, targetAdapter)]. *)
Definition finalSync : Eff.M State unit :=
  let* entries := Eff.gets (fun s => shadowTables (this s)) in
  Eff.for_of entries (fun entry =>
    let '(sourceTable, shadowTable) := entry in
    let* replicationStream :=
      Eff.gets (fun s => Map.get sourceTable (replicationStreams (this s))) in
    let* _ :=
      match replicationStream with
      | Some stream =>
          with_this (fun z =>
            {| shadowTables := shadowTables z;
               replicationStreams :=
                 Map.set sourceTable (deactivate stream) (replicationStreams z);
               emitted := emitted z;
               listeners := listeners z |})
      | None => Eff.ret tt
      end in
    let* finalChanges :=
      getChangesSince sourceTable
        (from_option lastSyncTime 0 replicationStream) in
    if decide (0 < length finalChanges)%nat
    then in_world (on_target (insertData shadowTable finalChanges))
    else Eff.ret tt).

Section WithClock.
Context (clock : Clock).

(** [`${originalTable}_backup_${Date.now()}`] *)
Definition backupName (originalTable : string) : Eff.M State string :=
  let* now := in_world (Date_now clock) in
  Eff.ret (originalTable +:+ "_backup_" +:+ pretty now).

Definition alterTableRename (table newName : string) : Eff.M State unit :=
  let* _ := in_world (on_target (executeQuery (AlterTableRename table newName))) in
  Eff.ret tt.

(** [renameTables(targetAdapter)]. *)
Definition renameTables : Eff.M State unit :=
  let* _ := in_world (on_target beginTransaction) in
  Eff.try_catch
    (let* entries := Eff.gets (fun s => shadowTables (this s)) in
     let* _ := Eff.for_of entries (fun entry =>
       let '(originalTable, shadowTable) := entry in
       let* backupTable := backupName originalTable in
       let* _ := alterTableRename originalTable backupTable in
       alterTableRename shadowTable originalTable) in
     in_world (on_target commit))
    (fun error =>
       let* _ := in_world (on_target rollback) in
       Eff.throw error).

(** [updateApplicationConnections(targetAdapter)]. *)
Definition updateApplicationConnections : Eff.M State unit :=
  emit "connectionsUpdated" None.

(** [rollbackCutover(sourceAdapter, targetAdapter)]. *)
Definition rollbackCutover : Eff.M State unit :=
  Eff.try_catch
    (let* _ := in_world (on_target beginTransaction) in
     let* entries := Eff.gets (fun s => shadowTables (this s)) in
     let* _ := Eff.for_of entries (fun entry =>
       let '(originalTable, shadowTable) := entry in
       let* backupTable := backupName originalTable in
       let* _ := alterTableRename originalTable shadowTable in
       alterTableRename backupTable originalTable) in
     let* _ := in_world (on_target commit) in
     disableMaintenanceMode)
    (fun error => in_world (on_target rollback)).

(** [cutover(sourceAdapter, targetAdapter)]. *)
Definition cutover : Eff.M State unit :=
  let* _ := emit "cutoverStarted" None in
  Eff.try_catch
    (let* _ := validateShadowData in
     let* _ := enableMaintenanceMode in
     let* _ := finalSync in
     let* _ := renameTables in
     let* _ := updateApplicationConnections in
     let* _ := disableMaintenanceMode in
     emit "cutoverCompleted" None)
    (fun error =>
       let* _ := rollbackCutover in
       let* _ := emit "cutoverFailed" (Some error) in
       Eff.throw error).

End WithClock.

End ZeroDowntimeManager.

(** ** MigrationEngine: the job state machine *)

Module MigrationEngine.

(** An [emit] call: the event and the job as it was at that moment. *)
Record Emitted : Type := {
  event : string;
  job : MigrationJob;
}.

(** The calls the engine makes on its collaborators, as computations on the
    backends: the adapter factory with [connect], SchemaEvolution,
    DataMigrator (whose progress callback shows in [reported]) and
    ZeroDowntimeManager. *)
Record Collaborators : Type := {
  connect : DatabaseConfig -> Eff.M World unit;
  migrateSchema : SchemaDefinition -> Eff.M World unit;
  migrateData : SchemaDefinition -> Eff.M World unit;
  migrateDataIncremental : SchemaDefinition -> Eff.M World unit;
  setupShadowWrites : Eff.M World unit;
  cutover : Eff.M World unit;
  rollbackSchema : SchemaDefinition -> Eff.M World unit;
  rollbackData : SchemaDefinition -> Eff.M World unit;
}.

Record MigrationEngine : Type := {
  jobs : Map.t MigrationJob;
  adapters : list string;
  emitted : list Emitted;
  world : World;
}.

Definition new (w : World) : MigrationEngine :=
  {| jobs := []; adapters := []; emitted := []; world := w |}.

Definition in_world {A} (m : Eff.M World A) : Eff.M MigrationEngine A :=
  Eff.zoom world
    (fun w e => {| jobs := jobs e; adapters := adapters e; emitted := emitted e;
                   world := w |}) m.

(** Field updates of a job object. *)
Definition set_status (s : JobStatus) (j : MigrationJob) : MigrationJob :=
  {| id := id j; status := s; sourceDatabase := sourceDatabase j;
     targetDatabase := targetDatabase j; strategy := strategy j; schema := schema j;
     progress := progress j; startTime := startTime j; endTime := endTime j;
     job_error := job_error j; logs := logs j |}.

Definition set_progress (p : Q) (j : MigrationJob) : MigrationJob :=
  {| id := id j; status := status j; sourceDatabase := sourceDatabase j;
     targetDatabase := targetDatabase j; strategy := strategy j; schema := schema j;
     progress := p; startTime := startTime j; endTime := endTime j;
     job_error := job_error j; logs := logs j |}.

Definition set_startTime (t : Z) (j : MigrationJob) : MigrationJob :=
  {| id := id j; status := status j; sourceDatabase := sourceDatabase j;
     targetDatabase := targetDatabase j; strategy := strategy j; schema := schema j;
     progress := progress j; startTime := Some t; endTime := endTime j;
     job_error := job_error j; logs := logs j |}.

Definition set_endTime (t : Z) (j : MigrationJob) : MigrationJob :=
  {| id := id j; status := status j; sourceDatabase := sourceDatabase j;
     targetDatabase := targetDatabase j; strategy := strategy j; schema := schema j;
     progress := progress j; startTime := startTime j; endTime := Some t;
     job_error := job_error j; logs := logs j |}.

Definition set_error (m : string) (j : MigrationJob) : MigrationJob :=
  {| id := id j; status := status j; sourceDatabase := sourceDatabase j;
     targetDatabase := targetDatabase j; strategy := strategy j; schema := schema j;
     progress := progress j; startTime := startTime j; endTime := endTime j;
     job_error := Some m; logs := logs j |}.

Definition push_log (l : MigrationLog) (j : MigrationJob) : MigrationJob :=
  {| id := id j; status := status j; sourceDatabase := sourceDatabase j;
     targetDatabase := targetDatabase j; strategy := strategy j; schema := schema j;
     progress := progress j; startTime := startTime j; endTime := endTime j;
     job_error := job_error j; logs := logs j ++ [l] |}.

(** A write to the job object registered under [jobId]. *)
Definition mutate (jobId : string) (f : MigrationJob -> MigrationJob)
  : Eff.M MigrationEngine unit :=
  Eff.modify (fun e =>
    {| jobs := match Map.get jobId (jobs e) with
               | Some j => Map.set jobId (f j) (jobs e)
               | None => jobs e
               end;
       adapters := adapters e; emitted := emitted e; world := world e |}).

(** [this.emit(event, job)]. *)
Definition emit (name jobId : string) : Eff.M MigrationEngine unit :=
  Eff.modify (fun e =>
    {| jobs := jobs e; adapters := adapters e;
       emitted := match Map.get jobId (jobs e) with
                  | Some j => emitted e ++ [ {| event := name; job := j |} ]
                  | None => emitted e
                  end;
       world := world e |}).

Definition type_name (t : DatabaseType) : string :=
  match t with
  | postgresql => "postgresql"
  | mysql => "mysql"
  | mongodb => "mongodb"
  end.

Definition level_message (l : LogLevel) (now : Z) (m : string) : MigrationLog :=
  {| timestamp := now; level := l; message := m |}.

Section WithCollaborators.
Context (clock : Clock) (co : Collaborators).

(** [job.logs.push({ timestamp: new Date(), level, message })]. *)
Definition log (jobId : string) (l : LogLevel) (m : string)
  : Eff.M MigrationEngine unit :=
  let* now := in_world (Date_now clock) in
  mutate jobId (push_log (level_message l now m)).

(** [createMigration]; [jobId] is what [uuidv4()] returns. *)
Definition createMigration (jobId : string) (sourceConfig targetConfig : DatabaseConfig)
  (schema : SchemaDefinition) (strategy : MigrationStrategy)
  : Eff.M MigrationEngine MigrationJob :=
  let job :=
    {| id := jobId; status := pending; sourceDatabase := sourceConfig;
       targetDatabase := targetConfig; strategy := strategy; schema := schema;
       progress := 0; startTime := None; endTime := None; job_error := None;
       logs := [] |} in
  let* _ := Eff.modify (fun e =>
    {| jobs := Map.set jobId job (jobs e); adapters := adapters e;
       emitted := emitted e; world := world e |}) in
  let* _ := emit "jobCreated" jobId in
  Eff.ret job.

(** [getAdapter(config)]. *)
Definition getAdapter (config : DatabaseConfig) : Eff.M MigrationEngine unit :=
  let key := type_name (db_type config) +:+ "://" +:+ host config +:+ ":" +:+
             pretty (port config) +:+ "/" +:+ database config in
  let* known := Eff.gets (fun e => bool_decide (key ∈ adapters e)) in
  if known then Eff.ret tt else
  let* _ := in_world (connect co config) in
  Eff.modify (fun e =>
    {| jobs := jobs e; adapters := adapters e ++ [key]; emitted := emitted e;
       world := world e |}).

(** A DataMigrator call with its progress callback: each value reported
    during the call sets the job's progress and emits jobProgress. *)
Definition with_progress (jobId : string) (scale : Q -> Q) (m : Eff.M World unit)
  : Eff.M MigrationEngine unit :=
  fun e =>
    let before := length (reported (world e)) in
    let '(r, e1) := in_world m e in
    let callbacks :=
      Eff.for_of (drop before (reported (world e1))) (fun p =>
        let* _ := mutate jobId (set_progress (scale p)) in
        emit "jobProgress" jobId) in
    (r, snd (callbacks e1)).

(** [validateMigration(sourceAdapter, targetAdapter, schema)]. *)
Definition validateMigration (schema : SchemaDefinition) : Eff.M World unit :=
  Eff.for_of (tables schema) (fun table =>
    let* sourceCount := on_source (getCount (tbl_name table)) in
    let* targetCount := on_target (getCount (tbl_name table)) in
    if decide (sourceCount ≠ targetCount)
    then Eff.throw (Error ("Data validation failed for table " +:+ tbl_name table +:+
                           ": source=" +:+ pretty sourceCount +:+
                           ", target=" +:+ pretty targetCount))
    else Eff.ret tt).

(** [executeWithDowntime(job, sourceAdapter, targetAdapter)]. *)
Definition executeWithDowntime (j : MigrationJob) : Eff.M MigrationEngine unit :=
  let* _ := log (id j) warn "Executing migration with planned downtime" in
  let* _ := in_world (migrateSchema co (schema j)) in
  let* _ := mutate (id j) (set_progress 30) in
  let* _ := with_progress (id j) (fun p => (30 + p * (6 # 10))%Q)
              (migrateData co (schema j)) in
  let* _ := mutate (id j) (set_progress 90) in
  let* _ := in_world (validateMigration (schema j)) in
  mutate (id j) (set_progress 100).

(** [executeZeroDowntime(job, sourceAdapter, targetAdapter)]. *)
Definition executeZeroDowntime (j : MigrationJob) : Eff.M MigrationEngine unit :=
  let* _ := log (id j) info "Executing zero-downtime migration" in
  let* _ := in_world (setupShadowWrites co) in
  let* _ := mutate (id j) (set_progress 10) in
  let* _ := in_world (migrateSchema co (schema j)) in
  let* _ := mutate (id j) (set_progress 30) in
  let* _ := with_progress (id j) (fun p => (30 + p * (5 # 10))%Q)
              (migrateDataIncremental co (schema j)) in
  let* _ := mutate (id j) (set_progress 80) in
  let* _ := in_world (cutover co) in
  let* _ := mutate (id j) (set_progress 95) in
  let* _ := in_world (validateMigration (schema j)) in
  mutate (id j) (set_progress 100).

(** [executeMigration(job)]. *)
Definition executeMigration (j : MigrationJob) : Eff.M MigrationEngine unit :=
  let* _ := getAdapter (sourceDatabase j) in
  let* _ := getAdapter (targetDatabase j) in
  let* _ := log (id j) info "Initializing database connections" in
  let* _ := (if downtime (strategy j)
             then executeWithDowntime j
             else executeZeroDowntime j) in
  let* _ := mutate (id j) (set_status completed) in
  let* now := in_world (Date_now clock) in
  let* _ := mutate (id j) (set_endTime now) in
  let* _ := mutate (id j) (set_progress 100) in
  let* _ := log (id j) info "Migration completed successfully" in
  emit "jobCompleted" (id j).

(** [error instanceof Error ? error.message : fallback]. *)
Definition message_of (e : Thrown) (fallback : string) : string :=
  match e with
  | Error m => m
  | Other _ => fallback
  end.

(** [startMigration(jobId)]. *)
Definition startMigration (jobId : string) : Eff.M MigrationEngine unit :=
  let* found := Eff.gets (fun e => Map.get jobId (jobs e)) in
  match found with
  | None => Eff.throw (Error ("Migration job " +:+ jobId +:+ " not found"))
  | Some j =>
      let* _ := mutate jobId (set_status running) in
      let* now := in_world (Date_now clock) in
      let* _ := mutate jobId (set_startTime now) in
      let* _ := log jobId info
                  ("Starting migration with strategy: " +:+ strategy_name (strategy j)) in
      let* _ := emit "jobStarted" jobId in
      Eff.try_catch (executeMigration j)
        (fun error =>
           let* _ := mutate jobId (set_status failed) in
           let m := message_of error "Unknown error" in
           let* _ := mutate jobId (set_error m) in
           let* _ := log jobId types.error ("Migration failed: " +:+ m) in
           let* _ := emit "jobFailed" jobId in
           Eff.throw error)
  end.

(** [pauseMigration(jobId)]. *)
Definition pauseMigration (jobId : string) : Eff.M MigrationEngine unit :=
  let* found := Eff.gets (fun e => Map.get jobId (jobs e)) in
  match found with
  | Some j =>
      match status j with
      | running =>
          let* _ := mutate jobId (set_status paused) in
          let* _ := log jobId info "Migration paused" in
          emit "jobPaused" jobId
      | _ => Eff.throw (Error ("Cannot pause job " +:+ jobId))
      end
  | None => Eff.throw (Error ("Cannot pause job " +:+ jobId))
  end.

(** [resumeMigration(jobId)]. *)
Definition resumeMigration (jobId : string) : Eff.M MigrationEngine unit :=
  let* found := Eff.gets (fun e => Map.get jobId (jobs e)) in
  match found with
  | Some j =>
      match status j with
      | paused =>
          let* _ := mutate jobId (set_status running) in
          let* _ := log jobId info "Migration resumed" in
          emit "jobResumed" jobId
      | _ => Eff.throw (Error ("Cannot resume job " +:+ jobId))
      end
  | None => Eff.throw (Error ("Cannot resume job " +:+ jobId))
  end.

(** [rollbackMigration(jobId)]. *)
Definition rollbackMigration (jobId : string) : Eff.M MigrationEngine unit :=
  let* found := Eff.gets (fun e => Map.get jobId (jobs e)) in
  match found with
  | Some j =>
      if negb (rollbackSupported (strategy j))
      then Eff.throw (Error ("Rollback not supported for job " +:+ jobId))
      else
        let* _ := mutate jobId (set_status running) in
        let* _ := log jobId warn "Starting rollback" in
        Eff.try_catch
          (let* _ := getAdapter (targetDatabase j) in
           let* _ := getAdapter (sourceDatabase j) in
           let* _ := in_world (rollbackSchema co (schema j)) in
           let* _ := in_world (rollbackData co (schema j)) in
           let* _ := mutate jobId (set_status completed) in
           let* _ := log jobId info "Rollback completed successfully" in
           emit "jobRollback" jobId)
          (fun error =>
             let* _ := mutate jobId (set_status failed) in
             let* _ := mutate jobId (set_error (message_of error "Rollback failed")) in
             let* _ := emit "jobFailed" jobId in
             Eff.throw error)
  | None => Eff.throw (Error ("Rollback not supported for job " +:+ jobId))
  end.

(** [getJob(jobId)]. *)
Definition getJob (jobId : string) (e : MigrationEngine) : option MigrationJob :=
  Map.get jobId (jobs e).

End WithCollaborators.

End MigrationEngine.

(** ** Vocabulary of the statements *)

(** An engine computation that only ever appends to the emitted events. *)
Definition appends {A} (m : Eff.M MigrationEngine.MigrationEngine A) : Prop :=
  forall e, MigrationEngine.emitted e
            `prefix_of` MigrationEngine.emitted (snd (m e)).

(** What [transformData] stores for one column of one row, when the clock
    has been read [n] times. *)
Definition transformCell (rt : Builtins) (clock : Clock) (row : Row)
  (column : ColumnDefinition) (n : nat) : Value :=
  let value := get row (col_name column) in
  if negb (nullish value)
  then fst (DataMigrator.transformValue rt clock value (col_type column) n)
  else value.

(** The cell [transformValue] gives for a value bound for a uuid column. *)
Definition uuid_cell (rt : Builtins) (v : Value) : Value :=
  if nullish v then v
  else if DataMigrator.test DataMigrator.uuidRegex (String_ rt v)
       then VStr (String_ rt v) else VNull.

(** A value that is present and does not match the UUID pattern. *)
Definition invalid_uuid (rt : Builtins) (v : Value) : bool :=
  negb (nullish v)
  && negb (DataMigrator.test DataMigrator.uuidRegex (String_ rt v)).

Definition is_null (v : Value) : bool :=
  match v with VNull => true | _ => false end.

(** A cell that held a value before the transformation and is null after. *)
Definition nulled (name : string) (before_after : Row * Row) : bool :=
  negb (nullish (get (fst before_after) name))
  && is_null (get (snd before_after) name).

Definition count_if {A} (p : A -> bool) (l : list A) : nat :=
  length (List.filter p l).

(** The rows of a table, none if the backend has no such table. *)
Definition rows_of (b : Backend) (table : string) : list Row :=
  default [] (store b !! table).

(** The entries of the target's map that [calculateTableChanges] adds, and
    those it modifies; the entries of the current map that it drops. *)
Definition is_add (currentColumns : Map.t ColumnDefinition)
  (e : string * ColumnDefinition) : bool :=
  negb (Map.has (fst e) currentColumns).

Definition is_modify (currentColumns : Map.t ColumnDefinition)
  (e : string * ColumnDefinition) : bool :=
  match Map.get (fst e) currentColumns with
  | Some currentCol => SchemaEvolution.columnsDiffer currentCol (snd e)
  | None => false
  end.

(** Two defaults are strictly equal when they are the same primitive value,
    NaN excepted (it equals nothing, itself included), or one and the same
    object: two objects of equal content are not strictly equal. *)
Inductive strictly_equal : Any -> Any -> Prop :=
| equal_undefined : strictly_equal AUndefined AUndefined
| equal_null : strictly_equal ANull ANull
| equal_bool b : strictly_equal (ABool b) (ABool b)
| equal_finite p q : Qeq p q -> strictly_equal (ANum (Fin p)) (ANum (Fin q))
| equal_infinity sign : strictly_equal (ANum (Infinity sign)) (ANum (Infinity sign))
| equal_string s : strictly_equal (AStr s) (AStr s)
| equal_object identity : strictly_equal (AObject identity) (AObject identity).

(** The columns [c] of the current table and [t] of the target differ: in
    type, in nullability, or by defaults that are not strictly equal. *)
Definition differ (c t : ColumnDefinition) : Prop :=
  col_type c <> col_type t \/ nullable c <> nullable t
  \/ ~ strictly_equal (defaultValue c) (defaultValue t).

(** A column name that both tables have, with columns that do not differ. *)
Definition unchanged (current target : TableDefinition) (name : string) : Prop :=
  exists c t,
    Map.get name (SchemaEvolution.columnMap current) = Some c
    /\ Map.get name (SchemaEvolution.columnMap target) = Some t
    /\ ~ differ c t.

(** The row [transformData] makes of a source row, at some reading of the
    clock. *)
Definition transformed (rt : Builtins) (clock : Clock) (table : TableDefinition)
  (row r : Row) : Prop :=
  exists n, r = fst (DataMigrator.transformRow rt clock table row n).

(** The column names a transformed row can own: all but [__proto__]. *)
Definition own_names (table : TableDefinition) : list string :=
  filter (fun name => name <> "__proto__") (col_name <$> columns table).

Definition count_rows (b : Backend) (table : string) : nat :=
  length (rows_of b table).

(** [getCount] answers for this table: always on MongoDB, and on a SQL
    backend when the table exists. *)
Definition countable (b : Backend) (table : string) : Prop :=
  kind b = mongodb \/ is_Some (store b !! table).

(** Two states of a backend with the same adapter class and the same tables. *)
Definition same_tables (b b' : Backend) : Prop :=
  kind b' = kind b /\ store b' = store b.

(** The entry [validateDataIntegrity] pushes for a table. *)
Definition mismatch_of (w : World) (table : TableDefinition) : DataMigrator.Mismatch :=
  {| DataMigrator.mm_table := tbl_name table;
     DataMigrator.sourceCount := count_rows (source w) (tbl_name table);
     DataMigrator.targetCount := count_rows (target w) (tbl_name table) |}.

Definition counts_differ (w : World) (table : TableDefinition) : Prop :=
  count_rows (source w) (tbl_name table) <> count_rows (target w) (tbl_name table).

(** Ceiling of [n / b]. *)
Definition ceil_div (n b : nat) : nat := ((n + b - 1) / b)%nat.

(** The page sizes of a copy of [n] rows in batches of [b] that are followed
    by an insert: full pages, then the rest if there is one. *)
Definition page_sizes (n b : nat) : list nat :=
  replicate (n / b) b ++ (if decide (n mod b = 0)%nat then [] else [n mod b]%nat).

(** The [selectData] calls of a copy that still has [n] rows to read from
    [offset] on. *)
Definition fetches (table : string) (b offset n : nat) : list Call :=
  (fun i => selectData_ table b (offset + i * b)) <$> seq 0 (n / b + 1).

(** The calls a full copy of one table makes, from the row counts in [w]. *)
Definition table_fetches (w : World) (b : nat) (t : TableDefinition) : list Call :=
  fetches (tbl_name t) b 0 (count_rows (source w) (tbl_name t)).

Definition table_inserts (w : World) (b : nat) (t : TableDefinition) : list Call :=
  insertData_ (tbl_name t) <$> page_sizes (count_rows (source w) (tbl_name t)) b.

(** The manager after one more [emit]. *)
Definition emitting (name : string) (error : option Thrown)
  (s : ZeroDowntimeManager.State) : ZeroDowntimeManager.State :=
  {| ZeroDowntimeManager.this :=
       {| ZeroDowntimeManager.shadowTables :=
            ZeroDowntimeManager.shadowTables (ZeroDowntimeManager.this s);
          ZeroDowntimeManager.replicationStreams :=
            ZeroDowntimeManager.replicationStreams (ZeroDowntimeManager.this s);
          ZeroDowntimeManager.emitted :=
            ZeroDowntimeManager.emitted (ZeroDowntimeManager.this s)
            ++ [ {| ZeroDowntimeManager.event := name;
                    ZeroDowntimeManager.payload := error |} ];
          ZeroDowntimeManager.listeners :=
            ZeroDowntimeManager.listeners (ZeroDowntimeManager.this s) |};
     ZeroDowntimeManager.world := ZeroDowntimeManager.world s |}.

(** The two row counts of a shadow-table mapping differ. *)
Definition shadow_differs (w : World) (entry : string * string) : Prop :=
  count_rows (source w) (fst entry) <> count_rows (target w) (snd entry).

(** The watermark [getWatermark] computes from the rows of the target table. *)
Definition watermark_of (rows : list Row) : Z :=
  match max_time updated_at rows, max_time created_at rows with
  | Some u, Some c => Z.max u c
  | Some u, None => u
  | None, Some c => c
  | None, None => 0
  end.





(** The source rows an incremental run still has to transfer. *)
Definition pending (w : World) (table : string) : list Row :=
  filter (fun r => Is_true (changed_since (watermark_of (rows_of (target w) table)) r))
    (rows_of (source w) table).

(** ** Sample data for the closed examples *)

Module Sample.

(** A runtime for the examples: numbers print and parse as decimal integers,
    nothing parses as a date or as JSON. *)
Definition runtime : Builtins :=
  {| Number_toString := fun n =>
       match n with
       | Fin q => pretty (Qfloor q)
       | Infinity false => "Infinity"
       | Infinity true => "-Infinity"
       | NaN => "NaN"
       end;
     Date_toString := fun t => "Invalid Date";
     Object_toString := fun _ => "[object Object]";
     Function_toString := fun f => "function " +:+ f +:+ "() { [native code] }";
     String_toNumber := fun _ => NaN;
     Date_parse := fun _ => None;
     JSON_parse := fun _ => None |}.

Definition clock : Clock := fun n => 1000 + Z.of_nat n.

Definition column (name type : string) : ColumnDefinition :=
  {| col_name := name; col_type := type; nullable := false;
     defaultValue := AUndefined |}.

Definition backend (k : DatabaseType) (st : gmap string (list Row)) : Backend :=
  {| kind := k; store := st; undo := None; journal := [] |}.

Definition world (src tgt : Backend) : World :=
  {| source := src; target := tgt; ticks := 0; reported := [] |}.

Definition config (k : DatabaseType) (name : string) : DatabaseConfig :=
  {| db_type := k; host := "localhost"; port := 5432; database := name;
     username := "user"; password := "secret" |}.

Definition strategy (down : bool) : MigrationStrategy :=
  {| strategy_id := "s1"; strategy_name := "offline copy"; description := "";
     estimatedDuration := 60000; riskLevel := low; downtime := down;
     rollbackSupported := false |}.

Definition schema (ts : list TableDefinition) : SchemaDefinition :=
  {| version := "1.0"; tables := ts; indexes := None |}.

(** A table with one nullable uuid column, and a source holding one
    well-formed and one malformed identifier. *)
Definition accounts : TableDefinition :=
  {| tbl_name := "accounts";
     columns := [ {| col_name := "id"; col_type := "uuid"; nullable := true;
                     defaultValue := AUndefined |} ];
     primaryKey := None |}.

Definition good_account : Row :=
  {[ "id" := VStr "123e4567-e89b-42d3-a456-426614174000" ]}.

Definition bad_account : Row := {[ "id" := VStr "not-a-uuid" ]}.




(** A table with a column whose default is NaN. *)
Definition readings : TableDefinition :=
  {| tbl_name := "readings";
     columns := [ column "id" "integer";
                  {| col_name := "value"; col_type := "float"; nullable := true;
                     defaultValue := ANum NaN |} ];
     primaryKey := None |}.

Definition accounts_world : World :=
  world (backend postgresql {[ "accounts" := [good_account; bad_account] ]})
        (backend postgresql {[ "accounts" := [] ]}).

(** The tables of the schema-diff scenario: {id, email} and
    {id, email, phone}. *)
Definition users_v1 : TableDefinition :=
  {| tbl_name := "users";
     columns := [column "id" "integer"; column "email" "string"];
     primaryKey := Some "id" |}.

Definition users_v2 : TableDefinition :=
  {| tbl_name := "users";
     columns := [column "id" "integer"; column "email" "string";
                 column "phone" "string"];
     primaryKey := Some "id" |}.

(** A source with 100 orders and a target that received 99 of them. *)
Definition order (n : nat) : Row := {[ "id" := VNum (num_of_Z (Z.of_nat n)) ]}.

Definition orders : TableDefinition :=
  {| tbl_name := "orders"; columns := [column "id" "integer"]; primaryKey := None |}.

Definition orders_world : World :=
  world (backend postgresql {[ "orders" := order <$> seq 0 100 ]})
        (backend mysql {[ "orders" := order <$> seq 0 99 ]}).

(** Scenario A: users(id int, email string, created_at datetime) with 2,500
    rows in the source and an empty table in the target. *)
Definition users : TableDefinition :=
  {| tbl_name := "users";
     columns := [column "id" "int"; column "email" "string";
                 column "created_at" "datetime"];
     primaryKey := Some "id" |}.

Definition user (n : nat) : Row :=
  {[ "id" := VNum (num_of_Z (Z.of_nat n));
     "email" := VStr "user@example.org";
     "created_at" := VDate (Some (Z.of_nat n)) ]}.

Definition users_world : World :=
  world (backend postgresql {[ "users" := user <$> seq 0 2500 ]})
        (backend mysql {[ "users" := [] ]}).

(** Scenario D: 100 rows in the source table, 99 in its shadow. *)
Definition shadowed_orders : ZeroDowntimeManager.State :=
  {| ZeroDowntimeManager.this :=
       {| ZeroDowntimeManager.shadowTables := [("orders", "orders_shadow")];
          ZeroDowntimeManager.replicationStreams := [];
          ZeroDowntimeManager.emitted := [];
          ZeroDowntimeManager.listeners := fun _ => None |};
     ZeroDowntimeManager.world :=
       world (backend postgresql {[ "orders" := order <$> seq 0 100 ]})
             (backend postgresql
                (<[ "orders" := [] ]> {[ "orders_shadow" := order <$> seq 0 99 ]})) |}.

(** A cutover whose rename succeeds and whose connection switch fails: the
    live table users holds two old rows, its shadow the two migrated rows,
    and the listener of connectionsUpdated throws. *)
Definition live_rows : list Row := [order 1; order 2].
Definition shadow_rows : list Row := [order 10; order 20].

Definition switch_fails (name : string) : option Thrown :=
  if String.eqb name "connectionsUpdated"
  then Some (Error "connection switch failed") else None.

Definition swapping_users : ZeroDowntimeManager.State :=
  {| ZeroDowntimeManager.this :=
       {| ZeroDowntimeManager.shadowTables := [("users", "users_shadow")];
          ZeroDowntimeManager.replicationStreams := [];
          ZeroDowntimeManager.emitted := [];
          ZeroDowntimeManager.listeners := switch_fails |};
     ZeroDowntimeManager.world :=
       world (backend postgresql {[ "users" := shadow_rows ]})
             (backend postgresql
                (<[ "users" := live_rows ]> {[ "users_shadow" := shadow_rows ]})) |}.

(** A cutover whose second pair of renames fails before the commit: the
    target has no live table orders to move aside. *)
Definition half_renamed : ZeroDowntimeManager.State :=
  {| ZeroDowntimeManager.this :=
       {| ZeroDowntimeManager.shadowTables :=
            [("users", "users_shadow"); ("orders", "orders_shadow")];
          ZeroDowntimeManager.replicationStreams := [];
          ZeroDowntimeManager.emitted := [];
          ZeroDowntimeManager.listeners := fun _ => None |};
     ZeroDowntimeManager.world :=
       world (backend postgresql
                (<[ "users" := shadow_rows ]> {[ "orders" := [order 7] ]}))
             (backend postgresql
                (<[ "users" := live_rows ]>
                   (<[ "users_shadow" := shadow_rows ]>
                      {[ "orders_shadow" := [order 7] ]}))) |}.

(** A clock that stands still. *)
Definition frozen_clock : Clock := fun _ => 1000.

(** Two events written at times 10 and 20, to be copied one row at a time. *)
Definition events : TableDefinition :=
  {| tbl_name := "events";
     columns := [column "id" "integer"; column "updated_at" "datetime";
                 column "created_at" "datetime"];
     primaryKey := Some "id" |}.

Definition event_at (t : Z) : Row :=
  {[ "id" := VNum (num_of_Z t);
     "updated_at" := VDate (Some t);
     "created_at" := VDate (Some t) ]}.

Definition events_world : World :=
  world (backend mysql {[ "events" := [event_at 10; event_at 20] ]})
        (backend mysql {[ "events" := [] ]}).


(** The same events behind the PostgreSQL adapter. *)
Definition events_on_postgresql : World :=
  world (backend postgresql {[ "events" := [event_at 10; event_at 20] ]})
        (backend mysql {[ "events" := [] ]}).

(** A definition of the events table that leaves the timestamps out. *)
Definition events_without_times : TableDefinition :=
  {| tbl_name := "events"; columns := [column "id" "integer"]; primaryKey := None |}.

(** Collaborators that all return at once. *)
Definition collaborators : MigrationEngine.Collaborators :=
  {| MigrationEngine.connect := fun _ => Eff.ret tt;
     MigrationEngine.migrateSchema := fun _ => Eff.ret tt;
     MigrationEngine.migrateData := fun _ => Eff.ret tt;
     MigrationEngine.migrateDataIncremental := fun _ => Eff.ret tt;
     MigrationEngine.setupShadowWrites := Eff.ret tt;
     MigrationEngine.cutover := Eff.ret tt;
     MigrationEngine.rollbackSchema := fun _ => Eff.ret tt;
     MigrationEngine.rollbackData := fun _ => Eff.ret tt |}.

(** A job that ran to the end at time 500. *)
Definition finished_job : MigrationJob :=
  {| id := "job-1"; status := completed;
     sourceDatabase := config postgresql "shop";
     targetDatabase := config mysql "shop_v2";
     types.strategy := strategy true; types.schema := schema [];
     progress := 100; startTime := Some 100; endTime := Some 500;
     job_error := None;
     logs := [ {| timestamp := 500; level := info;
                  message := "Migration completed successfully" |} ] |}.

Definition engine (j : MigrationJob) : MigrationEngine.MigrationEngine :=
  {| MigrationEngine.jobs := [(id j, j)];
     MigrationEngine.adapters := [];
     MigrationEngine.emitted := [];
     MigrationEngine.world := world (backend postgresql ∅) (backend mysql ∅) |}.

End Sample.

(** ** Further vocabulary *)

(** An engine computation that removes no job from the registry. *)
Definition keeps_jobs {A} (m : Eff.M MigrationEngine.MigrationEngine A) : Prop :=
  forall e k, is_Some (Map.get k (MigrationEngine.jobs e)) ->
              is_Some (Map.get k (MigrationEngine.jobs (snd (m e)))).

(** The job as [pauseMigration] leaves it when the clock reads [now]. *)
Definition pausedAt (now : Z) (j : MigrationJob) : MigrationJob :=
  MigrationEngine.push_log
    (MigrationEngine.level_message info now "Migration paused")
    (MigrationEngine.set_status paused j).

(** The job as [resumeMigration] leaves it when the clock reads [now]. *)
Definition resumedAt (now : Z) (j : MigrationJob) : MigrationJob :=
  MigrationEngine.push_log
    (MigrationEngine.level_message info now "Migration resumed")
    (MigrationEngine.set_status running j).

(** The key under which [getAdapter] keeps the adapter of a configuration. *)
Definition same_endpoint (c1 c2 : DatabaseConfig) : Prop :=
  db_type c1 = db_type c2 /\ host c1 = host c2 /\ port c1 = port c2
  /\ database c1 = database c2.

(** *** Pre- and postconditions

    [triple P m Q R]: started in a state where [P] holds, [m] returns a value
    and a state related by [Q], or throws an exception and leaves a state
    related by [R]. *)
Definition triple {S A} (P : S -> Prop) (m : Eff.M S A)
  (Q : A -> S -> Prop) (R : Thrown -> S -> Prop) : Prop :=
  forall s, P s ->
    match m s with
    | (Return a, s') => Q a s'
    | (Throw e, s') => R e s'
    end.


(** The job registered under [jobId] has this status. *)
Definition job_status (jobId : string) (e : MigrationEngine.MigrationEngine)
  : option JobStatus :=
  status <$> MigrationEngine.getJob jobId e.

(** A number without a fractional part: an integer or an infinity. *)
Definition whole (n : Num) : Prop :=
  match n with
  | Fin q => exists z, q = inject_Z z
  | Infinity _ => True
  | NaN => False
  end.

(** The type names [transformValue] parses as JSON. *)
Definition json_type (type : string) : bool :=
  DataMigrator.one_of (toLowerCase type) ["json"; "jsonb"].


(** The tables of both backends, without their journals. *)
Definition tables_of (w : World) : gmap string (list Row) * gmap string (list Row) :=
  (store (source w), store (target w)).

(** The statements that only read. *)
Definition reads (q : Sql) : bool :=
  match q with
  | SelectMaxTimestamps _ | SelectSince _ _ _ _ | SelectLimit _ _ => true
  | _ => false
  end.

(** * Properties *)

(** ** The effect combinators *)

Section EffFacts.
Context {S : Type}.

Lemma bind_return {A B} (m : Eff.M S A) (k : A -> Eff.M S B) s a s' :
  m s = (Return a, s') -> Eff.bind m k s = k a s'.
Proof. intros H. unfold Eff.bind. now rewrite H. Qed.

Lemma bind_throw {A B} (m : Eff.M S A) (k : A -> Eff.M S B) s e s' :
  m s = (Throw e, s') -> Eff.bind m k s = (Throw e, s').
Proof. intros H. unfold Eff.bind. now rewrite H. Qed.

Lemma try_catch_return {A} (m : Eff.M S A) h s a s' :
  m s = (Return a, s') -> Eff.try_catch m h s = (Return a, s').
Proof. intros H. unfold Eff.try_catch. now rewrite H. Qed.

Lemma try_catch_throw {A} (m : Eff.M S A) h s e s' :
  m s = (Throw e, s') -> Eff.try_catch m h s = h e s'.
Proof. intros H. unfold Eff.try_catch. now rewrite H. Qed.

End EffFacts.


(** ** Map objects *)

Section MapFacts.
Context {V : Type}.
Implicit Types (m : Map.t V) (k : string) (v : V).

Lemma get_set_eq k v m : Map.get k (Map.set k v m) = Some v.
Proof.
  induction m as [|[k' v'] m IH]; simpl.
  - now rewrite decide_True.
  - destruct (decide (k' = k)) as [->|Hne]; simpl.
    + now rewrite decide_True.
    + now rewrite decide_False.
Qed.

Lemma get_set_ne k k' v m : k <> k' -> Map.get k' (Map.set k v m) = Map.get k' m.
Proof.
  intros Hne. induction m as [|[k0 v0] m IH]; simpl.
  - now rewrite decide_False.
  - destruct (decide (k0 = k)) as [->|Hk]; simpl.
    + now rewrite !decide_False.
    + destruct (decide (k0 = k')); [reflexivity | exact IH].
Qed.

Lemma get_None k m : Map.get k m = None <-> k ∉ Map.keys m.
Proof.
  unfold Map.keys. induction m as [|[k' v'] m IH]; simpl.
  - split; [intros _ H; inversion H | reflexivity].
  - rewrite not_elem_of_cons. destruct (decide (k' = k)) as [->|Hne].
    + split; [discriminate | intros [H _]; now destruct H].
    + rewrite IH. split; [intros H; split; [congruence | exact H] | now intros [_ H]].
Qed.

Lemma get_Some_elem k v m : Map.get k m = Some v -> (k, v) ∈ m.
Proof.
  induction m as [|[k' v'] m IH]; simpl; [discriminate|].
  destruct (decide (k' = k)) as [->|Hne].
  - intros [= ->]. apply list_elem_of_here.
  - intros H. apply list_elem_of_further. now apply IH.
Qed.

Lemma elem_get k v m : NoDup (Map.keys m) -> (k, v) ∈ m -> Map.get k m = Some v.
Proof.
  unfold Map.keys. induction m as [|[k' v'] m IH]; simpl; intros Hnd Hin.
  - inversion Hin.
  - apply NoDup_cons in Hnd as [Hk Hnd]. apply elem_of_cons in Hin as [[= -> ->]|Hin].
    + now rewrite decide_True.
    + destruct (decide (k' = k)) as [->|Hne]; [|now apply IH].
      destruct Hk. apply list_elem_of_fmap. exists (k, v). now split.
Qed.

Lemma keys_set k v m : forall k', k' ∈ Map.keys (Map.set k v m) <-> k' = k \/ k' ∈ Map.keys m.
Proof.
  unfold Map.keys. induction m as [|[k0 v0] m IH]; intros k'; simpl.
  - rewrite list_elem_of_singleton. split; [now left | intros [H|H]; [exact H | inversion H]].
  - destruct (decide (k0 = k)) as [->|Hne]; simpl; rewrite !elem_of_cons.
    + tauto.
    + rewrite IH. tauto.
Qed.

Lemma NoDup_keys_set k v m : NoDup (Map.keys m) -> NoDup (Map.keys (Map.set k v m)).
Proof.
  unfold Map.keys. induction m as [|[k0 v0] m IH]; simpl; intros Hnd.
  - apply NoDup_singleton.
  - apply NoDup_cons in Hnd as [Hk Hnd].
    destruct (decide (k0 = k)) as [->|Hne]; simpl; apply NoDup_cons.
    + now split.
    + split; [|now apply IH].
      intros Hin. apply (keys_set k v m k0) in Hin as [Heq|Hin]; [now destruct Hne | now destruct Hk].
Qed.

Lemma fold_set_keys (l : list (string * V)) : forall m k,
  k ∈ Map.keys (fold_left (fun m e => Map.set (fst e) (snd e) m) l m)
  <-> k ∈ Map.keys m \/ k ∈ (fst <$> l).
Proof.
  induction l as [|[k0 v0] l IH]; intros m k; simpl.
  - split; [now left | intros [H|H]; [exact H | inversion H]].
  - rewrite IH, keys_set, elem_of_cons. tauto.
Qed.

Lemma fold_set_NoDup (l : list (string * V)) : forall m,
  NoDup (Map.keys m) ->
  NoDup (Map.keys (fold_left (fun m e => Map.set (fst e) (snd e) m) l m)).
Proof.
  induction l as [|[k0 v0] l IH]; intros m Hnd; simpl; [exact Hnd|].
  apply IH. now apply NoDup_keys_set.
Qed.

Lemma keys_of_entries (l : list (string * V)) k :
  k ∈ Map.keys (Map.of_entries l) <-> k ∈ (fst <$> l).
Proof.
  unfold Map.of_entries. rewrite fold_set_keys. simpl.
  split; [intros [H|H]; [inversion H | exact H] | now right].
Qed.

Lemma NoDup_of_entries (l : list (string * V)) : NoDup (Map.keys (Map.of_entries l)).
Proof. apply fold_set_NoDup. apply NoDup_nil_2. Qed.

(** A property of the key and value of every entry given to [new Map] holds
    of every entry of the map. *)
Lemma of_entries_Forall (P : string -> V -> Prop) (l : list (string * V)) :
  (forall k v, (k, v) ∈ l -> P k v) ->
  forall k v, Map.get k (Map.of_entries l) = Some v -> P k v.
Proof.
  unfold Map.of_entries. intros Hl.
  assert (Hgen : forall l m,
            (forall k v, (k, v) ∈ l -> P k v) ->
            (forall k v, Map.get k m = Some v -> P k v) ->
            forall k v,
              Map.get k (fold_left (fun m e => Map.set (fst e) (snd e) m) l m) = Some v ->
              P k v).
  { clear l Hl. induction l as [|[k0 v0] l IH]; intros m Hl Hm k v; simpl.
    - apply Hm.
    - apply IH.
      + intros k' v' Hin. apply Hl. now apply list_elem_of_further.
      + intros k' v'. destruct (decide (k0 = k')) as [->|Hne].
        * rewrite get_set_eq. intros [= <-]. apply Hl. apply list_elem_of_here.
        * rewrite get_set_ne by exact Hne. apply Hm. }
  apply (Hgen l []); [exact Hl | discriminate].
Qed.

End MapFacts.

(** ** MigrationEngine *)

Section EngineFacts.
Import MigrationEngine.
Context (clock : Clock) (co : Collaborators).

Lemma appends_ret {A} (a : A) : appends (Eff.ret a).
Proof. intros e. reflexivity. Qed.

Lemma appends_throw {A} err : appends (@Eff.throw _ A err).
Proof. intros e. reflexivity. Qed.

Lemma appends_bind {A B} (m : Eff.M MigrationEngine A) (k : A -> Eff.M MigrationEngine B) :
  appends m -> (forall a, appends (k a)) -> appends (Eff.bind m k).
Proof.
  intros Hm Hk e. unfold Eff.bind. specialize (Hm e).
  destruct (m e) as [[a|err] e1]; simpl in *.
  - etrans; [exact Hm | apply Hk].
  - exact Hm.
Qed.

Lemma appends_try_catch {A} (m : Eff.M MigrationEngine A) h :
  appends m -> (forall err, appends (h err)) -> appends (Eff.try_catch m h).
Proof.
  intros Hm Hh e. unfold Eff.try_catch. specialize (Hm e).
  destruct (m e) as [[a|err] e1]; simpl in *.
  - exact Hm.
  - etrans; [exact Hm | apply Hh].
Qed.

Lemma appends_gets {A} (f : MigrationEngine -> A) : appends (Eff.gets f).
Proof. intros e. reflexivity. Qed.

Lemma appends_mutate jobId f : appends (mutate jobId f).
Proof. intros e. reflexivity. Qed.

Lemma appends_emit name jobId : appends (emit name jobId).
Proof.
  intros e. unfold emit, Eff.modify. simpl.
  destruct (Map.get jobId (jobs e)); [apply prefix_app_r|]; reflexivity.
Qed.

Lemma appends_in_world {A} (m : Eff.M World A) : appends (in_world m).
Proof.
  intros e. unfold in_world, Eff.zoom. destruct (m (world e)). reflexivity.
Qed.

Lemma appends_for_of {A} (xs : list A) body :
  (forall x, appends (body x)) -> appends (Eff.for_of xs body).
Proof.
  intros Hb. induction xs as [|x xs IH]; simpl.
  - apply appends_ret.
  - apply appends_bind; [apply Hb | intros _; exact IH].
Qed.

Lemma appends_log jobId l m : appends (log clock jobId l m).
Proof.
  apply appends_bind; [apply appends_in_world | intros; apply appends_mutate].
Qed.

Lemma appends_with_progress jobId scale m : appends (with_progress jobId scale m).
Proof.
  intros e. unfold with_progress.
  pose proof (appends_in_world m e) as H1.
  destruct (in_world m e) as [r e1]. simpl in *.
  etrans; [exact H1|].
  apply (appends_for_of _ _ (fun p =>
    appends_bind _ _ (appends_mutate _ _) (fun _ => appends_emit _ _))).
Qed.

Lemma appends_getAdapter config : appends (getAdapter co config).
Proof.
  unfold getAdapter. apply appends_bind; [apply appends_gets|].
  intros [|]; [apply appends_ret|].
  apply appends_bind; [apply appends_in_world|]. intros _ e. reflexivity.
Qed.

Ltac appends_steps :=
  repeat first
    [ apply appends_log | apply appends_mutate | apply appends_emit
    | apply appends_in_world | apply appends_with_progress
    | apply appends_getAdapter | apply appends_ret | apply appends_throw
    | apply appends_gets
    | apply appends_bind; [|intros ?] ].

Lemma appends_executeMigration j : appends (executeMigration clock co j).
Proof.
  unfold executeMigration, executeWithDowntime, executeZeroDowntime.
  appends_steps. destruct (downtime (strategy j)); appends_steps.
Qed.

(** [startMigration] never looks at the status: whatever it was, the job is
    announced as started with status [running]. *)
Lemma startMigration_sets_running e jobId j :
  Map.get jobId (jobs e) = Some j ->
  exists started,
    {| event := "jobStarted"; job := started |}
      ∈ emitted (snd (startMigration clock co jobId e))
    /\ status started = running.
Proof.
  intros Hj. unfold startMigration.
  rewrite (bind_return _ _ e (Some j) e) by (unfold Eff.gets; now rewrite Hj).
  do 5 (erewrite bind_return by reflexivity).
  cbn [jobs emitted adapters world].
  rewrite Hj. cbn [jobs emitted adapters world].
  rewrite !get_set_eq. cbn [jobs emitted adapters world].
  match goal with |- context [Eff.try_catch ?m ?h ?s] =>
    assert (Hpre : emitted s `prefix_of` emitted (snd (Eff.try_catch m h s)))
  end.
  { apply appends_try_catch; [apply appends_executeMigration|].
    intros err. appends_steps. }
  cbn [jobs emitted adapters world] in Hpre.
  eexists. split.
  - eapply elem_of_prefix; [|exact Hpre].
    apply elem_of_app. right. apply list_elem_of_singleton. reflexivity.
  - reflexivity.
Qed.

End EngineFacts.
(** C9.  [pauseMigration] on a job whose status is not [running] (pending,
    paused, completed or failed) throws "Cannot pause job <id>" and leaves
    the engine exactly as it was: the job's status, progress, logs and every
    other field, the other jobs and the emitted events are all unchanged. *)
Theorem pauseMigration_rejected_unless_running
  (clock : Clock) (e : MigrationEngine.MigrationEngine) (jobId : string)
  (j : MigrationJob) :
  MigrationEngine.getJob jobId e = Some j ->
  status j <> running ->
  MigrationEngine.pauseMigration clock jobId e
  = (Throw (Error ("Cannot pause job " +:+ jobId)), e).
Proof.
  intros Hj Hs. unfold MigrationEngine.pauseMigration.
  rewrite (bind_return _ _ e (Some j) e) by (unfold Eff.gets; now rewrite <- Hj).
  destruct (status j); try reflexivity. now destruct Hs.
Qed.

(** Scenario E: a pause requested on a completed job. *)
Lemma pauseMigration_rejected_when_completed :
  MigrationEngine.pauseMigration Sample.clock "job-1"
    (Sample.engine Sample.finished_job)
  = (Throw (Error "Cannot pause job job-1"), Sample.engine Sample.finished_job).
Proof.
  apply (pauseMigration_rejected_unless_running Sample.clock
           (Sample.engine Sample.finished_job) "job-1" Sample.finished_job).
  - reflexivity.
  - discriminate.
Defined.

(** C2.  [startMigration] on a job that is already [completed]: the call is
    not rejected; the job is announced as started with status [running], its
    start time is overwritten and the migration is executed once more. *)
Theorem startMigration_restarts_completed_job :
  let r := MigrationEngine.startMigration Sample.clock Sample.collaborators "job-1"
             (Sample.engine Sample.finished_job) in
  fst r = Return tt
  /\ (fun ev => (MigrationEngine.event ev, status (MigrationEngine.job ev)))
       <$> MigrationEngine.emitted (snd r)
     = [("jobStarted", running); ("jobCompleted", completed)]
  /\ startTime <$> MigrationEngine.getJob "job-1" (snd r) = Some (Some 1000)
  /\ startTime Sample.finished_job = Some 100.
Proof. vm_compute. repeat split. Qed.

(** ** DataMigrator: value transformation *)

Section PropertyFacts.

Lemma set_property_ne key v (row : Row) name :
  name <> key -> set_property key v row !! name = row !! name.
Proof.
  intros Hne. unfold set_property.
  destruct (String.eqb key "__proto__" && negb (bool_decide (is_Some (row !! key))));
    [reflexivity|].
  now rewrite lookup_insert_ne.
Qed.

Lemma set_property_eq key v (row : Row) :
  key <> "__proto__" -> set_property key v row !! key = Some v.
Proof.
  intros Hne. unfold set_property.
  apply String.eqb_neq in Hne. rewrite Hne. simpl. apply lookup_insert_eq.
Qed.

Lemma set_property_setter v (row : Row) :
  row !! "__proto__" = None -> set_property "__proto__" v row = row.
Proof.
  intros Hnone. unfold set_property. rewrite Hnone.
  rewrite bool_decide_eq_false_2 by (intros [x Hx]; discriminate).
  reflexivity.
Qed.

Lemma get_own (row : Row) name v : row !! name = Some v -> get row name = v.
Proof. intros H. unfold get. now rewrite H. Qed.

Lemma elem_of_own_names table name :
  name ∈ own_names table <-> name ∈ (col_name <$> columns table) /\ name <> "__proto__".
Proof. unfold own_names. rewrite list_elem_of_filter. tauto. Qed.

End PropertyFacts.

Section TransformFacts.
Import DataMigrator.
Context (rt : Builtins) (clock : Clock).

(** Each own key of the transformed row other than [__proto__] comes from
    the last column of that name; other keys are those of the accumulator,
    and [__proto__] is never added. *)
Lemma transformColumns_lookup cols : forall row acc n r n',
  transformColumns rt clock cols row acc n = (r, n') ->
  forall name,
    (name ∉ (col_name <$> cols) -> r !! name = acc !! name) /\
    (name ∈ (col_name <$> cols) -> name <> "__proto__" ->
       exists c k, c ∈ cols /\ col_name c = name
                   /\ r !! name = Some (transformCell rt clock row c k)) /\
    (acc !! "__proto__" = None -> r !! "__proto__" = None).
Proof.
  induction cols as [|c rest IH]; intros row acc n r n' Hrun name.
  - simpl in Hrun. inversion Hrun; subst. split; [reflexivity|]. split; [|tauto].
    intros Hin. inversion Hin.
  - simpl in Hrun.
    destruct (if negb (nullish (get row (col_name c)))
              then transformValue rt clock (get row (col_name c)) (col_type c) n
              else (get row (col_name c), n)) as [v' n1] eqn:Hcell.
    pose proof (IH _ _ _ _ _ Hrun "__proto__") as (_ & _ & IHproto).
    specialize (IH _ _ _ _ _ Hrun name). destruct IH as (IHout & IHin & _).
    assert (Hv : v' = transformCell rt clock row c n).
    { unfold transformCell.
      destruct (negb (nullish (get row (col_name c)))); now rewrite Hcell || now inversion Hcell. }
    split; [|split].
    + intros Hout. rewrite fmap_cons, not_elem_of_cons in Hout.
      destruct Hout as [Hne Hrest].
      rewrite (IHout Hrest). now apply set_property_ne.
    + intros Hin Hown. destruct (decide (name ∈ col_name <$> rest)) as [Hrest|Hrest].
      * destruct (IHin Hrest Hown) as (c' & k & Hc' & Hname & Hlook).
        exists c', k. split; [now apply elem_of_cons; right | now split].
      * rewrite fmap_cons, elem_of_cons in Hin.
        destruct Hin as [->|Hin]; [|contradiction].
        exists c, n. split; [apply elem_of_cons; now left|]. split; [reflexivity|].
        rewrite (IHout Hrest), set_property_eq by exact Hown. now rewrite Hv.
    + intros Hacc. apply IHproto.
      destruct (decide (col_name c = "__proto__")) as [Heq|Hne].
      * rewrite Heq. now rewrite set_property_setter.
      * rewrite set_property_ne by congruence. exact Hacc.
Qed.

Lemma transformRow_dom table row n :
  dom (fst (transformRow rt clock table row n)) = list_to_set (own_names table).
Proof.
  unfold transformRow.
  destruct (transformColumns rt clock (columns table) row ∅ n) as [r n'] eqn:Hrun.
  simpl. apply set_eq. intros name.
  rewrite elem_of_dom, elem_of_list_to_set, elem_of_own_names.
  destruct (transformColumns_lookup _ _ _ _ _ _ Hrun name) as (Hout & Hin & Hproto).
  split.
  - intros Hsome. split.
    + destruct (decide (name ∈ col_name <$> columns table)); [assumption|].
      rewrite Hout, lookup_empty in Hsome by assumption. now destruct Hsome.
    + intros ->. rewrite Hproto in Hsome by apply lookup_empty. now destruct Hsome.
  - intros [Hname Hown]. destruct (Hin Hname Hown) as (c & k & _ & _ & ->). eauto.
Qed.

(** [data.map] keeps the number of rows, and row [i] of the result is the
    transformation of row [i] of the input. *)
Lemma transformRows_lookup table : forall data n out n',
  transformRows rt clock table data n = (out, n') ->
  length out = length data /\
  forall i row, data !! i = Some row ->
    exists k, out !! i = Some (fst (transformRow rt clock table row k)).
Proof.
  induction data as [|row0 rest IH]; intros n out n' Hrun; simpl in Hrun.
  - inversion Hrun; subst. split; [reflexivity|]. intros i row Hi. inversion Hi.
  - destruct (transformRow rt clock table row0 n) as [r n1] eqn:Hrow.
    destruct (transformRows rt clock table rest n1) as [rs n2] eqn:Hrest.
    inversion Hrun; subst. destruct (IH _ _ _ Hrest) as [Hlen Hnth].
    split; [simpl; now rewrite Hlen|].
    intros [|i] row Hi; simpl in *.
    + inversion Hi; subst. exists n. now rewrite Hrow.
    + now apply Hnth.
Qed.

Lemma transformRows_transformed table : forall data n,
  Forall2 (transformed rt clock table) data (fst (transformRows rt clock table data n)).
Proof.
  induction data as [|row rest IH]; intros n; simpl.
  - constructor.
  - destruct (transformRow rt clock table row n) as [r n1] eqn:Hrow.
    specialize (IH n1).
    destruct (transformRows rt clock table rest n1) as [rs n2].
    simpl in *. constructor; [|exact IH].
    exists n. now rewrite Hrow.
Qed.

End TransformFacts.



(** ** DataMigrator: UUID validation *)

Section UuidFacts.
Import DataMigrator.
Context (rt : Builtins) (clock : Clock).

Lemma transformValue_uuid v ty n :
  toLowerCase ty = "uuid" ->
  fst (transformValue rt clock v ty n) = uuid_cell rt v.
Proof.
  intros Hty. unfold transformValue, uuid_cell. rewrite Hty.
  destruct (nullish v); [reflexivity|]. cbn.
  now destruct (test uuidRegex (String_ rt v)).
Qed.

Lemma transformCell_uuid row c n :
  toLowerCase (col_type c) = "uuid" ->
  transformCell rt clock row c n = uuid_cell rt (get row (col_name c)).
Proof.
  intros Hty. unfold transformCell.
  destruct (nullish (get row (col_name c))) eqn:Hnull; simpl.
  - unfold uuid_cell. now rewrite Hnull.
  - now apply transformValue_uuid.
Qed.

Lemma transformRow_uuid table row n name :
  name ∈ (col_name <$> columns table) -> name <> "__proto__" ->
  (forall c, c ∈ columns table -> col_name c = name ->
             toLowerCase (col_type c) = "uuid") ->
  fst (transformRow rt clock table row n) !! name = Some (uuid_cell rt (get row name)).
Proof.
  intros Hname Hown Hty. unfold transformRow.
  destruct (transformColumns rt clock (columns table) row ∅ n) as [r n'] eqn:Hrun.
  destruct (transformColumns_lookup _ _ _ _ _ _ _ _ Hrun name) as (_ & Hin & _).
  destruct (Hin Hname Hown) as (c & k & Hc & Hcn & Hlook).
  simpl. rewrite Hlook.
  rewrite transformCell_uuid by auto. now rewrite Hcn.
Qed.

Lemma transformed_uuid table name data out :
  name ∈ (col_name <$> columns table) -> name <> "__proto__" ->
  (forall c, c ∈ columns table -> col_name c = name ->
             toLowerCase (col_type c) = "uuid") ->
  Forall2 (transformed rt clock table) data out ->
  Forall2 (fun row r => r !! name = Some (uuid_cell rt (get row name))) data out.
Proof.
  intros Hname Hown Hty Hall. eapply Forall2_impl; [exact Hall|].
  intros row r [n ->]. now apply transformRow_uuid.
Qed.

Lemma uuid_cell_nulled v r name row :
  get row name = v -> r !! name = Some (uuid_cell rt v) ->
  nulled name (row, r) = invalid_uuid rt v.
Proof.
  intros Hv Hr. apply get_own in Hr. unfold nulled, invalid_uuid, uuid_cell in *.
  cbn [fst snd]. rewrite Hv, Hr.
  destruct (nullish v), (test uuidRegex (String_ rt v)); reflexivity.
Qed.

Lemma count_nulled name : forall data out,
  Forall2 (fun row r => r !! name = Some (uuid_cell rt (get row name))) data out ->
  count_if (nulled name) (zip data out)
  = count_if (fun row => invalid_uuid rt (get row name)) data.
Proof.
  unfold count_if. induction 1 as [|row r data out Hhead _ IH]; [reflexivity|].
  simpl. rewrite (uuid_cell_nulled _ _ _ _ eq_refl Hhead).
  destruct (invalid_uuid rt (get row name)); simpl; now rewrite IH.
Qed.

End UuidFacts.

(** ** SchemaEvolution: the column diff *)

Section DiffFacts.
Import SchemaEvolution.

(** [===] decides strict equality. *)
Lemma strict_equal_spec x y : strict_equal x y = true <-> strictly_equal x y.
Proof.
  split.
  - intros H.
    destruct x as [| |a|[|a|p]|a|a], y as [| |b|[|b|q]|b|b]; simpl in H;
      try discriminate; try (constructor; fail).
    + apply Bool.eqb_prop in H. subst b. constructor.
    + apply Bool.eqb_prop in H. subst b. constructor.
    + constructor. now apply Qeq_bool_iff.
    + apply bool_decide_eq_true in H. subst b. constructor.
    + apply bool_decide_eq_true in H. subst b. constructor.
  - intros []; simpl; try reflexivity.
    + apply Bool.eqb_reflx.
    + now apply Qeq_bool_iff.
    + apply Bool.eqb_reflx.
    + now apply bool_decide_eq_true.
    + now apply bool_decide_eq_true.
Qed.

Lemma columnsDiffer_true c t : columnsDiffer c t = true <-> differ c t.
Proof.
  unfold columnsDiffer, differ. rewrite !orb_true_iff, !negb_true_iff.
  rewrite String.eqb_neq, Bool.eqb_false_iff, <- strict_equal_spec.
  rewrite not_true_iff_false. tauto.
Qed.

Lemma columnsDiffer_false c t : columnsDiffer c t = false <-> ~ differ c t.
Proof. rewrite <- columnsDiffer_true. symmetry. apply not_true_iff_false. Qed.

Lemma scanTarget_filter cur todo : forall a m,
  scanTarget cur todo a m
  = (a ++ (snd <$> filter (fun e => is_add cur e = true) todo),
     m ++ (snd <$> filter (fun e => is_modify cur e = true) todo)).
Proof.
  induction todo as [|[name t] todo IH]; intros a m; simpl.
  - now rewrite !app_nil_r.
  - rewrite !filter_cons.
    assert (Ha : is_add cur (name, t) = negb (Map.has name cur)) by reflexivity.
    assert (Hm : is_modify cur (name, t)
                 = match Map.get name cur with
                   | Some c => columnsDiffer c t
                   | None => false
                   end) by reflexivity.
    unfold Map.has in Ha.
    destruct (Map.get name cur) as [c|]; simpl in Ha.
    + rewrite (decide_False (P := is_add cur (name, t) = true)) by congruence.
      destruct (columnsDiffer c t).
      * rewrite decide_True by congruence. rewrite IH. simpl.
        now rewrite <- app_assoc.
      * rewrite decide_False by congruence. apply IH.
    + rewrite (decide_True (P := is_add cur (name, t) = true)) by congruence.
      rewrite decide_False by congruence. rewrite IH. simpl.
      now rewrite <- app_assoc.
Qed.

Lemma scanCurrent_filter tgt todo : forall d,
  scanCurrent tgt todo d
  = d ++ (snd <$> filter (fun e => is_add tgt e = true) todo).
Proof.
  induction todo as [|[name c] todo IH]; intros d; simpl.
  - now rewrite app_nil_r.
  - rewrite filter_cons.
    assert (Ha : is_add tgt (name, c) = negb (Map.has name tgt)) by reflexivity.
    destruct (Map.has name tgt); simpl in Ha.
    + rewrite decide_False by congruence. apply IH.
    + rewrite decide_True by congruence. rewrite IH. simpl.
      now rewrite <- app_assoc.
Qed.

Lemma columnMap_name table k c :
  Map.get k (columnMap table) = Some c -> col_name c = k.
Proof.
  unfold columnMap.
  apply (of_entries_Forall (fun k c => col_name c = k)).
  intros k' c' Hin. apply list_elem_of_fmap in Hin as (col & [= -> ->] & _).
  reflexivity.
Qed.

Lemma columnMap_keys table k :
  k ∈ Map.keys (columnMap table) <-> k ∈ names (columns table).
Proof.
  unfold columnMap, names. rewrite keys_of_entries.
  rewrite <- list_fmap_compose. reflexivity.
Qed.

Lemma columnMap_has table k :
  Map.has k (columnMap table) = true <-> k ∈ names (columns table).
Proof.
  rewrite <- columnMap_keys. unfold Map.has.
  destruct (Map.get k (columnMap table)) eqn:Hget.
  - split; [intros _|reflexivity].
    destruct (decide (k ∈ Map.keys (columnMap table))) as [|Hn]; [assumption|].
    apply get_None in Hn. congruence.
  - split; [discriminate|]. intros Hin. apply get_None in Hget. contradiction.
Qed.

(** The columns selected from a map by a test on its entries. *)
Lemma selected_columns table (p : string * ColumnDefinition -> bool) c :
  c ∈ (snd <$> filter (fun e => p e = true) (columnMap table))
  <-> Map.get (col_name c) (columnMap table) = Some c /\ p (col_name c, c) = true.
Proof.
  rewrite list_elem_of_fmap. split.
  - intros ([k c'] & -> & Hin). apply list_elem_of_filter in Hin as [Hp Hin].
    simpl. apply elem_get in Hin; [|apply NoDup_of_entries].
    pose proof (columnMap_name _ _ _ Hin) as Hk. simpl in *. subst k. now split.
  - intros [Hget Hp]. exists (col_name c, c). split; [reflexivity|].
    apply list_elem_of_filter. split; [exact Hp | now apply get_Some_elem].
Qed.

Lemma selected_names table (p : string * ColumnDefinition -> bool) :
  names (snd <$> filter (fun e => p e = true) (columnMap table))
  = (fst <$> filter (fun e => p e = true) (columnMap table)).
Proof.
  unfold names. rewrite <- list_fmap_compose. apply list_fmap_ext.
  intros i [k c] Hi. simpl.
  apply list_elem_of_lookup_2, list_elem_of_filter in Hi as [_ Hin].
  apply elem_get in Hin; [|apply NoDup_of_entries].
  now apply columnMap_name in Hin.
Qed.

Lemma selected_names_NoDup table (p : string * ColumnDefinition -> bool) :
  NoDup (names (snd <$> filter (fun e => p e = true) (columnMap table))).
Proof.
  rewrite selected_names.
  apply (sublist_NoDup _ (Map.keys (columnMap table))).
  - apply NoDup_of_entries.
  - apply fmap_sublist, sublist_filter.
Qed.

Lemma selected_name table (p : string * ColumnDefinition -> bool) n :
  n ∈ names (snd <$> filter (fun e => p e = true) (columnMap table))
  <-> exists c, Map.get n (columnMap table) = Some c /\ p (n, c) = true.
Proof.
  unfold names. rewrite list_elem_of_fmap. split.
  - intros (c & -> & Hc). apply selected_columns in Hc. eauto.
  - intros (c & Hget & Hp). exists c.
    pose proof (columnMap_name _ _ _ Hget) as Hn. subst n.
    split; [reflexivity|]. now apply selected_columns.
Qed.

Lemma changes_unfold current target :
  calculateTableChanges current target
  = {| addColumns :=
         snd <$> filter (fun e => is_add (columnMap current) e = true) (columnMap target);
       modifyColumns :=
         snd <$> filter (fun e => is_modify (columnMap current) e = true) (columnMap target);
       dropColumns :=
         snd <$> filter (fun e => is_add (columnMap target) e = true) (columnMap current) |}.
Proof.
  unfold calculateTableChanges. rewrite scanTarget_filter, scanCurrent_filter.
  reflexivity.
Qed.

Lemma is_add_false_iff table n c :
  is_add (columnMap table) (n, c) = true <-> n ∉ names (columns table).
Proof.
  unfold is_add. simpl. rewrite negb_true_iff, <- columnMap_has.
  destruct (Map.has n (columnMap table)); split; congruence.
Qed.

(** Effect of the three groups of statements on the column names. *)
Lemma names_add cols adds :
  names (fold_left alter_add adds cols) = names cols ++ names adds.
Proof.
  revert cols. induction adds as [|c adds IH]; intros cols; simpl.
  - now rewrite app_nil_r.
  - rewrite IH. unfold alter_add, names. rewrite fmap_app. simpl.
    now rewrite <- app_assoc.
Qed.

Lemma names_modify cols mods :
  names (fold_left alter_modify mods cols) = names cols.
Proof.
  revert cols. induction mods as [|c mods IH]; intros cols; simpl; [reflexivity|].
  rewrite IH. unfold alter_modify, names. rewrite <- list_fmap_compose.
  apply list_fmap_ext. intros i old _. simpl.
  now destruct (String.eqb (col_name old) (col_name c)).
Qed.

Lemma names_drop cols drops n :
  n ∈ names (fold_left alter_drop drops cols)
  <-> n ∈ names cols /\ n ∉ names drops.
Proof.
  revert cols. induction drops as [|c drops IH]; intros cols; simpl.
  - split; [intros H; split; [exact H | intros H'; inversion H'] | now intros [H _]].
  - rewrite IH. unfold alter_drop, names. rewrite ?fmap_cons, not_elem_of_cons.
    rewrite !list_elem_of_fmap. split.
    + intros [(old & -> & Hold) Hnot]. apply list_elem_of_filter in Hold as [Hne Hold].
      split; [eauto | now split].
    + intros [(old & -> & Hold) [Hne Hnot]]. split; [|exact Hnot].
      exists old. split; [reflexivity|]. apply list_elem_of_filter. now split.
Qed.

End DiffFacts.

Section DiffNames.
Import SchemaEvolution.
Context (current target : TableDefinition).

Lemma column_named table n :
  n ∈ names (columns table) <-> exists c, Map.get n (columnMap table) = Some c.
Proof.
  rewrite <- columnMap_has. unfold Map.has.
  destruct (Map.get n (columnMap table)); split; eauto; try discriminate.
  intros [c Hc]. discriminate.
Qed.

Lemma added_name n :
  n ∈ names (addColumns (calculateTableChanges current target))
  <-> n ∈ names (columns target) /\ n ∉ names (columns current).
Proof.
  rewrite changes_unfold. simpl. rewrite selected_name, column_named.
  split.
  - intros (c & Hget & Hadd). apply is_add_false_iff in Hadd. eauto.
  - intros [[c Hget] Hnot]. exists c. split; [exact Hget|].
    now apply is_add_false_iff.
Qed.

Lemma dropped_name n :
  n ∈ names (dropColumns (calculateTableChanges current target))
  <-> n ∈ names (columns current) /\ n ∉ names (columns target).
Proof.
  rewrite changes_unfold. simpl. rewrite selected_name, column_named.
  split.
  - intros (c & Hget & Hadd). apply is_add_false_iff in Hadd. eauto.
  - intros [[c Hget] Hnot]. exists c. split; [exact Hget|].
    now apply is_add_false_iff.
Qed.

Lemma modified_name n :
  n ∈ names (modifyColumns (calculateTableChanges current target))
  <-> exists c t, Map.get n (columnMap current) = Some c
                  /\ Map.get n (columnMap target) = Some t
                  /\ columnsDiffer c t = true.
Proof.
  rewrite changes_unfold. simpl. rewrite selected_name. unfold is_modify. simpl.
  split.
  - intros (t & Hget & Hmod).
    destruct (Map.get n (columnMap current)) as [c|]; [eauto | discriminate].
  - intros (c & t & Hc & Ht & Hd). exists t. rewrite Hc. now split.
Qed.

Lemma changed_name n :
  n ∈ names (addColumns (calculateTableChanges current target))
      ++ names (modifyColumns (calculateTableChanges current target))
      ++ names (dropColumns (calculateTableChanges current target))
  <-> (n ∈ names (columns current) \/ n ∈ names (columns target))
      /\ ~ unchanged current target n.
Proof.
  rewrite !elem_of_app, added_name, dropped_name, modified_name.
  unfold unchanged. split.
  - intros [[Ht Hc]|[(c & t & Hc & Ht & Hd)|[Hc Ht]]].
    + split; [now right|]. intros (c & t & Hgc & _). apply Hc, column_named. eauto.
    + split; [left; apply column_named; eauto|].
      intros (c' & t' & Hc' & Ht' & Hd'). apply Hd'.
      apply columnsDiffer_true. congruence.
    + split; [now left|]. intros (c & t & _ & Hgt & _). apply Ht, column_named. eauto.
  - intros [Hin Hchanged].
    destruct (decide (n ∈ names (columns current))) as [Hc|Hc];
      destruct (decide (n ∈ names (columns target))) as [Ht|Ht].
    + right; left. apply column_named in Hc as [c Hc]. apply column_named in Ht as [t Ht].
      exists c, t. split; [exact Hc|]. split; [exact Ht|].
      destruct (columnsDiffer c t) eqn:Hd; [reflexivity|].
      destruct Hchanged. exists c, t. now rewrite <- columnsDiffer_false.
    + right; right. now split.
    + left. now split.
    + destruct Hin; contradiction.
Qed.

Lemma applied_name n :
  n ∈ names (applyChanges (columns current) (calculateTableChanges current target))
  <-> n ∈ names (columns target).
Proof.
  unfold applyChanges. rewrite names_drop, names_modify, names_add, elem_of_app.
  rewrite added_name, dropped_name.
  destruct (decide (n ∈ names (columns current)));
    destruct (decide (n ∈ names (columns target))); tauto.
Qed.

End DiffNames.

(** C7, as the code has it.  The diff keyed by column name gives three lists
    without repeated names and pairwise disjoint: the added columns are
    exactly the target's columns whose name the current table lacks, the
    dropped ones exactly the current columns whose name the target lacks, the
    modified ones exactly the target's columns whose name both tables have
    and that differ from the current column: in type, in nullability, or by
    defaults that are not strictly equal.  A name belongs to one of the three
    lists exactly when it is a column name of either table and is not the
    name of a column of both that does not differ.  Adding, then modifying,
    then dropping turns the current columns into columns with the target's
    names. *)
Theorem calculateTableChanges_partitions_differing_columns
  (current target : TableDefinition) :
  let changes := SchemaEvolution.calculateTableChanges current target in
  let cur := SchemaEvolution.columnMap current in
  let tgt := SchemaEvolution.columnMap target in
  let added := SchemaEvolution.names (SchemaEvolution.addColumns changes) in
  let modified := SchemaEvolution.names (SchemaEvolution.modifyColumns changes) in
  let dropped := SchemaEvolution.names (SchemaEvolution.dropColumns changes) in
  (forall c, c ∈ SchemaEvolution.addColumns changes <->
     Map.get (col_name c) tgt = Some c
     /\ col_name c ∉ SchemaEvolution.names (columns current))
  /\ (forall c, c ∈ SchemaEvolution.dropColumns changes <->
        Map.get (col_name c) cur = Some c
        /\ col_name c ∉ SchemaEvolution.names (columns target))
  /\ (forall t, t ∈ SchemaEvolution.modifyColumns changes <->
        Map.get (col_name t) tgt = Some t
        /\ exists c, Map.get (col_name t) cur = Some c
             /\ (col_type c <> col_type t \/ nullable c <> nullable t
                 \/ ~ strictly_equal (defaultValue c) (defaultValue t)))
  /\ NoDup added /\ NoDup modified /\ NoDup dropped
  /\ (forall n, ~ (n ∈ added /\ n ∈ modified))
  /\ (forall n, ~ (n ∈ added /\ n ∈ dropped))
  /\ (forall n, ~ (n ∈ modified /\ n ∈ dropped))
  /\ (forall n, n ∈ added ++ modified ++ dropped <->
        (n ∈ SchemaEvolution.names (columns current)
         \/ n ∈ SchemaEvolution.names (columns target))
        /\ ~ unchanged current target n)
  /\ (forall n,
        n ∈ SchemaEvolution.names
              (SchemaEvolution.applyChanges (columns current) changes)
        <-> n ∈ SchemaEvolution.names (columns target)).
Proof.
  intros changes cur tgt added modified dropped.
  subst changes cur tgt added modified dropped.
  repeat apply conj.
  - intros c. rewrite changes_unfold. simpl. rewrite selected_columns.
    now rewrite is_add_false_iff.
  - intros c. rewrite changes_unfold. simpl. rewrite selected_columns.
    now rewrite is_add_false_iff.
  - intros t. rewrite changes_unfold. simpl. rewrite selected_columns.
    unfold is_modify. simpl. split.
    + intros [Ht Hmod]. split; [exact Ht|].
      destruct (Map.get (col_name t) (SchemaEvolution.columnMap current)) as [c|];
        [|discriminate].
      exists c. split; [reflexivity|]. now apply columnsDiffer_true.
    + intros [Ht (c & Hc & Hd)]. split; [exact Ht|]. rewrite Hc.
      now apply columnsDiffer_true.
  - rewrite changes_unfold. apply selected_names_NoDup.
  - rewrite changes_unfold. apply selected_names_NoDup.
  - rewrite changes_unfold. apply selected_names_NoDup.
  - intros n [Ha Hm]. apply added_name in Ha as [_ Hc].
    apply modified_name in Hm as (c & _ & Hgc & _).
    apply Hc, column_named. eauto.
  - intros n [Ha Hd]. apply added_name in Ha as [_ Hc].
    apply dropped_name in Hd as [Hc' _]. contradiction.
  - intros n [Hm Hd]. apply dropped_name in Hd as [_ Ht].
    apply modified_name in Hm as (_ & t & _ & Hgt & _).
    apply Ht, column_named. eauto.
  - apply changed_name.
  - apply applied_name.
Qed.

(** C7, as stated, fails twice.  Between {id, email} and {id, email, phone}
    the diff adds phone and lists nothing else, so the names in the three
    lists are not the union of the two tables' column names (id is in no
    list).  And the diff of a table with itself lists the column whose
    default is NaN as modified, although nothing differs in structure: the
    defaults are compared with [!==], which holds of NaN and itself. *)
Lemma diff_misses_unchanged_names_and_compares_defaults_strictly :
  let changes := SchemaEvolution.calculateTableChanges Sample.users_v1 Sample.users_v2 in
  let same := SchemaEvolution.calculateTableChanges Sample.readings Sample.readings in
  (SchemaEvolution.names (SchemaEvolution.addColumns changes) = ["phone"]
   /\ SchemaEvolution.modifyColumns changes = []
   /\ SchemaEvolution.dropColumns changes = []
   /\ "id" ∈ SchemaEvolution.names (columns Sample.users_v1)
   /\ "id" ∉ SchemaEvolution.names (SchemaEvolution.addColumns changes)
             ++ SchemaEvolution.names (SchemaEvolution.modifyColumns changes)
             ++ SchemaEvolution.names (SchemaEvolution.dropColumns changes))
  /\ SchemaEvolution.names (SchemaEvolution.modifyColumns same) = ["value"]
  /\ SchemaEvolution.addColumns same = []
  /\ SchemaEvolution.dropColumns same = [].
Proof.
  vm_compute. repeat split.
  - apply list_elem_of_here.
  - intros H. apply list_elem_of_singleton in H. discriminate.
Qed.

(** ** The adapters *)

Section AdapterFacts.

Lemma same_tables_refl b : same_tables b b.
Proof. now split. Qed.

Lemma same_tables_trans b1 b2 b3 :
  same_tables b1 b2 -> same_tables b2 b3 -> same_tables b1 b3.
Proof. intros [K1 S1] [K2 S2]. split; congruence. Qed.

Lemma same_tables_record c b : same_tables b (record c b).
Proof. now split. Qed.

Lemma same_tables_count b b' t : same_tables b b' -> count_rows b' t = count_rows b t.
Proof. intros [_ Hs]. unfold count_rows, rows_of. now rewrite Hs. Qed.

Lemma same_tables_countable b b' t : same_tables b b' -> countable b t -> countable b' t.
Proof. intros [Hk Hs]. unfold countable. now rewrite Hk, Hs. Qed.

Lemma getCount_countable b t :
  countable b t ->
  getCount t b = (Return (count_rows b t), record (getCount_ t) b).
Proof.
  unfold countable, getCount, count_rows, rows_of. simpl.
  intros [Hk|[rows Hrows]].
  - rewrite Hk. reflexivity.
  - rewrite Hrows. now destruct (kind b).
Qed.

End AdapterFacts.

(** ** DataMigrator: integrity validation *)

Section IntegrityFacts.
Import DataMigrator.

Lemma collectMismatches_spec todo : forall acc w,
  (forall t, t ∈ todo ->
     countable (source w) (tbl_name t) /\ countable (target w) (tbl_name t)) ->
  exists w',
    collectMismatches todo acc w
    = (Return (acc ++ (mismatch_of w <$> filter (counts_differ w) todo)), w')
    /\ same_tables (source w) (source w') /\ same_tables (target w) (target w').
Proof.
  induction todo as [|t todo IH]; intros acc w Hall; simpl.
  - exists w. rewrite app_nil_r. repeat split.
  - destruct (Hall t (list_elem_of_here _ _)) as [Hs Ht].
    unfold Eff.bind at 1, on_source at 1, Eff.zoom.
    rewrite (getCount_countable _ _ Hs).
    unfold Eff.bind at 1, on_target at 1, Eff.zoom. cbn [target source].
    rewrite (getCount_countable _ _ Ht).
    set (w1 := {| source := record (getCount_ (tbl_name t)) (source w);
                  target := record (getCount_ (tbl_name t)) (target w);
                  ticks := ticks w; reported := reported w |}).
    assert (Hsame : forall t', count_rows (source w1) t' = count_rows (source w) t'
                               /\ count_rows (target w1) t' = count_rows (target w) t').
    { intros t'. split; reflexivity. }
    assert (Hmk : forall l : list TableDefinition,
                    mismatch_of w1 <$> filter (counts_differ w1) l
                            = mismatch_of w <$> filter (counts_differ w) l).
    { reflexivity. }
    assert (Hall1 : forall t', t' ∈ todo ->
              countable (source w1) (tbl_name t') /\ countable (target w1) (tbl_name t')).
    { intros t' Hin. destruct (Hall t' (list_elem_of_further _ _ _ Hin)). now split. }
    rewrite filter_cons.
    destruct (decide (count_rows (source w) (tbl_name t)
                      <> count_rows (target w) (tbl_name t))) as [Hne|Heq].
    + destruct (IH (acc ++ [mismatch_of w t]) w1 Hall1) as (w' & Hrun & Hs' & Ht').
      exists w'. rewrite decide_True by exact Hne.
      cbn [ticks reported]. fold w1. unfold mismatch_of at 1 in Hrun.
      rewrite Hrun, Hmk.
      simpl. rewrite <- app_assoc. repeat split; try apply Hs'; apply Ht'.
    + destruct (IH acc w1 Hall1) as (w' & Hrun & Hs' & Ht').
      exists w'. rewrite decide_False by exact Heq.
      cbn [ticks reported]. fold w1. rewrite Hrun, Hmk. repeat split; try apply Hs'; apply Ht'.
Qed.

End IntegrityFacts.

(** C8.  When every table of the schema can be counted on both adapters,
    [validateDataIntegrity] returns a report whose mismatch list holds, in
    schema order, exactly the tables whose source and target counts differ,
    each with both counts; [isValid] is false and the list non-empty exactly
    when some table's counts differ.  The tables themselves are not changed. *)
Theorem validateDataIntegrity_lists_exactly_the_mismatches
  (schema : SchemaDefinition) (w : World) :
  (forall t, t ∈ tables schema ->
     countable (source w) (tbl_name t) /\ countable (target w) (tbl_name t)) ->
  exists report w',
    DataMigrator.validateDataIntegrity schema w = (Return report, w')
    /\ DataMigrator.mismatches report
       = (mismatch_of w <$> filter (counts_differ w) (tables schema))
    /\ (DataMigrator.isValid report = false /\ DataMigrator.mismatches report <> []
        <-> exists t, t ∈ tables schema /\ counts_differ w t)
    /\ (DataMigrator.isValid report = true
        <-> forall t, t ∈ tables schema -> ~ counts_differ w t)
    /\ same_tables (source w) (source w') /\ same_tables (target w) (target w').
Proof.
  intros Hall. unfold DataMigrator.validateDataIntegrity.
  destruct (collectMismatches_spec (tables schema) [] w Hall) as (w' & Hrun & Hs & Ht).
  simpl in Hrun. rewrite (bind_return _ _ _ _ _ Hrun).
  eexists _, w'. split; [reflexivity|]. cbn [DataMigrator.mismatches DataMigrator.isValid].
  split; [reflexivity|].
  set (ms := mismatch_of w <$> filter (counts_differ w) (tables schema)).
  assert (Hnil : ms = [] <-> forall t, t ∈ tables schema -> ~ counts_differ w t).
  { subst ms. split.
    - intros Hnil t Hin Hd. apply fmap_nil_inv in Hnil.
      assert (Hin' : t ∈ filter (counts_differ w) (tables schema))
        by (apply list_elem_of_filter; now split).
      rewrite Hnil in Hin'. inversion Hin'.
    - intros Hnone. destruct (filter (counts_differ w) (tables schema)) as [|t l] eqn:Hf;
        [reflexivity|]. exfalso.
      assert (Hin : t ∈ filter (counts_differ w) (tables schema))
        by (rewrite Hf; apply list_elem_of_here).
      apply list_elem_of_filter in Hin as [Hd Hin]. now destruct (Hnone t Hin). }
  assert (Hsome : ms <> [] <-> exists t, t ∈ tables schema /\ counts_differ w t).
  { split.
    - intros Hne. subst ms.
      destruct (filter (counts_differ w) (tables schema)) as [|t l] eqn:Hf;
        [now destruct Hne|].
      assert (Hin : t ∈ filter (counts_differ w) (tables schema))
        by (rewrite Hf; apply list_elem_of_here).
      apply list_elem_of_filter in Hin as [Hd Hin]. eauto.
    - intros (t & Hin & Hd) Hms. exact (proj1 Hnil Hms t Hin Hd). }
  assert (Hvalid : bool_decide (length ms = 0%nat) = true <-> ms = []).
  { rewrite bool_decide_eq_true. split; [apply nil_length_inv | now intros ->]. }
  split; [|split; [|split; [apply Hs | apply Ht]]].
  - split.
    + intros [_ Hne]. now apply Hsome.
    + intros Hex. apply Hsome in Hex. split; [|exact Hex].
      apply not_true_is_false. intros Hv. now apply Hvalid in Hv.
  - now rewrite Hvalid.
Qed.

(** 100 orders in the source, 99 in the target. *)
Lemma validateDataIntegrity_on_orders :
  exists report w',
    DataMigrator.validateDataIntegrity (Sample.schema [Sample.orders]) Sample.orders_world
    = (Return report, w')
    /\ DataMigrator.mismatches report
       = (mismatch_of Sample.orders_world
            <$> filter (counts_differ Sample.orders_world) [Sample.orders])
    /\ (DataMigrator.isValid report = false /\ DataMigrator.mismatches report <> []
        <-> exists t, t ∈ [Sample.orders] /\ counts_differ Sample.orders_world t)
    /\ (DataMigrator.isValid report = true
        <-> forall t, t ∈ [Sample.orders] -> ~ counts_differ Sample.orders_world t)
    /\ same_tables (source Sample.orders_world) (source w')
    /\ same_tables (target Sample.orders_world) (target w').
Proof.
  apply (validateDataIntegrity_lists_exactly_the_mismatches
           (Sample.schema [Sample.orders]) Sample.orders_world).
  intros t Ht. apply list_elem_of_singleton in Ht. subst t.
  split; right; eexists; apply lookup_singleton_eq.
Defined.

(** ** DataMigrator: the full copy *)

Section AdapterCalls.

Lemma selectData_countable b t limit offset :
  countable b t -> limit <> 0%nat ->
  selectData t limit offset b
  = (Return (take limit (drop offset (rows_of b t))),
     record (selectData_ t limit offset) b).
Proof.
  unfold countable, selectData, rows_of. simpl. intros [Hk|[rows Hrows]] Hl.
  - rewrite Hk. now rewrite decide_False.
  - rewrite Hrows. destruct (kind b); try reflexivity. simpl.
    now rewrite decide_False.
Qed.

Lemma insertData_countable b t data :
  countable b t ->
  exists b',
    insertData t data b = (Return tt, b')
    /\ kind b' = kind b
    /\ journal b' = journal b ++ [insertData_ t (length data)]
    /\ count_rows b' t = (count_rows b t + length data)%nat
    /\ countable b' t
    /\ (forall t', t' <> t -> store b' !! t' = store b !! t').
Proof.
  unfold countable, insertData, count_rows, rows_of. simpl.
  intros Hc. destruct (kind b) eqn:Hk.
  1,2: destruct Hc as [Hc|[rows Hrows]]; [discriminate|]; rewrite Hrows;
       destruct data as [|first rest].
  1,3: eexists; split; [reflexivity|]; simpl; rewrite Hrows, Hk; simpl;
       repeat split; eauto.
  1,2: eexists; split; [reflexivity|]; simpl; rewrite lookup_insert_eq, Hk; simpl;
       rewrite length_app; simpl; rewrite length_fmap; repeat split; eauto;
       intros t' Hne; now rewrite lookup_insert_ne.
  eexists; split; [reflexivity|]. simpl. rewrite lookup_insert_eq, Hk. simpl.
  rewrite length_app. repeat split; eauto.
  intros t' Hne. now rewrite lookup_insert_ne.
Qed.

(** An INSERT over the keys of [first] stores a row with those keys as it
    is. *)
Lemma project_same_keys (first r : Row) : dom r = dom first -> project first r = r.
Proof.
  intros Hdom. apply map_eq. intros k. unfold project.
  rewrite map_lookup_imap.
  destruct (first !! k) as [x|] eqn:Hk; simpl.
  - assert (Hin : k ∈ dom r) by (rewrite Hdom; apply elem_of_dom; eauto).
    apply elem_of_dom in Hin as [v Hv]. unfold get. now rewrite Hv.
  - symmetry. apply not_elem_of_dom. rewrite Hdom. now apply not_elem_of_dom.
Qed.

Lemma project_uniform (first : Row) (data : list Row) (keys : gset string) :
  dom first = keys ->
  Forall (fun r : Row => dom r = keys) data ->
  project first <$> data = data.
Proof.
  intros Hfirst Hall. induction Hall as [|r data Hr _ IH]; [reflexivity|].
  rewrite fmap_cons, IH. f_equal. apply project_same_keys. congruence.
Qed.

(** Rows that all have the same keys are appended to the table as they
    are. *)
Lemma insertData_rows b t data b' (keys : gset string) :
  countable b t ->
  Forall (fun r : Row => dom r = keys) data ->
  insertData t data b = (Return tt, b') ->
  rows_of b' t = rows_of b t ++ data.
Proof.
  unfold countable, insertData, rows_of. simpl.
  intros Hc Hkeys. destruct (kind b) eqn:Hk.
  3: { intros [= <-]. simpl. now rewrite lookup_insert_eq. }
  all: destruct Hc as [Hc|[rows Hrows]]; [discriminate|]; rewrite Hrows;
       destruct data as [|first rest]; intros [= <-]; simpl.
  1,3: rewrite Hrows; simpl; now rewrite app_nil_r.
  all: rewrite lookup_insert_eq; simpl; f_equal;
       apply (project_uniform first (first :: rest) keys);
       [exact (Forall_inv Hkeys) | exact Hkeys].
Qed.

End AdapterCalls.

Section WorldCalls.

Lemma on_source_run {A} (m : Eff.M Backend A) w r b :
  m (source w) = (r, b) ->
  on_source m w
  = (r, {| source := b; target := target w; ticks := ticks w; reported := reported w |}).
Proof. intros H. unfold on_source, Eff.zoom. now rewrite H. Qed.

Lemma on_target_run {A} (m : Eff.M Backend A) w r b :
  m (target w) = (r, b) ->
  on_target m w
  = (r, {| source := source w; target := b; ticks := ticks w; reported := reported w |}).
Proof. intros H. unfold on_target, Eff.zoom. now rewrite H. Qed.

End WorldCalls.

Section PageArithmetic.
Local Open Scope nat_scope.

Lemma div_small_0 n b : n < b -> n / b = 0.
Proof. apply Nat.div_small. Qed.

Lemma div_step n b : 1 <= b -> b <= n -> n / b = S ((n - b) / b).
Proof.
  intros Hb Hn. replace n with ((n - b) + 1 * b) at 1 by lia.
  rewrite Nat.div_add by lia. lia.
Qed.

Lemma mod_step n b : 1 <= b -> b <= n -> n mod b = (n - b) mod b.
Proof.
  intros Hb Hn. replace n with ((n - b) + 1 * b) at 1 by lia.
  now rewrite Nat.Div0.mod_add.
Qed.

Lemma page_sizes_zero b : 1 <= b -> page_sizes 0 b = [].
Proof.
  intros Hb. unfold page_sizes. rewrite Nat.Div0.div_0_l, Nat.Div0.mod_0_l.
  now rewrite decide_True.
Qed.

Lemma page_sizes_last n b : 0 < n -> n < b -> page_sizes n b = [n].
Proof.
  intros Hn Hb. unfold page_sizes. rewrite Nat.div_small, Nat.mod_small by lia.
  now rewrite decide_False by lia.
Qed.

Lemma page_sizes_step n b : 1 <= b -> b <= n -> page_sizes n b = b :: page_sizes (n - b) b.
Proof.
  intros Hb Hn. unfold page_sizes.
  rewrite (div_step n b), (mod_step n b) by assumption. reflexivity.
Qed.

Lemma fetches_last t b offset n : n < b -> fetches t b offset n = [selectData_ t b offset].
Proof.
  intros Hn. unfold fetches. rewrite Nat.div_small by lia. simpl.
  now rewrite Nat.add_0_r.
Qed.

Lemma fetches_step t b offset n :
  1 <= b -> b <= n ->
  fetches t b offset n = selectData_ t b offset :: fetches t b (offset + b) (n - b).
Proof.
  intros Hb Hn. unfold fetches. rewrite (div_step n b) by assumption.
  rewrite (Nat.add_1_r (S _)). rewrite <- cons_seq. rewrite fmap_cons.
  rewrite Nat.add_0_r. f_equal.
  rewrite <- fmap_S_seq, <- list_fmap_compose, Nat.add_1_r.
  apply list_fmap_ext. intros i x _. simpl. f_equal. lia.
Qed.

(** The number of fetches, in the terms of the specification. *)
Lemma fetch_count n b :
  1 <= b ->
  n / b + 1 = if decide (n mod b = 0) then ceil_div n b + 1 else ceil_div n b.
Proof.
  intros Hb. unfold ceil_div.
  pose proof (Nat.div_mod_eq n b) as Hn.
  pose proof (Nat.mod_upper_bound n b ltac:(lia)) as Hr.
  destruct (decide (n mod b = 0)) as [H0|H0].
  - f_equal. apply (Nat.div_unique _ _ _ (b - 1)); lia.
  - apply (Nat.div_unique _ _ _ (n mod b - 1)); nia.
Qed.

End PageArithmetic.

Section FullCopy.
Import DataMigrator.
Context (rt : Builtins) (clock : Clock) (this : DataMigrator) (table : TableDefinition).

Lemma transformData_run data w :
  exists out n,
    transformData rt clock data table w = (Return out, with_ticks n w)
    /\ length out = length data.
Proof.
  unfold transformData.
  destruct (transformRows rt clock table data (ticks w)) as [out n] eqn:Hrun.
  exists out, n. split; [reflexivity|].
  now destruct (transformRows_lookup rt clock table _ _ _ _ Hrun).
Qed.

Lemma transformData_rows data w out w' :
  transformData rt clock data table w = (Return out, w') ->
  Forall2 (transformed rt clock table) data out
  /\ Forall (fun r : Row => dom r = list_to_set (own_names table)) out.
Proof.
  unfold transformData.
  pose proof (transformRows_transformed rt clock table data (ticks w)) as Hall.
  destruct (transformRows rt clock table data (ticks w)) as [out0 n].
  intros [= <- _]. split; [exact Hall|].
  simpl in Hall. clear -Hall. induction Hall as [|row r data out [n ->] _ IH].
  - constructor.
  - constructor; [apply transformRow_dom | exact IH].
Qed.

Lemma migrateLoop_spec : forall fuel offset total w,
  (1 <= batchSize this)%nat ->
  countable (source w) (tbl_name table) ->
  countable (target w) (tbl_name table) ->
  ((count_rows (source w) (tbl_name table) - offset) / batchSize this < fuel)%nat ->
  exists w',
    migrateLoop rt clock this table fuel offset total w
    = (Return (Some (total + (count_rows (source w) (tbl_name table) - offset))%nat), w')
    /\ same_tables (source w) (source w')
    /\ journal (source w')
       = journal (source w)
         ++ fetches (tbl_name table) (batchSize this) offset
              (count_rows (source w) (tbl_name table) - offset)
    /\ kind (target w') = kind (target w)
    /\ journal (target w')
       = journal (target w)
         ++ (insertData_ (tbl_name table)
               <$> page_sizes (count_rows (source w) (tbl_name table) - offset)
                     (batchSize this))
    /\ count_rows (target w') (tbl_name table)
       = (count_rows (target w) (tbl_name table)
          + (count_rows (source w) (tbl_name table) - offset))%nat
    /\ (forall t', t' <> tbl_name table ->
          store (target w') !! t' = store (target w) !! t')
    /\ reported w' = reported w
    /\ exists new,
         rows_of (target w') (tbl_name table)
         = rows_of (target w) (tbl_name table) ++ new
         /\ Forall2 (transformed rt clock table)
              (drop offset (rows_of (source w) (tbl_name table))) new.
Proof.
  induction fuel as [|fuel IH]; intros offset total w HB Hsrc Htgt Hfuel; [lia|].
  set (B := batchSize this) in *. set (name := tbl_name table) in *.
  set (N := count_rows (source w) name) in *.
  cbn [migrateLoop]. fold B name.
  erewrite bind_return
    by (apply on_source_run, selectData_countable; [exact Hsrc | lia]).
  set (page := take B (drop offset (rows_of (source w) name))).
  assert (Hpage : length page = Nat.min B (N - offset)).
  { subst page. now rewrite length_take, length_drop. }
  set (w1 := {| source := record (selectData_ name B offset) (source w);
                target := target w; ticks := ticks w; reported := reported w |}).
  destruct (decide (length page = 0%nat)) as [Hempty|Hsome].
  - (* the page is empty: end of data *)
    assert (Hrest : (N - offset = 0)%nat) by lia.
    exists w1. rewrite Hrest, Nat.add_0_r.
    rewrite fetches_last, page_sizes_zero by lia. simpl.
    rewrite app_nil_r, Nat.add_0_r. repeat split.
    exists []. rewrite app_nil_r. split; [reflexivity|].
    rewrite drop_ge by (unfold N, count_rows in Hrest; lia). constructor.
  - destruct (transformData_run page w1) as (out & n & Hout & Hlen).
    destruct (transformData_rows page w1 _ _ Hout) as [Hout2 Hkeys].
    erewrite bind_return by exact Hout.
    destruct (insertData_countable (target w) name out Htgt)
      as (tgt' & Hins & Hkind & Hjournal & Hcount & Hcountable & Hframe).
    pose proof (insertData_rows _ _ _ _ _ Htgt Hkeys Hins) as Hstored.
    erewrite bind_return by (apply on_target_run; exact Hins).
    subst w1. cbn [source target ticks reported with_ticks].
    set (w2 := {| source := record (selectData_ name B offset) (source w);
                  target := tgt'; ticks := n; reported := reported w |}).
    destruct (decide (length page < B)%nat) as [Hshort|Hfull].
    + (* a short page: the last one *)
      exists w2. assert (Hrest : length page = (N - offset)%nat) by lia.
      rewrite Hrest. rewrite fetches_last, page_sizes_last by lia.
      subst w2. cbn [source target]. rewrite Hjournal, Hcount, Hlen, Hrest.
      repeat split; try assumption.
      exists out. split; [exact Hstored|].
      replace (drop offset (rows_of (source w) name)) with page; [exact Hout2|].
      subst page. apply take_ge. rewrite length_drop. fold (count_rows (source w) name).
      fold N. lia.
    + (* a full page: the loop goes on *)
      assert (Hlenp : length page = B) by lia.
      assert (HBN : (B <= N - offset)%nat) by lia.
      assert (HN2 : count_rows (source w2) name = N) by reflexivity.
      destruct (IH (offset + B)%nat (total + length page)%nat w2 HB)
        as (w' & Hrun & Hsame & Hjs & Hk & Hjt & Hct & Hfr & Hrep & new & Hnew & Hall).
      * exact Hsrc.
      * exact Hcountable.
      * fold B name. rewrite HN2.
        replace (N - (offset + B))%nat with (N - offset - B)%nat by lia.
        rewrite (div_step (N - offset) B) in Hfuel by lia. lia.
      * fold B name in Hrun, Hjs, Hjt, Hct. rewrite HN2 in Hrun, Hjs, Hjt, Hct.
        exists w'. rewrite Hrun.
        replace (total + length page + (N - (offset + B)))%nat
          with (total + (N - offset))%nat by lia.
        split; [reflexivity|].
        split; [exact Hsame|].
        rewrite (fetches_step name B offset (N - offset)) by lia.
        rewrite (page_sizes_step (N - offset) B) by lia.
        replace (N - (offset + B))%nat with (N - offset - B)%nat in * by lia.
        rewrite Hjs, Hjt, Hct, Hk. subst w2. cbn [source target journal record].
        rewrite Hjournal, Hcount, Hkind, Hlen, Hlenp, <- !app_assoc. simpl.
        repeat split; [lia | | exact Hrep |].
        { intros t' Hne. rewrite (Hfr t' Hne). now apply Hframe. }
        exists (out ++ new). fold name in Hnew, Hall. split.
        { rewrite Hnew. cbn [target]. rewrite Hstored. now rewrite app_assoc. }
        rewrite <- (take_drop B (drop offset (rows_of (source w) name))).
        apply Forall2_app; [exact Hout2|].
        rewrite drop_drop. exact Hall.
Qed.

End FullCopy.

Section FullCopyOfSchema.
Import DataMigrator.
Context (rt : Builtins) (clock : Clock) (this : DataMigrator).

Lemma page_sizes_sum n b : (1 <= b)%nat -> sum_list (page_sizes n b) = n.
Proof.
  intros Hb. unfold page_sizes. rewrite sum_list_with_app, sum_list_replicate.
  pose proof (Nat.div_mod_eq n b) as Hn.
  destruct (decide (n mod b = 0)%nat); simpl; nia.
Qed.

Lemma fetches_length t b offset n : length (fetches t b offset n) = (n / b + 1)%nat.
Proof. unfold fetches. now rewrite length_fmap, length_seq. Qed.

Lemma migrateTables_spec fuel total cb : forall todo completed w,
  (1 <= batchSize this)%nat ->
  NoDup (tbl_name <$> todo) ->
  (forall t, t ∈ todo ->
     countable (source w) (tbl_name t) /\ countable (target w) (tbl_name t)
     /\ (count_rows (source w) (tbl_name t) / batchSize this < fuel)%nat) ->
  exists w',
    migrateTables rt clock this fuel todo total completed cb w = (Return true, w')
    /\ same_tables (source w) (source w')
    /\ journal (source w')
       = journal (source w) ++ concat (table_fetches w (batchSize this) <$> todo)
    /\ kind (target w') = kind (target w)
    /\ journal (target w')
       = journal (target w) ++ concat (table_inserts w (batchSize this) <$> todo)
    /\ (forall t, t ∈ todo ->
          count_rows (target w') (tbl_name t)
          = (count_rows (target w) (tbl_name t)
             + count_rows (source w) (tbl_name t))%nat)
    /\ (forall t', t' ∉ (tbl_name <$> todo) ->
          store (target w') !! t' = store (target w) !! t')
    /\ (forall t, t ∈ todo ->
          exists new,
            rows_of (target w') (tbl_name t) = rows_of (target w) (tbl_name t) ++ new
            /\ Forall2 (transformed rt clock t) (rows_of (source w) (tbl_name t)) new).
Proof.
  induction todo as [|t todo IH]; intros completed w HB Hnd Hall.
  - exists w. simpl. rewrite !app_nil_r. repeat split.
    + intros t Ht. inversion Ht.
    + intros t Ht. inversion Ht.
  - rewrite fmap_cons in Hnd. apply NoDup_cons in Hnd as [Hfresh Hnd].
    destruct (Hall t (list_elem_of_here _ _)) as (Hs & Ht & Hfuel).
    destruct (migrateLoop_spec rt clock this t fuel 0 0 w HB Hs Ht)
      as (w1 & Hrun & Hsame & Hjs & Hk & Hjt & Hct & Hfr & Hrep & new & Hnew & Hcopied).
    { now rewrite Nat.sub_0_r. }
    rewrite Nat.sub_0_r in Hrun, Hjs, Hjt, Hct. simpl in Hrun.
    cbn [migrateTables]. unfold migrateTableData.
    erewrite bind_return by exact Hrun. cbv beta iota zeta.
    set (w2 := if cb
               then {| source := source w1; target := target w1; ticks := ticks w1;
                       reported := reported w1
                                   ++ [percent (S completed) total] |}
               else w1).
    assert (Hreport : (if cb then report (percent (S completed) total) else Eff.ret tt) w1
                      = (Return tt, w2)).
    { subst w2. now destruct cb. }
    erewrite bind_return by exact Hreport.
    assert (Hsrc2 : source w2 = source w1) by (subst w2; now destruct cb).
    assert (Htgt2 : target w2 = target w1) by (subst w2; now destruct cb).
    assert (Hcount : forall t', count_rows (source w2) t' = count_rows (source w) t').
    { intros t'. rewrite Hsrc2. now apply same_tables_count. }
    destruct (IH (S completed) w2 HB Hnd)
      as (w' & Hrun' & Hsame' & Hjs' & Hk' & Hjt' & Hct' & Hfr' & Hrows').
    { intros t' Hin. destruct (Hall t' (list_elem_of_further _ _ _ Hin)) as (Hs' & Ht' & Hf').
      rewrite Hsrc2, Htgt2, (same_tables_count _ _ _ Hsame).
      split; [now apply (same_tables_countable _ _ _ Hsame)|]. split; [|exact Hf'].
      assert (Hne : tbl_name t' <> tbl_name t).
      { intros Heq. apply Hfresh. rewrite <- Heq. now apply list_elem_of_fmap_2. }
      unfold countable in *. rewrite Hk, (Hfr _ Hne). exact Ht'. }
    exists w'. split; [exact Hrun'|].
    assert (Hfetch : table_fetches w2 (batchSize this) <$> todo
                     = table_fetches w (batchSize this) <$> todo).
    { apply list_fmap_ext. intros i t' _. unfold table_fetches. now rewrite Hcount. }
    assert (Hins : table_inserts w2 (batchSize this) <$> todo
                   = table_inserts w (batchSize this) <$> todo).
    { apply list_fmap_ext. intros i t' _. unfold table_inserts. now rewrite Hcount. }
    rewrite Hsrc2 in Hsame', Hjs', Hrows'. rewrite Htgt2 in Hk', Hjt', Hct', Hfr', Hrows'.
    rewrite Hfetch in Hjs'. rewrite Hins in Hjt'.
    split; [now apply (same_tables_trans _ (source w1))|].
    split; [rewrite Hjs', Hjs; simpl; now rewrite <- app_assoc|].
    split; [congruence|].
    split; [rewrite Hjt', Hjt; simpl; now rewrite <- app_assoc|].
    split; [|split].
    + intros t' Hin. apply elem_of_cons in Hin as [->|Hin].
      * unfold count_rows, rows_of in *. rewrite (Hfr' _ Hfresh). exact Hct.
      * assert (Hne : tbl_name t' <> tbl_name t).
        { intros Heq. apply Hfresh. rewrite <- Heq. now apply list_elem_of_fmap_2. }
        rewrite (Hct' t' Hin), Hcount. f_equal.
        unfold count_rows, rows_of. now rewrite (Hfr _ Hne).
    + intros t' Hout. rewrite fmap_cons, not_elem_of_cons in Hout.
      destruct Hout as [Hne Hout]. rewrite (Hfr' _ Hout). now apply Hfr.
    + intros t' Hin. apply elem_of_cons in Hin as [->|Hin].
      * exists new. rewrite drop_0 in Hcopied. split; [|exact Hcopied].
        unfold rows_of in *. rewrite (Hfr' _ Hfresh). exact Hnew.
      * assert (Hne : tbl_name t' <> tbl_name t).
        { intros Heq. apply Hfresh. rewrite <- Heq. now apply list_elem_of_fmap_2. }
        destruct (Hrows' t' Hin) as (new' & Hnew' & Hcopied').
        exists new'. unfold rows_of in *.
        rewrite (Hfr _ Hne) in Hnew'. destruct Hsame as [_ Hstore].
        rewrite Hstore in Hcopied'. now split.
Qed.

End FullCopyOfSchema.

(** C4.  With a batch size B of at least 1 (so for every B in [1,10000]) and
    tables of distinct names that both adapters can read, [migrateData] ends
    normally once the loop is given more than N/B iterations per table, and
    for each table with N source rows it issues the page fetches at offsets
    0, B, 2B, ...: ⌈N/B⌉ of them, or ⌈N/B⌉+1 when N is an exact multiple of B
    (N = 0 included).  The pages it inserts have B rows each but the last,
    they add up to N rows, and the target table has N rows more than before. *)
Theorem migrateData_fetches_pages_and_copies_every_row
  (rt : Builtins) (clock : Clock) (this : DataMigrator.DataMigrator)
  (schema : SchemaDefinition) (progressCallback : bool) (fuel : nat) (w : World) :
  (1 <= DataMigrator.batchSize this)%nat ->
  NoDup (tbl_name <$> tables schema) ->
  (forall t, t ∈ tables schema ->
     countable (source w) (tbl_name t) /\ countable (target w) (tbl_name t)
     /\ (count_rows (source w) (tbl_name t) / DataMigrator.batchSize this < fuel)%nat) ->
  let B := DataMigrator.batchSize this in
  exists w',
    DataMigrator.migrateData rt clock this fuel schema progressCallback w
    = (Return true, w')
    /\ same_tables (source w) (source w')
    /\ journal (source w')
       = journal (source w) ++ concat (table_fetches w B <$> tables schema)
    /\ journal (target w')
       = journal (target w) ++ concat (table_inserts w B <$> tables schema)
    /\ forall t, t ∈ tables schema ->
         let N := count_rows (source w) (tbl_name t) in
         length (table_fetches w B t)
         = (if decide (N mod B = 0)%nat then ceil_div N B + 1 else ceil_div N B)%nat
         /\ sum_list (page_sizes N B) = N
         /\ count_rows (target w') (tbl_name t)
            = (count_rows (target w) (tbl_name t) + N)%nat.
Proof.
  intros HB Hnd Hall B. unfold DataMigrator.migrateData.
  destruct (migrateTables_spec rt clock this fuel (length (tables schema))
              progressCallback (tables schema) 0%nat w HB Hnd Hall)
    as (w' & Hrun & Hsame & Hjs & _ & Hjt & Hct & _).
  exists w'. split; [exact Hrun|]. split; [exact Hsame|].
  split; [exact Hjs|]. split; [exact Hjt|].
  intros t Hin. split; [|split].
  - unfold table_fetches. rewrite fetches_length. now apply fetch_count.
  - now apply page_sizes_sum.
  - now apply Hct.
Qed.

(** Scenario A: 2,500 users copied in batches of 1000. *)
Lemma migrateData_copies_2500_users :
  let B := DataMigrator.batchSize DataMigrator.new in
  exists w',
    DataMigrator.migrateData Sample.runtime Sample.clock DataMigrator.new 3
      (Sample.schema [Sample.users]) true Sample.users_world
    = (Return true, w')
    /\ same_tables (source Sample.users_world) (source w')
    /\ journal (source w')
       = journal (source Sample.users_world)
         ++ concat (table_fetches Sample.users_world B <$> [Sample.users])
    /\ journal (target w')
       = journal (target Sample.users_world)
         ++ concat (table_inserts Sample.users_world B <$> [Sample.users])
    /\ forall t, t ∈ [Sample.users] ->
         let N := count_rows (source Sample.users_world) (tbl_name t) in
         length (table_fetches Sample.users_world B t)
         = (if decide (N mod B = 0)%nat then ceil_div N B + 1 else ceil_div N B)%nat
         /\ sum_list (page_sizes N B) = N
         /\ count_rows (target w') (tbl_name t)
            = (count_rows (target Sample.users_world) (tbl_name t) + N)%nat.
Proof.
  apply (migrateData_fetches_pages_and_copies_every_row Sample.runtime Sample.clock
           DataMigrator.new (Sample.schema [Sample.users]) true 3 Sample.users_world).
  - vm_compute. lia.
  - apply NoDup_singleton.
  - intros t Ht. apply list_elem_of_singleton in Ht. subst t.
    split; [right; eexists; apply lookup_singleton_eq|].
    split; [right; eexists; apply lookup_singleton_eq|].
    vm_compute. lia.
Defined.

(** The calls and the result of scenario A, computed: three page fetches, of
    1000, 1000 and 500 rows, and 2,500 rows in the target. *)
Example scenario_A_calls :
  let w' := snd (DataMigrator.migrateData Sample.runtime Sample.clock DataMigrator.new 3
                   (Sample.schema [Sample.users]) true Sample.users_world) in
  journal (source w')
  = [selectData_ "users" 1000 0; selectData_ "users" 1000 1000;
     selectData_ "users" 1000 2000]
  /\ journal (target w')
     = [insertData_ "users" 1000; insertData_ "users" 1000; insertData_ "users" 500]
  /\ count_rows (target w') "users" = 2500%nat.
Proof. vm_compute. repeat split. Qed.

(** C5, as the code has it.  Under the conditions of the full copy (a batch
    size of at least 1, tables of distinct names that both adapters can read,
    more than N/B iterations per table), [migrateData] appends to each target
    table one row per source row: no row is dropped.  For a column typed uuid
    that the target lets be null, the appended row holds the string form of
    the source value when it matches the pattern and null when it does not
    (a null or undefined value stays as it is), so the number of cells nulled
    by the validation is exactly the number of source values that fail the
    pattern. *)
Theorem migrateData_nulls_invalid_uuids_and_drops_no_row
  (rt : Builtins) (clock : Clock) (this : DataMigrator.DataMigrator)
  (schema : SchemaDefinition) (progressCallback : bool) (fuel : nat) (w : World) :
  (1 <= DataMigrator.batchSize this)%nat ->
  NoDup (tbl_name <$> tables schema) ->
  (forall t, t ∈ tables schema ->
     countable (source w) (tbl_name t) /\ countable (target w) (tbl_name t)
     /\ (count_rows (source w) (tbl_name t) / DataMigrator.batchSize this < fuel)%nat) ->
  exists w',
    DataMigrator.migrateData rt clock this fuel schema progressCallback w
    = (Return true, w')
    /\ forall t, t ∈ tables schema ->
         let read := rows_of (source w) (tbl_name t) in
         exists transferred,
           rows_of (target w') (tbl_name t)
           = rows_of (target w) (tbl_name t) ++ transferred
           /\ length transferred = length read
           /\ forall name,
                name ∈ (col_name <$> columns t) -> name <> "__proto__" ->
                (forall c, c ∈ columns t -> col_name c = name ->
                   toLowerCase (col_type c) = "uuid" /\ nullable c = true) ->
                Forall2 (fun row r => r !! name = Some (uuid_cell rt (get row name)))
                  read transferred
                /\ count_if (nulled name) (zip read transferred)
                   = count_if (fun row => invalid_uuid rt (get row name)) read.
Proof.
  intros HB Hnd Hall. unfold DataMigrator.migrateData.
  destruct (migrateTables_spec rt clock this fuel (length (tables schema))
              progressCallback (tables schema) 0%nat w HB Hnd Hall)
    as (w' & Hrun & _ & _ & _ & _ & _ & _ & Hrows).
  exists w'. split; [exact Hrun|].
  intros t Hin. cbv zeta. destruct (Hrows t Hin) as (new & Hnew & Hcopied).
  exists new. split; [exact Hnew|].
  split; [symmetry; exact (Forall2_length _ _ _ Hcopied)|].
  intros name Hname Hown Hty.
  assert (Hcells : Forall2 (fun row r => r !! name = Some (uuid_cell rt (get row name)))
                     (rows_of (source w) (tbl_name t)) new).
  { apply (transformed_uuid rt clock t name); try assumption.
    intros c Hc Hcn. now destruct (Hty c Hc Hcn). }
  split; [exact Hcells|]. now apply count_nulled.
Qed.

(** One well-formed and one malformed identifier, copied into an empty
    table whose uuid column is nullable: two rows are read and two appended,
    and one cell is nulled. *)
Lemma migrateData_on_accounts :
  let read := [Sample.good_account; Sample.bad_account] in
  exists w' transferred,
    DataMigrator.migrateData Sample.runtime Sample.clock DataMigrator.new 5
      (Sample.schema [Sample.accounts]) false Sample.accounts_world
    = (Return true, w')
    /\ rows_of (target w') "accounts" = transferred
    /\ length transferred = 2%nat
    /\ Forall2 (fun row r => r !! "id" = Some (uuid_cell Sample.runtime (get row "id")))
         read transferred
    /\ count_if (nulled "id") (zip read transferred) = 1%nat.
Proof.
  destruct (migrateData_nulls_invalid_uuids_and_drops_no_row Sample.runtime
              Sample.clock DataMigrator.new (Sample.schema [Sample.accounts]) false 5
              Sample.accounts_world) as (w' & Hrun & Hrows).
  - vm_compute. lia.
  - apply NoDup_singleton.
  - intros t Ht. apply list_elem_of_singleton in Ht. subst t.
    split; [right; eexists; apply lookup_singleton_eq|].
    split; [right; eexists; apply lookup_singleton_eq|].
    vm_compute. lia.
  - destruct (Hrows Sample.accounts (list_elem_of_here _ _))
      as (transferred & Hnew & Hlen & Hcolumn).
    destruct (Hcolumn "id") as [Hcells Hcount].
    + apply list_elem_of_here.
    + discriminate.
    + intros c Hc _. apply list_elem_of_singleton in Hc. subst c. now split.
    + exists w', transferred. split; [exact Hrun|].
      split; [exact Hnew|]. split; [exact Hlen|]. split; [exact Hcells|].
      exact Hcount.
Defined.

(** C5, as stated, fails: with one malformed identifier among two source
    rows, the full migration into a table whose uuid column is nullable still
    inserts two rows, the malformed identifier stored as null; no row is
    dropped, so the rows transferred are not fewer than the rows read and the
    number of dropped rows (none) is not the number of invalid values
    (one). *)
Lemma malformed_uuid_row_is_still_transferred :
  let run := DataMigrator.migrateData Sample.runtime Sample.clock DataMigrator.new 5
               (Sample.schema [Sample.accounts]) false Sample.accounts_world in
  let read := rows_of (source Sample.accounts_world) "accounts" in
  let transferred := rows_of (target (snd run)) "accounts" in
  fst run = Return true
  /\ nullable <$> columns Sample.accounts = [true]
  /\ count_if (fun row => invalid_uuid Sample.runtime (get row "id")) read = 1%nat
  /\ length transferred = length read
  /\ ~ (length transferred < length read)%nat
  /\ (length read - length transferred)%nat
     <> count_if (fun row => invalid_uuid Sample.runtime (get row "id")) read
  /\ (fun r => r !! "id") <$> transferred
     = [Some (VStr "123e4567-e89b-42d3-a456-426614174000"); Some VNull].
Proof.
  vm_compute. repeat split; lia.
Qed.

(** [setBatchSize] keeps the batch size within [1, 10000]. *)
Lemma setBatchSize_range size this :
  1 <= Z.of_nat (DataMigrator.batchSize (DataMigrator.setBatchSize size this)) <= 10000.
Proof. unfold DataMigrator.setBatchSize. simpl. lia. Qed.

(** ** ZeroDowntimeManager: cutover *)

Section CutoverFacts.
Import ZeroDowntimeManager.
Context (clock : Clock).

Lemma emit_quiet name err s :
  listeners (this s) name = None ->
  emit name err s = (Return tt, emitting name err s).
Proof.
  intros Hq. unfold emit, with_this, Eff.bind, Eff.modify, Eff.gets. simpl.
  now rewrite Hq.
Qed.

Lemma in_world_run {A} (m : Eff.M World A) s r w :
  m (world s) = (r, w) -> in_world m s = (r, {| this := this s; world := w |}).
Proof. intros H. unfold in_world, Eff.zoom. now rewrite H. Qed.

(** One turn of the validation loop. *)
Lemma validate_entry t sh s :
  countable (source (world s)) t -> countable (target (world s)) sh ->
  exists s',
    Eff.bind (in_world (on_source (getCount t))) (fun sourceCount =>
    Eff.bind (in_world (on_target (getCount sh))) (fun shadowCount =>
    if decide (sourceCount <> shadowCount)
    then Eff.throw (validation_failed t sourceCount shadowCount)
    else Eff.ret tt)) s
    = (if decide (count_rows (source (world s)) t <> count_rows (target (world s)) sh)
       then Throw (validation_failed t (count_rows (source (world s)) t)
                     (count_rows (target (world s)) sh))
       else Return tt, s')
    /\ this s' = this s
    /\ same_tables (source (world s)) (source (world s'))
    /\ same_tables (target (world s)) (target (world s'))
    /\ undo (target (world s')) = undo (target (world s)).
Proof.
  intros Hs Ht.
  erewrite bind_return
    by (apply in_world_run, on_source_run, getCount_countable; exact Hs).
  erewrite bind_return
    by (apply in_world_run, on_target_run, getCount_countable; exact Ht).
  cbn [world source target].
  eexists. split.
  - destruct (decide (count_rows (source (world s)) t
                      <> count_rows (target (world s)) sh)); reflexivity.
  - repeat split.
Qed.

(** The validation loop stops at the first mapping whose counts differ, and
    only reads. *)
Lemma validate_loop_mismatch entries : forall s,
  (forall e, e ∈ entries ->
     countable (source (world s)) (fst e) /\ countable (target (world s)) (snd e)) ->
  (exists e, e ∈ entries /\ shadow_differs (world s) e) ->
  exists e s',
    e ∈ entries /\ shadow_differs (world s) e
    /\ Eff.for_of entries (fun entry =>
         let '(sourceTable, shadowTable) := entry in
         Eff.bind (in_world (on_source (getCount sourceTable))) (fun sourceCount =>
         Eff.bind (in_world (on_target (getCount shadowTable))) (fun shadowCount =>
         if decide (sourceCount <> shadowCount)
         then Eff.throw (validation_failed sourceTable sourceCount shadowCount)
         else Eff.ret tt))) s
       = (Throw (validation_failed (fst e)
                   (count_rows (source (world s)) (fst e))
                   (count_rows (target (world s)) (snd e))), s')
    /\ this s' = this s
    /\ same_tables (source (world s)) (source (world s'))
    /\ same_tables (target (world s)) (target (world s'))
    /\ undo (target (world s')) = undo (target (world s)).
Proof.
  induction entries as [|[t sh] entries IH]; intros s Hall Hex.
  - destruct Hex as (e & He & _). inversion He.
  - destruct (Hall (t, sh) (list_elem_of_here _ _)) as [Hs Ht]. simpl in Hs, Ht.
    destruct (validate_entry t sh s Hs Ht) as (s1 & Hrun & Hthis & Hss & Hst & Hu).
    cbn [Eff.for_of].
    destruct (decide (count_rows (source (world s)) t
                      <> count_rows (target (world s)) sh)) as [Hne|Heq].
    + exists (t, sh), s1. split; [apply list_elem_of_here|]. split; [exact Hne|].
      split; [now rewrite (bind_throw _ _ _ _ _ Hrun)|].
      split; [exact Hthis|]. split; [exact Hss|]. split; [exact Hst | exact Hu].
    + rewrite (bind_return _ _ _ _ _ Hrun).
      destruct (IH s1) as (e & s' & He & Hd & Hrun' & Hthis' & Hss' & Hst' & Hu').
      * intros e He. destruct (Hall e (list_elem_of_further _ _ _ He)) as [H1 H2].
        split; eapply same_tables_countable; eauto.
      * destruct Hex as (e & He & Hd). apply elem_of_cons in He as [->|He].
        -- now destruct Heq.
        -- exists e. split; [exact He|]. unfold shadow_differs in *.
           now rewrite (same_tables_count _ _ _ Hss), (same_tables_count _ _ _ Hst).
      * exists e, s'. split; [now apply list_elem_of_further|].
        unfold shadow_differs in *.
        rewrite (same_tables_count _ _ _ Hss), (same_tables_count _ _ _ Hst) in Hd, Hrun'.
        split; [exact Hd|]. split; [exact Hrun'|].
        split; [congruence|].
        split; [eapply same_tables_trans; eauto|].
        split; [eapply same_tables_trans; eauto | congruence].
Qed.

(** When the shadow table of the first mapping exists, the first rename of
    [rollbackCutover] is refused and its transaction is rolled back: the
    tables stay as they are. *)
Lemma rollbackCutover_refused s o sh rest :
  shadowTables (this s) = (o, sh) :: rest ->
  countable (target (world s)) sh ->
  undo (target (world s)) = None ->
  exists s',
    rollbackCutover clock s = (Return tt, s')
    /\ this s' = this s
    /\ source (world s') = source (world s)
    /\ kind (target (world s')) = kind (target (world s))
    /\ store (target (world s')) = store (target (world s))
    /\ undo (target (world s')) = None.
Proof.
  destruct s as [z [src [k st u j] n rep]]. simpl. intros Hmap Hc Hu. subst u.
  assert (Hsql : k <> mongodb -> exists rows, st !! sh = Some rows).
  { intros Hk. destruct Hc as [Hc|[rows Hrows]]; [contradiction | eauto]. }
  unfold rollbackCutover, Eff.try_catch, Eff.bind, Eff.gets, in_world, on_target,
    Eff.zoom, beginTransaction, backupName, alterTableRename, Date_now.
  destruct k; simpl; rewrite Hmap; simpl;
    unfold Eff.bind, in_world, on_target, Eff.zoom, executeQuery, rollback; simpl.
  3: { eexists. split; [reflexivity|]. repeat split. }
  all: destruct Hsql as [rows Hrows]; [discriminate|];
       rewrite Hrows; destruct (st !! o); simpl;
       eexists; (split; [reflexivity|]); repeat split.
Qed.

End CutoverFacts.

(** C3.  If some mapping's source and shadow row counts differ (every mapped
    table being readable, no transaction open on the target and no listener
    throwing), [cutover] throws "Data validation failed for <table>:
    source=<n>, shadow=<m>" for the first such mapping, with both counts.
    The rename step is never reached: the only events are cutoverStarted and
    cutoverFailed, and the tables of the target (and of the source) are what
    they were, under the names they had. *)
Theorem cutover_aborts_on_count_mismatch
  (clock : Clock) (s : ZeroDowntimeManager.State) :
  let z := ZeroDowntimeManager.this s in
  let w := ZeroDowntimeManager.world s in
  ZeroDowntimeManager.listeners z "cutoverStarted" = None ->
  ZeroDowntimeManager.listeners z "cutoverFailed" = None ->
  undo (target w) = None ->
  (forall e, e ∈ ZeroDowntimeManager.shadowTables z ->
     countable (source w) (fst e) /\ countable (target w) (snd e)) ->
  (exists e, e ∈ ZeroDowntimeManager.shadowTables z /\ shadow_differs w e) ->
  exists e s',
    e ∈ ZeroDowntimeManager.shadowTables z /\ shadow_differs w e
    /\ ZeroDowntimeManager.cutover clock s
       = (Throw (Error ("Data validation failed for " +:+ fst e
                        +:+ ": source=" +:+ pretty (count_rows (source w) (fst e))
                        +:+ ", shadow=" +:+ pretty (count_rows (target w) (snd e)))),
          s')
    /\ same_tables (target w) (target (ZeroDowntimeManager.world s'))
    /\ same_tables (source w) (source (ZeroDowntimeManager.world s'))
    /\ ZeroDowntimeManager.event
         <$> ZeroDowntimeManager.emitted (ZeroDowntimeManager.this s')
       = (ZeroDowntimeManager.event <$> ZeroDowntimeManager.emitted z)
         ++ ["cutoverStarted"; "cutoverFailed"].
Proof.
  intros z w Hq1 Hq2 Hu Hall Hex. subst z w.
  unfold ZeroDowntimeManager.cutover.
  rewrite (bind_return _ _ _ _ _ (emit_quiet _ _ _ Hq1)).
  set (s1 := emitting "cutoverStarted" None s).
  destruct (validate_loop_mismatch (ZeroDowntimeManager.shadowTables
                                      (ZeroDowntimeManager.this s)) s1 Hall Hex)
    as (e & s2 & He & Hd & Hrun & Hthis & Hss & Hst & Hu2).
  assert (Hval : ZeroDowntimeManager.validateShadowData s1
                 = (Throw (ZeroDowntimeManager.validation_failed (fst e)
                             (count_rows (source (ZeroDowntimeManager.world s)) (fst e))
                             (count_rows (target (ZeroDowntimeManager.world s)) (snd e))),
                    s2)).
  { unfold ZeroDowntimeManager.validateShadowData.
    erewrite bind_return by reflexivity. exact Hrun. }
  erewrite try_catch_throw by (apply bind_throw; exact Hval).
  destruct (ZeroDowntimeManager.shadowTables (ZeroDowntimeManager.this s))
    as [|[o sh] rest] eqn:Hmap; [inversion He|].
  destruct (rollbackCutover_refused clock s2 o sh rest)
    as (s3 & Hroll & Hthis3 & Hsrc3 & Hk3 & Hst3 & Hu3).
  { rewrite Hthis. simpl. exact Hmap. }
  { eapply same_tables_countable; [exact Hst|].
    now destruct (Hall (o, sh) (list_elem_of_here _ _)). }
  { now rewrite Hu2. }
  rewrite (bind_return _ _ _ _ _ Hroll).
  erewrite bind_return; cycle 1.
  { apply emit_quiet. rewrite Hthis3, Hthis. exact Hq2. }
  exists e, (emitting "cutoverFailed"
               (Some (ZeroDowntimeManager.validation_failed (fst e)
                        (count_rows (source (ZeroDowntimeManager.world s)) (fst e))
                        (count_rows (target (ZeroDowntimeManager.world s)) (snd e)))) s3).
  split; [exact He|]. split; [exact Hd|]. split; [reflexivity|].
  simpl. rewrite Hthis3, Hthis. simpl.
  split; [|split].
  - destruct Hst as [Hk Hs]. subst s1. simpl in Hk, Hs. split; congruence.
  - rewrite Hsrc3. exact Hss.
  - rewrite !fmap_app. simpl. now rewrite <- app_assoc.
Qed.

(** Scenario D: 100 source rows against 99 shadow rows. *)
Lemma cutover_aborts_with_100_against_99 :
  exists s',
    ZeroDowntimeManager.cutover Sample.clock Sample.shadowed_orders
    = (Throw (Error "Data validation failed for orders: source=100, shadow=99"), s')
    /\ same_tables (target (ZeroDowntimeManager.world Sample.shadowed_orders))
         (target (ZeroDowntimeManager.world s'))
    /\ same_tables (source (ZeroDowntimeManager.world Sample.shadowed_orders))
         (source (ZeroDowntimeManager.world s'))
    /\ ZeroDowntimeManager.event
         <$> ZeroDowntimeManager.emitted (ZeroDowntimeManager.this s')
       = ["cutoverStarted"; "cutoverFailed"].
Proof.
  destruct (cutover_aborts_on_count_mismatch Sample.clock Sample.shadowed_orders)
    as (e & s' & He & _ & Hrun & Htarget & Hsource & Hevents).
  - reflexivity.
  - reflexivity.
  - reflexivity.
  - intros e He. apply list_elem_of_singleton in He. subst e. split; right.
    + eexists. apply lookup_singleton_eq.
    + eexists. etrans; [apply lookup_insert_ne; discriminate|].
      apply lookup_singleton_eq.
  - exists ("orders", "orders_shadow"). split; [apply list_elem_of_here|].
    vm_compute. lia.
  - change (e ∈ [("orders", "orders_shadow")]) in He.
    apply list_elem_of_singleton in He. subst e.
    exists s'. split; [exact Hrun|]. split; [exact Htarget|].
    split; [exact Hsource | exact Hevents].
Defined.

(** C1.  A failure after the renames are committed: the clock reads 1000
    in [renameTables] and 1001 in [rollbackCutover], so the rollback looks
    for the backup under users_backup_1001, its second rename is refused and
    its transaction is rolled back.  The live rows stay under
    users_backup_1000 and the shadow's rows under users: nothing is renamed
    back. *)
Theorem failed_cutover_is_not_rolled_back :
  let r := ZeroDowntimeManager.cutover Sample.clock Sample.swapping_users in
  let after := target (ZeroDowntimeManager.world (snd r)) in
  fst r = Throw (Error "connection switch failed")
  /\ store after
     = <[ "users_backup_1000" := Sample.live_rows ]> {[ "users" := Sample.shadow_rows ]}
  /\ store after !! "users_shadow" = None
  /\ journal after
     = [ getCount_ "users_shadow";
         beginTransaction_;
         executeQuery_ (AlterTableRename "users" "users_backup_1000");
         executeQuery_ (AlterTableRename "users_shadow" "users");
         commit_;
         beginTransaction_;
         executeQuery_ (AlterTableRename "users" "users_shadow");
         executeQuery_ (AlterTableRename "users_backup_1001" "users");
         rollback_ ].
Proof. intros r after. split; [|split; [|split]]; vm_compute; reflexivity. Qed.

(** A failure before the commit: the transaction of [renameTables] itself is
    rolled back, and the tables keep their names. *)
Example cutover_failing_before_commit_keeps_names :
  let r := ZeroDowntimeManager.cutover Sample.clock Sample.half_renamed in
  fst r = Throw (Error "PostgreSQL query failed: relation does not exist")
  /\ store (target (ZeroDowntimeManager.world (snd r)))
     = store (target (ZeroDowntimeManager.world Sample.half_renamed)).
Proof. intros r. split; vm_compute; reflexivity. Qed.

(** The same cutover when both clock readings happen to coincide: only then
    does [rollbackCutover] find the backup and put both tables back. *)
Example failed_cutover_with_frozen_clock :
  let r := ZeroDowntimeManager.cutover Sample.frozen_clock Sample.swapping_users in
  fst r = Throw (Error "connection switch failed")
  /\ store (target (ZeroDowntimeManager.world (snd r)))
     = store (target (ZeroDowntimeManager.world Sample.swapping_users)).
Proof. intros r. split; vm_compute; reflexivity. Qed.

(** ** DataMigrator: the incremental copy *)

Section IncrementalCalls.
Import DataMigrator.
Context (rt : Builtins) (clock : Clock).





End IncrementalCalls.

Section IncrementalFacts.
Import DataMigrator.
Context (rt : Builtins) (clock : Clock).
















End IncrementalFacts.




(** Why the source has to run the filtered query: the PostgreSQL adapter is
    sent the statement with [?] markers, the statement fails, the unfiltered
    fallback returns every row, and each run inserts both events again. *)
Example incremental_rerun_after_fallback_repeats_rows :
  let run := DataMigrator.migrateDataIncremental Sample.runtime Sample.clock
               DataMigrator.new (Sample.schema [Sample.events]) false in
  let w1 := snd (run Sample.events_on_postgresql) in
  let w2 := snd (run w1) in
  journal (source w1)
  = [executeQuery_ (SelectSince "events" Question (Some 0) (Some 1000%nat));
     executeQuery_ (SelectLimit "events" 1000)]
  /\ count_rows (target w1) "events" = 2%nat
  /\ count_rows (target w2) "events" = 4%nat.
Proof. intros run w1 w2. split; [|split]; vm_compute; reflexivity. Qed.

(** Why the definition has to declare the timestamps: without them the
    transferred rows carry none, the watermark stays at the epoch, and each
    run inserts both events again. *)
Example incremental_rerun_without_timestamps_repeats_rows :
  let run := DataMigrator.migrateDataIncremental Sample.runtime Sample.clock
               DataMigrator.new (Sample.schema [Sample.events_without_times]) false in
  let w1 := snd (run Sample.events_world) in
  let w2 := snd (run w1) in
  watermark_of (rows_of (target w1) "events") = 0
  /\ count_rows (target w1) "events" = 2%nat
  /\ count_rows (target w2) "events" = 4%nat.
Proof. intros run w1 w2. split; [|split]; vm_compute; reflexivity. Qed.

(** ** MigrationEngine: the requests *)

Section Triples.
Context {S : Type}.

Lemma triple_ret {A} (a : A) (Q : A -> S -> Prop) R : triple (Q a) (Eff.ret a) Q R.
Proof. intros s H. exact H. Qed.

Lemma triple_throw {A} e (Q : A -> S -> Prop) (R : Thrown -> S -> Prop) :
  triple (R e) (Eff.throw e) Q R.
Proof. intros s H. exact H. Qed.

Lemma triple_bind {A B} (m : Eff.M S A) (k : A -> Eff.M S B) P Q Q' R :
  triple P m Q R -> (forall a, triple (Q a) (k a) Q' R) -> triple P (Eff.bind m k) Q' R.
Proof.
  intros Hm Hk s HP. unfold Eff.bind. specialize (Hm s HP).
  destruct (m s) as [[a|e] s1]; [now apply Hk | exact Hm].
Qed.

Lemma triple_try_catch {A} (m : Eff.M S A) h P Q R R' :
  triple P m Q R' -> (forall e, triple (R' e) (h e) Q R) ->
  triple P (Eff.try_catch m h) Q R.
Proof.
  intros Hm Hh s HP. unfold Eff.try_catch. specialize (Hm s HP).
  destruct (m s) as [[a|e] s1]; [exact Hm | now apply Hh].
Qed.

Lemma triple_weaken {A} (m : Eff.M S A) (P P' : S -> Prop) (Q Q' : A -> S -> Prop)
  (R R' : Thrown -> S -> Prop) :
  triple P' m Q' R' -> (forall s, P s -> P' s) ->
  (forall a s, Q' a s -> Q a s) -> (forall e s, R' e s -> R e s) ->
  triple P m Q R.
Proof.
  intros Hm HP HQ HR s H. specialize (Hm s (HP s H)).
  destruct (m s) as [[a|e] s1]; [now apply HQ | now apply HR].
Qed.

(** A loop that keeps [I] as long as it runs. *)
Lemma triple_for_of {A} (xs : list A) (body : A -> Eff.M S unit) (I : S -> Prop) R :
  (forall x, x ∈ xs -> triple I (body x) (fun _ => I) R) ->
  triple I (Eff.for_of xs body) (fun _ => I) R.
Proof.
  induction xs as [|x xs IH]; intros Hb; simpl.
  - intros s H. exact H.
  - eapply triple_bind; [apply Hb; left|].
    intros []. apply IH. intros y Hy. apply Hb. now right.
Qed.

End Triples.

Section EngineGuards.
Import MigrationEngine.
Context (clock : Clock) (co : Collaborators).

Lemma get_mutate_eq jobId f e j :
  Map.get jobId (jobs e) = Some j ->
  Map.get jobId (jobs (snd (mutate jobId f e))) = Some (f j).
Proof.
  intros Hj. unfold mutate, Eff.modify. cbn [snd jobs]. rewrite Hj.
  apply get_set_eq.
Qed.

Lemma get_mutate_ne jobId other f e :
  jobId <> other ->
  Map.get other (jobs (snd (mutate jobId f e))) = Map.get other (jobs e).
Proof.
  intros Hne. unfold mutate, Eff.modify. cbn [snd jobs].
  destruct (Map.get jobId (jobs e)); [|reflexivity].
  now apply get_set_ne.
Qed.


Lemma keeps_throw {A} err : keeps_jobs (@Eff.throw _ A err).
Proof. intros e k H. exact H. Qed.


Lemma keeps_try_catch {A} (m : Eff.M MigrationEngine A) h :
  keeps_jobs m -> (forall err, keeps_jobs (h err)) -> keeps_jobs (Eff.try_catch m h).
Proof.
  intros Hm Hh e key H. unfold Eff.try_catch. specialize (Hm e key H).
  destruct (m e) as [[a|err] e1]; simpl in *.
  - exact Hm.
  - now apply Hh.
Qed.









Lemma set_set {V} k (v1 v2 : V) m : Map.set k v2 (Map.set k v1 m) = Map.set k v2 m.
Proof.
  induction m as [|[k' v'] m IH]; simpl.
  - now rewrite decide_True.
  - destruct (decide (k' = k)) as [->|Hne]; simpl.
    + now rewrite decide_True.
    + rewrite decide_False by exact Hne. now rewrite IH.
Qed.

(** The engine after [job.status = ...; job.logs.push(...); this.emit(...)]
    on the job registered under [jobId]. *)
Lemma status_log_emit_run jobId s l m name e j :
  Map.get jobId (jobs e) = Some j ->
  (let* _ := mutate jobId (set_status s) in
   let* _ := log clock jobId l m in
   emit name jobId) e
  = (Return tt,
     let j' := push_log (level_message l (clock (ticks (world e))) m) (set_status s j) in
     {| jobs := Map.set jobId j' (jobs e);
        adapters := adapters e;
        emitted := emitted e ++ [ {| event := name; job := j' |} ];
        world := with_ticks (S (ticks (world e))) (world e) |}).
Proof.
  intros Hj.
  erewrite bind_return; [|unfold mutate, Eff.modify; rewrite Hj; reflexivity].
  unfold log.
  erewrite bind_return; cycle 1.
  { erewrite bind_return; [|reflexivity].
    unfold mutate, Eff.modify. cbn [jobs]. rewrite get_set_eq, set_set. reflexivity. }
  unfold emit, Eff.modify. cbn [jobs emitted adapters world]. rewrite get_set_eq.
  reflexivity.
Qed.





Lemma jobs_in_world {A} (m : Eff.M World A) J :
  triple (fun e => jobs e = J) (in_world m) (fun _ e => jobs e = J) (fun _ e => jobs e = J).
Proof.
  intros e H. unfold in_world, Eff.zoom. now destruct (m (world e)) as [[a|err] w].
Qed.

Lemma jobs_getAdapter config J :
  triple (fun e => jobs e = J) (getAdapter co config)
    (fun _ e => jobs e = J) (fun _ e => jobs e = J).
Proof.
  unfold getAdapter. intros e H. unfold Eff.bind, Eff.gets.
  destruct (bool_decide _); [exact H|].
  pose proof (jobs_in_world (connect co config) J e H) as H1.
  destruct (in_world (connect co config) e) as [[[]|err] e1]; exact H1.
Qed.

End EngineGuards.

(** X1. [resumeMigration] on a job that is unknown or whose status is not
    [paused] throws "Cannot resume job <id>" and leaves the engine as it
    was. *)
Theorem resumeMigration_rejected_unless_paused
  (clock : Clock) (e : MigrationEngine.MigrationEngine) (jobId : string) :
  (forall j, MigrationEngine.getJob jobId e = Some j -> status j <> paused) ->
  MigrationEngine.resumeMigration clock jobId e
  = (Throw (Error ("Cannot resume job " +:+ jobId)), e).
Proof.
  intros H. unfold MigrationEngine.resumeMigration, MigrationEngine.getJob in *.
  unfold Eff.bind, Eff.gets.
  destruct (Map.get jobId (MigrationEngine.jobs e)) as [j|]; [|reflexivity].
  specialize (H j eq_refl). destruct (status j); try reflexivity. now destruct H.
Qed.

(** A resume requested on a completed job. *)
Lemma resumeMigration_rejected_when_completed :
  MigrationEngine.resumeMigration Sample.clock "job-1"
    (Sample.engine Sample.finished_job)
  = (Throw (Error "Cannot resume job job-1"), Sample.engine Sample.finished_job).
Proof.
  apply (resumeMigration_rejected_unless_paused Sample.clock
           (Sample.engine Sample.finished_job) "job-1").
  intros j Hj. vm_compute in Hj. injection Hj as <-. discriminate.
Defined.

(** X2. A pause followed by a resume of a running job: both calls return,
    the job is [running] again with its other fields untouched but for the
    two log entries, jobPaused and jobResumed are emitted in this order, and
    no other job changes. *)
Theorem pause_then_resume_restores_running
  (clock : Clock) (e : MigrationEngine.MigrationEngine) (jobId : string)
  (j : MigrationJob) :
  MigrationEngine.getJob jobId e = Some j ->
  status j = running ->
  let t := ticks (MigrationEngine.world e) in
  let r := (let* _ := MigrationEngine.pauseMigration clock jobId in
            MigrationEngine.resumeMigration clock jobId) e in
  fst r = Return tt
  /\ MigrationEngine.getJob jobId (snd r)
     = Some (resumedAt (clock (S t)) (pausedAt (clock t) j))
  /\ MigrationEngine.set_status running (pausedAt (clock t) j)
     = MigrationEngine.push_log
         (MigrationEngine.level_message info (clock t) "Migration paused") j
  /\ (forall other, other <> jobId ->
        MigrationEngine.getJob other (snd r) = MigrationEngine.getJob other e)
  /\ MigrationEngine.emitted (snd r)
     = MigrationEngine.emitted e
       ++ [ {| MigrationEngine.event := "jobPaused";
               MigrationEngine.job := pausedAt (clock t) j |};
            {| MigrationEngine.event := "jobResumed";
               MigrationEngine.job := resumedAt (clock (S t)) (pausedAt (clock t) j) |} ].
Proof.
  intros Hj Hs t r. subst r.
  unfold MigrationEngine.getJob in *.
  assert (Hpause : MigrationEngine.pauseMigration clock jobId e
                   = (Return tt,
                      {| MigrationEngine.jobs :=
                           Map.set jobId (pausedAt (clock t) j) (MigrationEngine.jobs e);
                         MigrationEngine.adapters := MigrationEngine.adapters e;
                         MigrationEngine.emitted :=
                           MigrationEngine.emitted e
                           ++ [ {| MigrationEngine.event := "jobPaused";
                                   MigrationEngine.job := pausedAt (clock t) j |} ];
                         MigrationEngine.world :=
                           with_ticks (S t) (MigrationEngine.world e) |})).
  { unfold MigrationEngine.pauseMigration.
    erewrite bind_return; [|unfold Eff.gets; rewrite Hj; reflexivity].
    cbv beta iota. rewrite Hs. now rewrite (status_log_emit_run clock jobId paused info _ _ e j Hj). }
  erewrite bind_return; [|exact Hpause].
  match goal with |- context [MigrationEngine.resumeMigration clock jobId ?e1] =>
    set (e' := e1) end.
  assert (Hj' : Map.get jobId (MigrationEngine.jobs e') = Some (pausedAt (clock t) j)).
  { subst e'. cbn [MigrationEngine.jobs]. apply get_set_eq. }
  assert (Hresume : MigrationEngine.resumeMigration clock jobId e'
            = (Return tt,
               {| MigrationEngine.jobs :=
                    Map.set jobId (resumedAt (clock (S t)) (pausedAt (clock t) j))
                      (MigrationEngine.jobs e');
                  MigrationEngine.adapters := MigrationEngine.adapters e';
                  MigrationEngine.emitted :=
                    MigrationEngine.emitted e'
                    ++ [ {| MigrationEngine.event := "jobResumed";
                            MigrationEngine.job :=
                              resumedAt (clock (S t)) (pausedAt (clock t) j) |} ];
                  MigrationEngine.world :=
                    with_ticks (S (S t)) (MigrationEngine.world e') |})).
  { unfold MigrationEngine.resumeMigration.
    erewrite bind_return; [|unfold Eff.gets; rewrite Hj'; reflexivity].
    cbv beta iota.
    cbn [status pausedAt MigrationEngine.push_log MigrationEngine.set_status].
    now rewrite (status_log_emit_run clock jobId running info _ _ e' _ Hj'). }
  rewrite Hresume. cbn [fst snd MigrationEngine.jobs MigrationEngine.emitted].
  split; [reflexivity|]. split; [apply get_set_eq|].
  split.
  { destruct j; simpl in *. subst. reflexivity. }
  split.
  { intros other Hne. subst e'. cbn [MigrationEngine.jobs].
    rewrite !get_set_ne by congruence. reflexivity. }
  subst e'. cbn [MigrationEngine.emitted]. rewrite <- app_assoc. reflexivity.
Qed.

(** A running job, paused and resumed. *)
Lemma pause_then_resume_on_running_job :
  let j := MigrationEngine.set_status running Sample.finished_job in
  let r := (let* _ := MigrationEngine.pauseMigration Sample.clock "job-1" in
            MigrationEngine.resumeMigration Sample.clock "job-1") (Sample.engine j) in
  fst r = Return tt
  /\ status <$> MigrationEngine.getJob "job-1" (snd r) = Some running.
Proof.
  intros j r.
  destruct (pause_then_resume_restores_running Sample.clock (Sample.engine j)
              "job-1" j eq_refl eq_refl) as (H1 & H2 & _).
  split; [exact H1|]. subst r. now rewrite H2.
Defined.

(** X3. Requests the engine refuses: for an unknown job id, [startMigration],
    [pauseMigration], [resumeMigration] and [rollbackMigration] each throw
    their own message; [rollbackMigration] also refuses a known job whose
    strategy does not support rollback.  In every case the engine is left as
    it was: no status change, no log entry, no event. *)
Theorem refused_requests_change_nothing
  (clock : Clock) (co : MigrationEngine.Collaborators)
  (e : MigrationEngine.MigrationEngine) (jobId : string) :
  (MigrationEngine.getJob jobId e = None ->
     MigrationEngine.startMigration clock co jobId e
     = (Throw (Error ("Migration job " +:+ jobId +:+ " not found")), e)
     /\ MigrationEngine.pauseMigration clock jobId e
        = (Throw (Error ("Cannot pause job " +:+ jobId)), e)
     /\ MigrationEngine.resumeMigration clock jobId e
        = (Throw (Error ("Cannot resume job " +:+ jobId)), e)
     /\ MigrationEngine.rollbackMigration clock co jobId e
        = (Throw (Error ("Rollback not supported for job " +:+ jobId)), e))
  /\ (forall j, MigrationEngine.getJob jobId e = Some j ->
        rollbackSupported (strategy j) = false ->
        MigrationEngine.rollbackMigration clock co jobId e
        = (Throw (Error ("Rollback not supported for job " +:+ jobId)), e)).
Proof.
  unfold MigrationEngine.getJob. split.
  - intros Hj.
    unfold MigrationEngine.startMigration, MigrationEngine.pauseMigration,
      MigrationEngine.resumeMigration, MigrationEngine.rollbackMigration.
    unfold Eff.bind, Eff.gets. rewrite Hj. repeat split.
  - intros j Hj Hr. unfold MigrationEngine.rollbackMigration.
    unfold Eff.bind, Eff.gets. rewrite Hj, Hr. reflexivity.
Qed.

(** A rollback requested for a job whose strategy does not support it, and
    requests for a job that was never created. *)
Lemma refused_requests_on_sample_engine :
  MigrationEngine.rollbackMigration Sample.clock Sample.collaborators "job-1"
    (Sample.engine Sample.finished_job)
  = (Throw (Error "Rollback not supported for job job-1"),
     Sample.engine Sample.finished_job)
  /\ MigrationEngine.startMigration Sample.clock Sample.collaborators "job-2"
       (Sample.engine Sample.finished_job)
     = (Throw (Error "Migration job job-2 not found"),
        Sample.engine Sample.finished_job).
Proof.
  destruct (refused_requests_change_nothing Sample.clock Sample.collaborators
              (Sample.engine Sample.finished_job) "job-1") as [_ H1].
  destruct (refused_requests_change_nothing Sample.clock Sample.collaborators
              (Sample.engine Sample.finished_job) "job-2") as [H2 _].
  split.
  - exact (H1 Sample.finished_job eq_refl eq_refl).
  - exact (proj1 (H2 eq_refl)).
Defined.

(** X4. [createMigration] followed by [getJob]: the job registered under the
    new id is the one returned, it is [pending] with progress 0 and no log,
    one jobCreated event carries it, and the jobs registered under other ids
    are as before. *)
Theorem createMigration_registers_a_pending_job
  (e : MigrationEngine.MigrationEngine) (jobId : string)
  (sourceConfig targetConfig : DatabaseConfig) (schema : SchemaDefinition)
  (strategy : MigrationStrategy) :
  let r := MigrationEngine.createMigration jobId sourceConfig targetConfig schema
             strategy e in
  exists job,
    fst r = Return job
    /\ MigrationEngine.getJob jobId (snd r) = Some job
    /\ (id job = jobId /\ status job = types.pending /\ progress job = 0%Q
        /\ logs job = [] /\ startTime job = None /\ endTime job = None
        /\ types.strategy job = strategy /\ types.schema job = schema)
    /\ (forall other, other <> jobId ->
          MigrationEngine.getJob other (snd r) = MigrationEngine.getJob other e)
    /\ MigrationEngine.emitted (snd r)
       = MigrationEngine.emitted e
         ++ [ {| MigrationEngine.event := "jobCreated"; MigrationEngine.job := job |} ].
Proof.
  intros r. subst r. unfold MigrationEngine.createMigration, MigrationEngine.getJob.
  eexists. unfold Eff.bind, Eff.modify, MigrationEngine.emit, Eff.modify, Eff.ret.
  cbn [fst snd MigrationEngine.jobs MigrationEngine.emitted].
  rewrite get_set_eq. cbn [fst snd MigrationEngine.jobs MigrationEngine.emitted].
  split; [reflexivity|]. split; [reflexivity|].
  split; [repeat split|].
  split; [|reflexivity].
  intros other Hne. now apply get_set_ne.
Qed.

(** X5. [getAdapter] keys an adapter by type, host, port and database only:
    once the adapter of one configuration is connected, a configuration for
    the same endpoint is served without a new connection, whatever user name
    and password it carries. *)
Theorem getAdapter_reuses_the_connection_of_an_endpoint
  (co : MigrationEngine.Collaborators) (e : MigrationEngine.MigrationEngine)
  (c1 c2 : DatabaseConfig) :
  same_endpoint c1 c2 ->
  fst (MigrationEngine.getAdapter co c1 e) = Return tt ->
  let e1 := snd (MigrationEngine.getAdapter co c1 e) in
  MigrationEngine.getAdapter co c2 e1 = (Return tt, e1).
Proof.
  intros (Ht & Hh & Hp & Hd) Hret e1. subst e1.
  unfold MigrationEngine.getAdapter in *.
  rewrite <- Ht, <- Hh, <- Hp, <- Hd.
  set (key := MigrationEngine.type_name (db_type c1) +:+ "://" +:+ host c1 +:+ ":"
              +:+ pretty (port c1) +:+ "/" +:+ database c1) in *.
  assert (Hknown : forall e', key ∈ MigrationEngine.adapters e' ->
            (let* known := Eff.gets (fun e => bool_decide (key ∈ MigrationEngine.adapters e)) in
             if known then Eff.ret tt else
             let* _ := MigrationEngine.in_world (MigrationEngine.connect co c2) in
             Eff.modify (fun e =>
               {| MigrationEngine.jobs := MigrationEngine.jobs e;
                  MigrationEngine.adapters := MigrationEngine.adapters e ++ [key];
                  MigrationEngine.emitted := MigrationEngine.emitted e;
                  MigrationEngine.world := MigrationEngine.world e |})) e'
            = (Return tt, e')).
  { intros e' Hin. unfold Eff.bind, Eff.gets.
    now rewrite bool_decide_eq_true_2. }
  apply Hknown.
  unfold Eff.bind, Eff.gets in *.
  destruct (bool_decide (key ∈ MigrationEngine.adapters e)) eqn:Hk.
  - now apply bool_decide_eq_true_1 in Hk.
  - unfold MigrationEngine.in_world, Eff.zoom in *.
    destruct (MigrationEngine.connect co c1 (MigrationEngine.world e)) as [[[]|err] w1];
      [|discriminate].
    cbn [snd Eff.modify MigrationEngine.adapters].
    apply elem_of_app. right. now apply list_elem_of_singleton.
Qed.

(** The same endpoint under two accounts. *)
Lemma getAdapter_ignores_the_credentials :
  let admin := {| db_type := postgresql; host := "localhost"; port := 5432;
                  database := "shop"; username := "admin"; password := "other" |} in
  let e := MigrationEngine.new (Sample.world (Sample.backend postgresql ∅)
                                             (Sample.backend mysql ∅)) in
  let e1 := snd (MigrationEngine.getAdapter Sample.collaborators
                   (Sample.config postgresql "shop") e) in
  MigrationEngine.getAdapter Sample.collaborators admin e1 = (Return tt, e1).
Proof.
  intros admin e.
  apply (getAdapter_reuses_the_connection_of_an_endpoint Sample.collaborators e
           (Sample.config postgresql "shop") admin).
  - repeat split.
  - reflexivity.
Defined.



(** X7. [rollbackMigration] reads the strategy and not the status: for any
    registered job whose strategy supports rollback, whatever its status and
    however the collaborators behave, the call either returns with the job
    [completed] or throws with the job [failed] and the message of the
    exception as its error (Rollback failed for a thrown value that is no
    Error).  In both cases the progress of the job is what it was before the
    rollback. *)
Theorem rollbackMigration_ends_completed_or_failed
  (clock : Clock) (co : MigrationEngine.Collaborators)
  (e : MigrationEngine.MigrationEngine) (jobId : string) (j : MigrationJob) :
  MigrationEngine.getJob jobId e = Some j ->
  rollbackSupported (strategy j) = true ->
  let r := MigrationEngine.rollbackMigration clock co jobId e in
  progress <$> MigrationEngine.getJob jobId (snd r) = Some (progress j)
  /\ ((fst r = Return tt /\ job_status jobId (snd r) = Some completed)
      \/ (exists err,
            fst r = Throw err
            /\ job_status jobId (snd r) = Some failed
            /\ job_error <$> MigrationEngine.getJob jobId (snd r)
               = Some (Some (MigrationEngine.message_of err "Rollback failed")))).
Proof.
  intros Hj Hr r. subst r. unfold job_status, MigrationEngine.getJob in *.
  unfold MigrationEngine.rollbackMigration.
  erewrite bind_return; [|unfold Eff.gets; rewrite Hj; reflexivity].
  cbv beta iota. rewrite Hr. cbn [negb].
  erewrite bind_return;
    [|unfold MigrationEngine.mutate, Eff.modify; rewrite Hj; reflexivity].
  erewrite bind_return; cycle 1.
  { unfold MigrationEngine.log. erewrite bind_return; [|reflexivity].
    unfold MigrationEngine.mutate, Eff.modify. cbn [MigrationEngine.jobs].
    rewrite get_set_eq, set_set. reflexivity. }
  match goal with |- context [Eff.try_catch _ _ ?s] => set (e1 := s) end.
  set (j1 := MigrationEngine.push_log
               (MigrationEngine.level_message warn
                  (clock (ticks (MigrationEngine.world e))) "Starting rollback")
               (MigrationEngine.set_status running j)) in *.
  assert (Hj1 : Map.get jobId (MigrationEngine.jobs e1) = Some j1).
  { subst e1. cbn [MigrationEngine.jobs]. apply get_set_eq. }
  match goal with |- context [Eff.try_catch ?m _ e1] =>
    assert (Hbody : triple (fun e => MigrationEngine.jobs e = MigrationEngine.jobs e1) m
              (fun _ e => exists j', Map.get jobId (MigrationEngine.jobs e) = Some j'
                                     /\ status j' = completed
                                     /\ progress j' = progress j)
              (fun _ e => MigrationEngine.jobs e = MigrationEngine.jobs e1))
  end.
  { eapply triple_bind; [apply jobs_getAdapter|]. intros ?.
    eapply triple_bind; [apply jobs_getAdapter|]. intros ?.
    eapply triple_bind; [apply jobs_in_world|]. intros ?.
    eapply triple_bind; [apply jobs_in_world|]. intros ?.
    intros e5 H5. rewrite <- H5 in Hj1.
    rewrite (status_log_emit_run clock jobId completed info _ _ e5 j1 Hj1).
    cbn [MigrationEngine.jobs]. rewrite get_set_eq. eexists. split; [reflexivity|].
    split; reflexivity. }
  specialize (Hbody e1 eq_refl). unfold Eff.try_catch.
  match goal with |- context [?m e1] =>
    match type of Hbody with context [m e1] =>
      destruct (m e1) as [[[]|err] e2]
    end
  end.
  - destruct Hbody as (j' & Hj' & Hs & Hp). cbn [fst snd]. rewrite Hj'. simpl.
    rewrite Hs, Hp. split; [reflexivity|]. left. split; reflexivity.
  - rewrite <- Hbody in Hj1.
    erewrite bind_return;
      [|unfold MigrationEngine.mutate, Eff.modify; rewrite Hj1; reflexivity].
    erewrite bind_return;
      [|unfold MigrationEngine.mutate, Eff.modify; cbn [MigrationEngine.jobs];
        rewrite get_set_eq; reflexivity].
    erewrite bind_return; [|reflexivity].
    unfold Eff.throw, MigrationEngine.emit, Eff.modify.
    cbn [fst snd MigrationEngine.jobs]. rewrite !get_set_eq.
    split; [reflexivity|]. right. exists err. repeat split.
Qed.

(** A job that was never started, rolled back. *)
Lemma rollbackMigration_on_a_pending_job :
  let s := {| strategy_id := "s2"; strategy_name := "shadow copy"; description := "";
              estimatedDuration := 60000; riskLevel := low; downtime := false;
              rollbackSupported := true |} in
  let j := {| id := "job-3"; status := types.pending;
              sourceDatabase := Sample.config postgresql "shop";
              targetDatabase := Sample.config mysql "shop_v2";
              types.strategy := s; types.schema := Sample.schema [];
              progress := 0; startTime := None; endTime := None;
              job_error := None; logs := [] |} in
  let r := MigrationEngine.rollbackMigration Sample.clock Sample.collaborators "job-3"
             (Sample.engine j) in
  progress <$> MigrationEngine.getJob "job-3" (snd r) = Some (progress j)
  /\ ((fst r = Return tt /\ job_status "job-3" (snd r) = Some completed)
      \/ (exists err,
            fst r = Throw err
            /\ job_status "job-3" (snd r) = Some failed
            /\ job_error <$> MigrationEngine.getJob "job-3" (snd r)
               = Some (Some (MigrationEngine.message_of err "Rollback failed")))).
Proof.
  intros s j.
  exact (rollbackMigration_ends_completed_or_failed Sample.clock Sample.collaborators
           (Sample.engine j) "job-3" j eq_refl eq_refl).
Defined.

(** ** DataMigrator: the shape of transformed values, progress and batch size *)

Section ValueFacts.
Import DataMigrator.
Context (rt : Builtins) (clock : Clock).

Lemma Qfloor_inject_Z z : Qfloor (inject_Z z) = z.
Proof. unfold Qfloor, inject_Z. simpl. apply Z.div_1_r. Qed.

Lemma Math_floor_whole x : isNaN x = false -> whole (Math_floor x).
Proof. destruct x; simpl; [discriminate|trivial|eauto]. Qed.

Lemma Math_floor_fixed x : whole x -> Math_floor x = x.
Proof.
  destruct x as [| |q]; simpl; [intros []|reflexivity|].
  intros [z ->]. now rewrite Qfloor_inject_Z.
Qed.

Lemma whole_not_NaN x : whole x -> isNaN x = false.
Proof. now destruct x. Qed.



End ValueFacts.

(** X8. The result of [transformValue] has the shape of the target type: for
    the string types it is the string form of the value; for the integer
    types a number that is never NaN and has no fractional part; for the
    decimal types a number that is never NaN; for the boolean types a
    boolean; for the date types a date, which is invalid only if the value
    was that invalid date already; for uuid the unchanged string form if it
    matches the pattern and null otherwise. *)
Theorem transformValue_result_fits_the_target_type
  (rt : Builtins) (clock : Clock) (value : Value) (targetType : string) (n : nat) :
  nullish value = false ->
  let t := toLowerCase targetType in
  let r := fst (DataMigrator.transformValue rt clock value targetType n) in
  (t ∈ ["string"; "varchar"; "text"] -> r = VStr (String_ rt value))
  /\ (t ∈ ["integer"; "int"; "bigint"] -> exists x, r = VNum x /\ whole x)
  /\ (t ∈ ["decimal"; "float"; "double"] -> exists x, r = VNum x /\ isNaN x = false)
  /\ (t ∈ ["boolean"; "bool"] -> exists b, r = VBool b)
  /\ (t ∈ ["date"; "datetime"; "timestamp"] ->
        exists d, r = VDate d /\ (d = None -> value = VDate None))
  /\ (t = "uuid" ->
        (r = VStr (String_ rt value)
         /\ DataMigrator.test DataMigrator.uuidRegex (String_ rt value) = true)
        \/ (r = VNull
            /\ DataMigrator.test DataMigrator.uuidRegex (String_ rt value) = false)).
Proof.
  intros Hv t r. subst t r. unfold DataMigrator.transformValue. rewrite Hv.
  repeat split.
  - rewrite !elem_of_cons. intros [H|[H|[H|H]]]; [| | |inversion H]; now rewrite H.
  - rewrite !elem_of_cons. intros [H|[H|[H|H]]]; [| | |inversion H]; rewrite H;
      cbn [DataMigrator.one_of existsb String.eqb Ascii.eqb Bool.eqb orb fst];
      (destruct (isNaN (Number_ rt value)) eqn:Hn;
       [exists (num_of_Z 0); split; [reflexivity|simpl; eauto]
       |eexists; split; [reflexivity|now apply Math_floor_whole]]).
  - rewrite !elem_of_cons. intros [H|[H|[H|H]]]; [| | |inversion H]; rewrite H;
      cbn [DataMigrator.one_of existsb String.eqb Ascii.eqb Bool.eqb orb fst];
      (destruct (isNaN (Number_ rt value)) eqn:Hn;
       [exists (num_of_Z 0); split; reflexivity
       |eexists; split; [reflexivity|exact Hn]]).
  - rewrite !elem_of_cons. intros [H|[H|H]]; [| |inversion H]; rewrite H;
      cbn [DataMigrator.one_of existsb String.eqb Ascii.eqb Bool.eqb orb fst];
      destruct value as [| |b|x|s|d|o|f]; eauto.
  - rewrite !elem_of_cons. intros [H|[H|[H|H]]]; [| | |inversion H]; rewrite H;
      cbn [DataMigrator.one_of existsb String.eqb Ascii.eqb Bool.eqb orb fst];
      (destruct value as [| |b|x|s|d|o|f]; try discriminate;
       try (destruct (Date_of rt _); eexists; (split; [reflexivity|discriminate]));
       (eexists; split; [reflexivity|congruence])).
  - intros H. rewrite H.
    cbn [DataMigrator.one_of existsb String.eqb Ascii.eqb Bool.eqb orb fst].
    destruct (DataMigrator.test DataMigrator.uuidRegex (String_ rt value)); auto.
Qed.

(** The number 7.5 bound for an integer column. *)
Lemma transformValue_of_a_fraction_fits_integer :
  exists x, fst (DataMigrator.transformValue Sample.runtime Sample.clock
                   (VNum (Fin (15 # 2))) "INTEGER" 0) = VNum x /\ whole x.
Proof.
  destruct (transformValue_result_fits_the_target_type Sample.runtime Sample.clock
              (VNum (Fin (15 # 2))) "INTEGER" 0 eq_refl) as (_ & H & _).
  apply H. vm_compute. apply elem_of_cons. now left.
Defined.

(** X9. Transforming a value twice is transforming it once, for every target
    type but json and jsonb: [transformValue] maps its own result to itself
    and reads the clock no more. *)
Theorem transformValue_is_idempotent
  (rt : Builtins) (clock : Clock) (value : Value) (targetType : string) (n n' : nat) :
  json_type targetType = false ->
  let once := fst (DataMigrator.transformValue rt clock value targetType n) in
  DataMigrator.transformValue rt clock once targetType n' = (once, n').
Proof.
  intros Hjson once. subst once. unfold json_type in Hjson.
  unfold DataMigrator.transformValue.
  destruct (nullish value) eqn:Hv; [cbn [fst]; now rewrite Hv|].
  set (t := toLowerCase targetType) in *. rewrite Hjson.
  destruct (DataMigrator.one_of t ["string"; "varchar"; "text"]);
    [reflexivity|].
  destruct (DataMigrator.one_of t ["integer"; "int"; "bigint"]).
  { cbn [fst nullish Number_].
    destruct (isNaN (Number_ rt value)) eqn:Hn; [reflexivity|].
    pose proof (Math_floor_whole _ Hn) as Hw.
    now rewrite (whole_not_NaN _ Hw), (Math_floor_fixed _ Hw). }
  destruct (DataMigrator.one_of t ["decimal"; "float"; "double"]).
  { cbn [fst nullish Number_].
    destruct (isNaN (Number_ rt value)) eqn:Hn; [reflexivity|]. now rewrite Hn. }
  destruct (DataMigrator.one_of t ["boolean"; "bool"]).
  { destruct value as [| |b|x|s|d|o|f]; try discriminate; reflexivity. }
  destruct (DataMigrator.one_of t ["date"; "datetime"; "timestamp"]).
  { destruct value as [| |b|x|s|d|o|f]; try discriminate;
      try (destruct (Date_of rt _)); reflexivity. }
  destruct (DataMigrator.one_of t ["uuid"]).
  { destruct (DataMigrator.test DataMigrator.uuidRegex (String_ rt value)) eqn:Ht;
      cbn [fst nullish String_]; [|reflexivity]. now rewrite Ht. }
  cbn [fst]. now rewrite Hv.
Qed.

(** The string 12abc bound for an integer column: 0 the first time, and 0
    again. *)
Lemma transformValue_twice_on_a_string :
  DataMigrator.transformValue Sample.runtime Sample.clock
    (fst (DataMigrator.transformValue Sample.runtime Sample.clock (VStr "12abc")
            "integer" 0)) "integer" 0
  = (fst (DataMigrator.transformValue Sample.runtime Sample.clock (VStr "12abc")
            "integer" 0), 0%nat).
Proof.
  exact (transformValue_is_idempotent Sample.runtime Sample.clock (VStr "12abc")
           "integer" 0 0 eq_refl).
Defined.



(** The nil UUID and a version-7 UUID are replaced by null. *)
Example nil_and_version_7_uuids_are_nulled :
  fst (DataMigrator.transformValue Sample.runtime Sample.clock
         (VStr "00000000-0000-0000-0000-000000000000") "uuid" 0) = VNull
  /\ fst (DataMigrator.transformValue Sample.runtime Sample.clock
            (VStr "018f4e7a-9c3b-7d2e-8a1f-3b5c7d9e0f12") "uuid" 0) = VNull.
Proof. split; vm_compute; reflexivity. Qed.

Section ProgressFacts.
Import DataMigrator.
Context (rt : Builtins) (clock : Clock) (this : DataMigrator).



End ProgressFacts.



(** X12. [setBatchSize] cannot stall the copy: whatever integer it is given
    (zero and negative ones included), the batch size it sets is between 1
    and 10000, and [migrateData] with it still ends and copies every row of
    every table, given one loop iteration per source row and one more. *)
Theorem migrateData_copies_every_row_for_any_batch_size
  (rt : Builtins) (clock : Clock) (size : Z) (this : DataMigrator.DataMigrator)
  (schema : SchemaDefinition) (progressCallback : bool) (fuel : nat) (w : World) :
  NoDup (tbl_name <$> tables schema) ->
  (forall t, t ∈ tables schema ->
     countable (source w) (tbl_name t) /\ countable (target w) (tbl_name t)
     /\ (count_rows (source w) (tbl_name t) < fuel)%nat) ->
  let resized := DataMigrator.setBatchSize size this in
  1 <= Z.of_nat (DataMigrator.batchSize resized) <= 10000
  /\ (1 <= size <= 10000 -> Z.of_nat (DataMigrator.batchSize resized) = size)
  /\ exists w',
       DataMigrator.migrateData rt clock resized fuel schema progressCallback w
       = (Return true, w')
       /\ same_tables (source w) (source w')
       /\ forall t, t ∈ tables schema ->
            count_rows (target w') (tbl_name t)
            = (count_rows (target w) (tbl_name t)
               + count_rows (source w) (tbl_name t))%nat.
Proof.
  intros Hnd Hall resized.
  assert (HB : 1 <= Z.of_nat (DataMigrator.batchSize resized) <= 10000).
  { subst resized. unfold DataMigrator.setBatchSize. cbn [DataMigrator.batchSize]. lia. }
  split; [exact HB|]. split.
  { intros Hsize. subst resized. unfold DataMigrator.setBatchSize.
    cbn [DataMigrator.batchSize]. lia. }
  destruct (migrateTables_spec rt clock resized fuel (length (tables schema))
              progressCallback (tables schema) 0%nat w ltac:(lia) Hnd)
    as (w' & Hrun & Hsame & _ & _ & _ & Hct & _).
  { intros t Hin. destruct (Hall t Hin) as (Hs & Ht & Hf).
    split; [exact Hs|]. split; [exact Ht|].
    apply Nat.Div0.div_lt_upper_bound. nia. }
  exists w'. split; [exact Hrun|]. split; [exact Hsame|]. exact Hct.
Qed.

(** Scenario A with a batch size of zero requested. *)
Lemma migrateData_copies_users_with_size_zero :
  let resized := DataMigrator.setBatchSize 0 DataMigrator.new in
  1 <= Z.of_nat (DataMigrator.batchSize resized) <= 10000
  /\ (1 <= 0 <= 10000 -> Z.of_nat (DataMigrator.batchSize resized) = 0)
  /\ exists w',
       DataMigrator.migrateData Sample.runtime Sample.clock resized 2501
         (Sample.schema [Sample.users]) false Sample.users_world
       = (Return true, w')
       /\ same_tables (source Sample.users_world) (source w')
       /\ forall t, t ∈ tables (Sample.schema [Sample.users]) ->
            count_rows (target w') (tbl_name t)
            = (count_rows (target Sample.users_world) (tbl_name t)
               + count_rows (source Sample.users_world) (tbl_name t))%nat.
Proof.
  apply (migrateData_copies_every_row_for_any_batch_size Sample.runtime Sample.clock 0
           DataMigrator.new (Sample.schema [Sample.users]) false 2501
           Sample.users_world).
  - apply NoDup_singleton.
  - intros t Ht. apply list_elem_of_singleton in Ht. subst t.
    split; [right; eexists; apply lookup_singleton_eq|].
    split; [right; eexists; apply lookup_singleton_eq|].
    vm_compute. lia.
Defined.

(** ** The SQL dialects of the two adapters *)

Section DialectFacts.
Import DataMigrator.

Lemma executeQuery_mongodb q b :
  kind b = mongodb ->
  executeQuery q b
  = (Throw (Error "MongoDB does not support SQL queries"), record (executeQuery_ q) b).
Proof. intros Hk. unfold executeQuery. cbn [kind record]. now rewrite Hk. Qed.

Lemma executeQuery_kind q b : kind (snd (executeQuery q b)) = kind b.
Proof.
  unfold executeQuery. cbn [kind record store].
  destruct (kind b) eqn:Hk; [| |exact Hk];
    destruct (run_sql _ q (store b)) as [cause|[rows st]]; exact Hk.
Qed.

Lemma executeQuery_reads q b :
  reads q = true -> store (snd (executeQuery q b)) = store b.
Proof.
  intros Hq. unfold executeQuery. cbn [kind record store].
  destruct (kind b); [| |reflexivity];
    destruct q; try discriminate; cbn [run_sql];
    repeat case_match; simplify_eq; reflexivity.
Qed.

End DialectFacts.

Section IncrementalDialects.
Import DataMigrator.
Context (rt : Builtins) (clock : Clock).

(** [getWatermark] always returns, and only reads the target. *)
Lemma getWatermark_quiet name w :
  exists wm w1,
    getWatermark rt name w = (Return wm, w1)
    /\ source w1 = source w
    /\ same_tables (target w) (target w1)
    /\ ticks w1 = ticks w /\ reported w1 = reported w.
Proof.
  unfold getWatermark, Eff.try_catch, Eff.bind, on_target, Eff.zoom.
  pose proof (executeQuery_kind (SelectMaxTimestamps name) (target w)) as Hk.
  pose proof (executeQuery_reads (SelectMaxTimestamps name) (target w) eq_refl) as Hs.
  destruct (executeQuery (SelectMaxTimestamps name) (target w)) as [[rows|err] b].
  - simpl in Hk, Hs.
    repeat match goal with
    | |- context [if ?c then _ else _] => destruct c
    end; eexists _, _; (split; [reflexivity|]); repeat split; assumption.
  - eexists _, _. split; [reflexivity|]. repeat split; assumption.
Qed.


(** [getDataSinceWatermark] on a MongoDB source. *)
Lemma getDataSinceWatermark_mongodb this name w watermark :
  kind (source w) = mongodb ->
  exists w1,
    getDataSinceWatermark this name watermark w = (Return [], w1)
    /\ same_tables (source w) (source w1)
    /\ target w1 = target w /\ ticks w1 = ticks w /\ reported w1 = reported w.
Proof.
  intros Hk. unfold getDataSinceWatermark, Eff.try_catch, on_source, Eff.zoom.
  rewrite (executeQuery_mongodb _ _ Hk). cbn [source].
  rewrite executeQuery_mongodb by exact Hk.
  eexists. split; [reflexivity|]. repeat split.
Qed.

End IncrementalDialects.



Section IncrementalFromMongo.
Import DataMigrator.
Context (rt : Builtins) (clock : Clock) (this : DataMigrator).

Lemma migrateTablesIncremental_mongodb total cb : forall todo completed w,
  kind (source w) = mongodb ->
  exists w',
    migrateTablesIncremental rt clock this todo total completed cb w = (Return tt, w')
    /\ same_tables (source w) (source w')
    /\ same_tables (target w) (target w').
Proof.
  induction todo as [|t todo IH]; intros completed w Hk.
  - exists w. split; [reflexivity|]. split; apply same_tables_refl.
  - cbn [migrateTablesIncremental]. unfold migrateTableDataIncremental.
    destruct (getWatermark_quiet rt (tbl_name t) w)
      as (wm & w1 & Hrun1 & Hs1 & Ht1 & Hn1 & Hr1).
    assert (Hk1 : kind (source w1) = mongodb) by now rewrite Hs1.
    destruct (getDataSinceWatermark_mongodb this (tbl_name t) w1 wm Hk1)
      as (w2 & Hrun2 & Hs2 & Ht2 & _).
    erewrite bind_return; cycle 1.
    { erewrite bind_return by exact Hrun1.
      erewrite bind_return by exact Hrun2. reflexivity. }
    cbv beta iota.
    set (w3 := if cb
               then {| source := source w2; target := target w2; ticks := ticks w2;
                       reported := reported w2 ++ [percent (S completed) total] |}
               else w2).
    assert (Hreport : (if cb then report (percent (S completed) total) else Eff.ret tt) w2
                      = (Return tt, w3)).
    { subst w3. now destruct cb. }
    erewrite bind_return by exact Hreport.
    assert (Hs3 : source w3 = source w2) by (subst w3; now destruct cb).
    assert (Ht3 : target w3 = target w2) by (subst w3; now destruct cb).
    destruct (IH (S completed) w3) as (w' & Hrun' & Hs' & Ht').
    { rewrite Hs3. destruct Hs2 as [-> _]. exact Hk1. }
    exists w'. split; [exact Hrun'|].
    rewrite Hs3 in Hs'. rewrite Ht3, Ht2 in Ht'.
    split; [rewrite <- Hs1; eapply same_tables_trans; eauto|].
    eapply same_tables_trans; eauto.
Qed.

End IncrementalFromMongo.

(** X14. An incremental migration from a MongoDB source transfers nothing
    and reports success: both statements of [getDataSinceWatermark] are
    refused by the MongoDB adapter, the failure is swallowed, and every table
    is passed over.  Whatever the schema and the target, the call returns
    normally and the tables of both sides are what they were. *)
Theorem migrateDataIncremental_from_mongodb_transfers_nothing
  (rt : Builtins) (clock : Clock) (this : DataMigrator.DataMigrator)
  (schema : SchemaDefinition) (progressCallback : bool) (w : World) :
  kind (source w) = mongodb ->
  exists w',
    DataMigrator.migrateDataIncremental rt clock this schema progressCallback w
    = (Return tt, w')
    /\ same_tables (source w) (source w')
    /\ same_tables (target w) (target w').
Proof.
  intros Hk. unfold DataMigrator.migrateDataIncremental.
  now apply migrateTablesIncremental_mongodb.
Qed.

(** The events of the samples in a MongoDB collection. *)
Lemma migrateDataIncremental_from_mongodb_events :
  let w := Sample.world
             (Sample.backend mongodb
                {[ "events" := [Sample.event_at 10; Sample.event_at 20] ]})
             (Sample.backend postgresql {[ "events" := [] ]}) in
  exists w',
    DataMigrator.migrateDataIncremental Sample.runtime Sample.clock DataMigrator.new
      (Sample.schema [Sample.events]) true w = (Return tt, w')
    /\ same_tables (source w) (source w')
    /\ same_tables (target w) (target w').
Proof.
  intros w.
  exact (migrateDataIncremental_from_mongodb_transfers_nothing Sample.runtime
           Sample.clock DataMigrator.new (Sample.schema [Sample.events]) true w eq_refl).
Defined.

Section ChangesFacts.
Import ZeroDowntimeManager.


End ChangesFacts.


